(** * sqlite3_drv: the result-encoding pipeline of the SQLite3 port driver

    A shallow embedding of [priv/sqlite3_drv.c]: the term buffer that
    [sql_exec_async] builds word by word, the float and binary pools it
    references, the error reply of [return_error], the dispatch in
    [sql_exec], the handoff in [ready_async] and the teardown in
    [sql_free_async].

    Data model (LP64): [int] is 32 bits, [long long] and [ErlDrvTermData]
    are 64 bits.  Counters ([term_count], [row_count], ...) are [nat]: the
    development does not follow them past [INT_MAX].  The database engine and
    the emulator's term reader are outside the driver; they are modelled by
    what their documentation promises. *)

From Stdlib Require Import ZArith String Ascii List Lia.
From stdpp Require Import base option list gmap strings.

(** ** Machine integers *)

Module CInt.

Local Open Scope Z_scope.

(** Two's-complement reading of the low [w] bits of [z]. *)
Definition signed (w : Z) (z : Z) : Z :=
  let m := z mod 2 ^ w in
  if Z.ltb m (2 ^ (w - 1)) then m else m - 2 ^ w.

Definition unsigned (w : Z) (z : Z) : Z := z mod 2 ^ w.

(** [(int) v] for a 64-bit [v]. *)
Definition to_int (z : Z) : Z := signed 32 z.

Definition int_range (z : Z) : Prop := - 2 ^ 31 <= z < 2 ^ 31.
Definition int64_range (z : Z) : Prop := - 2 ^ 63 <= z < 2 ^ 63.

Lemma signed_unsigned w z : 0 < w -> signed w (unsigned w z) = signed w z.
Proof.
  intros Hw. unfold signed, unsigned.
  rewrite Z.mod_mod by (apply Z.pow_nonzero; lia). reflexivity.
Qed.

Lemma signed_id w z :
  0 < w -> - 2 ^ (w - 1) <= z < 2 ^ (w - 1) -> signed w z = z.
Proof.
  intros Hw Hz. unfold signed.
  assert (Hp : 2 ^ w = 2 * 2 ^ (w - 1)).
  { replace w with (Z.succ (w - 1)) at 1 by lia.
    rewrite Z.pow_succ_r by lia. reflexivity. }
  assert (Hpos : 0 < 2 ^ (w - 1)) by (apply Z.pow_pos_nonneg; lia).
  destruct (Z_lt_dec z 0) as [Hneg | Hnn].
  - assert (Hm : z mod 2 ^ w = z + 2 ^ w).
    { symmetry. apply (Z.mod_unique _ _ (-1)); lia. }
    rewrite Hm.
    destruct (Z.ltb_spec (z + 2 ^ w) (2 ^ (w - 1))); lia.
  - rewrite Z.mod_small by lia.
    destruct (Z.ltb_spec z (2 ^ (w - 1))); lia.
Qed.

Lemma signed_range w z :
  0 < w -> - 2 ^ (w - 1) <= signed w z < 2 ^ (w - 1).
Proof.
  intros Hw. unfold signed.
  assert (Hp : 2 ^ w = 2 * 2 ^ (w - 1)).
  { replace w with (Z.succ (w - 1)) at 1 by lia.
    rewrite Z.pow_succ_r by lia. reflexivity. }
  assert (Hpos : 0 < 2 ^ (w - 1)) by (apply Z.pow_pos_nonneg; lia).
  pose proof (Z.mod_pos_bound z (2 ^ w) ltac:(lia)) as Hb.
  destruct (Z.ltb_spec (z mod 2 ^ w) (2 ^ (w - 1))); lia.
Qed.

Lemma to_int_id z : int_range z -> to_int z = z.
Proof. intros Hz. apply signed_id; [lia | exact Hz]. Qed.

Lemma to_int_range z : int_range (to_int z).
Proof. apply (signed_range 32 z). lia. Qed.

End CInt.

(** ** The term array of [erl_driver.h] *)

Abbreviation block := nat (only parsing).
Abbreviation ErlDrvPort := nat (only parsing).

(** An IEEE double, as its 64-bit pattern. *)
Abbreviation c_double := Z (only parsing).

Inductive tag :=
| ERL_DRV_NIL | ERL_DRV_ATOM | ERL_DRV_INT | ERL_DRV_PORT | ERL_DRV_BINARY
| ERL_DRV_STRING | ERL_DRV_TUPLE | ERL_DRV_LIST | ERL_DRV_FLOAT.

(** One [ErlDrvTermData] word.  In C every word is an [unsigned long]; the
    constructors keep apart what the driver stores in it. *)
Inductive ErlDrvTermData :=
| Tag (t : tag)
| Num (n : Z)                       (* an integer, as the 64-bit word *)
| Atom (name : string)              (* driver_mk_atom(name) *)
| PortId (p : ErlDrvPort)           (* driver_mk_port(port) *)
| PtrDouble (b : block) (i : nat)   (* &floats[i], floats being block b *)
| PtrBinary (b : block)             (* an ErlDrvBinary* *)
| PtrChars (s : string)             (* a char* to a NUL-terminated string *)
| Garbage.                          (* not written since realloc *)

(** Conversion of a C integer to [ErlDrvTermData]. *)
Definition word_of (z : Z) : ErlDrvTermData := Num (CInt.unsigned 64 z).

#[global] Instance tag_eq_dec : EqDecision tag.
Proof. solve_decision. Defined.

#[global] Instance ErlDrvTermData_eq_dec : EqDecision ErlDrvTermData.
Proof. solve_decision. Defined.

(** ** Terms, and how the emulator reads a term array

    [driver_output_term] reads the array left to right with a stack: a value
    word pushes, [ERL_DRV_TUPLE n] replaces the top [n] entries by a tuple,
    [ERL_DRV_LIST n] replaces the top [n] entries by a list whose tail is
    the last of them.  The array is accepted when exactly one term is left.
    Leaves that are pointers stay pointers here; dereferencing is
    [driver_output_term]'s business below. *)

#[warnings="-register-all"]
Inductive term :=
| TNil
| TCons (hd tl : term)
| TTuple (elems : list term)
| TAtom (name : string)
| TInt (v : Z)
| TPort (p : ErlDrvPort)
| TString (s : string)
| TFloatAt (b : block) (i : nat)
| TBinaryAt (b : block) (len off : Z).

Definition tlist (l : list term) : term := foldr TCons TNil l.

Fixpoint substring_chars (n : nat) (s : string) : string :=
  match n, s with
  | S n', String c s' => String c (substring_chars n' s')
  | _, _ => EmptyString
  end.

Definition pop (n : nat) (st : list term) : option (list term * list term) :=
  if decide (n <= length st) then Some (rev (take n st), drop n st) else None.

Definition reduce_tuple (n : Z) (st : list term) : option (list term) :=
  '(elems, rest) ← pop (Z.to_nat n) st;
  Some (TTuple elems :: rest).

Definition reduce_list (n : Z) (st : list term) : option (list term) :=
  match st with
  | tl :: st' =>
      '(elems, rest) ← pop (Z.to_nat n - 1) st';
      if decide (1 <= n)%Z then Some (foldr TCons tl elems :: rest) else None
  | [] => None
  end.

Fixpoint read_terms (ws : list ErlDrvTermData) (st : list term) : option (list term) :=
  match ws with
  | [] => Some st
  | Tag ERL_DRV_NIL :: r => read_terms r (TNil :: st)
  | Tag ERL_DRV_ATOM :: Atom a :: r => read_terms r (TAtom a :: st)
  | Tag ERL_DRV_INT :: Num z :: r => read_terms r (TInt (CInt.signed 64 z) :: st)
  | Tag ERL_DRV_PORT :: PortId p :: r => read_terms r (TPort p :: st)
  | Tag ERL_DRV_FLOAT :: PtrDouble b i :: r => read_terms r (TFloatAt b i :: st)
  | Tag ERL_DRV_BINARY :: PtrBinary b :: Num len :: Num off :: r =>
      read_terms r (TBinaryAt b len off :: st)
  | Tag ERL_DRV_STRING :: PtrChars s :: Num len :: r =>
      read_terms r (TString (substring_chars (Z.to_nat len) s) :: st)
  | Tag ERL_DRV_TUPLE :: Num n :: r => st' ← reduce_tuple n st; read_terms r st'
  | Tag ERL_DRV_LIST :: Num n :: r => st' ← reduce_list n st; read_terms r st'
  | _ => None
  end.

Definition decode (ws : list ErlDrvTermData) : option term :=
  match read_terms ws [] with
  | Some [t] => Some t
  | _ => None
  end.

(** ** The database engine, as the driver sees it *)

Definition SQLITE_OK : Z := 0.
Definition SQLITE_BUSY : Z := 5.
Definition SQLITE_MISUSE : Z := 21.
Definition SQLITE_ROW : Z := 100.
Definition SQLITE_DONE : Z := 101.

(** A result cell: what [sqlite3_column_type] and the value accessors report.
    An integer cell holds a 64-bit value. *)
Inductive cell :=
| SQL_INTEGER (v : Z)
| SQL_FLOAT (d : c_double)
| SQL_TEXT (bytes : list Byte.byte)
| SQL_BLOB (bytes : list Byte.byte)
| SQL_NULL.

(** What [sqlite3_errmsg] and [sqlite3_last_insert_rowid] read. *)
Record sqlite3 := Sqlite3 {
  errmsg : string;
  last_insert_rowid : Z
}.

(** A compiled statement: its text, its column names, the rows its steps
    will return, the code of the step that ends them and the state of the
    connection after that step. *)
Record sqlite3_stmt := Sqlite3Stmt {
  stmt_sql : string;
  stmt_columns : list string;
  stmt_rows : list (list cell);
  stmt_final : Z;
  stmt_db_after : sqlite3
}.

(** A statement without result columns never returns a row, a row has one
    cell per column, and the step that ends the rows is not SQLITE_ROW. *)
Definition engine_stmt (s : sqlite3_stmt) : Prop :=
  (stmt_columns s = [] -> stmt_rows s = []) /\
  Forall (fun r => length r = length (stmt_columns s)) (stmt_rows s) /\
  stmt_final s <> SQLITE_ROW.

Definition sqlite3_column_count (s : option sqlite3_stmt) : nat :=
  match s with
  | Some s => length (stmt_columns s)
  | None => 0
  end.

Definition sqlite3_column_name (s : option sqlite3_stmt) (i : nat) : string :=
  match s with
  | Some s => nth i (stmt_columns s) EmptyString
  | None => EmptyString
  end.

(** The cell of column [i] in the current row; SQLITE_NULL when out of range. *)
Definition column (row : list cell) (i : nat) : cell := nth i row SQL_NULL.

Definition sqlite3_column_int (c : cell) : Z :=
  match c with
  | SQL_INTEGER v => CInt.to_int v
  | _ => 0%Z
  end.

Definition sqlite3_column_double (c : cell) : c_double :=
  match c with
  | SQL_FLOAT d => d
  | _ => 0%Z
  end.

Definition sqlite3_column_blob (c : cell) : list Byte.byte :=
  match c with
  | SQL_TEXT bs | SQL_BLOB bs => bs
  | _ => []
  end.

Definition sqlite3_column_bytes (c : cell) : nat := length (sqlite3_column_blob c).

(** ** [strcasestr] *)

Definition tolower (c : ascii) : ascii :=
  let n := nat_of_ascii c in
  if (Nat.leb 65 n && Nat.leb n 90)%bool then ascii_of_nat (n + 32) else c.

Fixpoint lowercase (s : string) : string :=
  match s with
  | EmptyString => EmptyString
  | String c s' => String (tolower c) (lowercase s')
  end.

Fixpoint starts_with_ci (needle hay : string) : bool :=
  match needle, hay with
  | EmptyString, _ => true
  | String a n', String b h' => (Ascii.eqb (tolower a) (tolower b) && starts_with_ci n' h')%bool
  | String _ _, EmptyString => false
  end.

(** The suffix of [hay] at the first case-insensitive match, or NULL. *)
Fixpoint strcasestr (hay needle : string) {struct hay} : option string :=
  if starts_with_ci needle hay then Some hay
  else match hay with
       | EmptyString => None
       | String _ h' => strcasestr h' needle
       end.

(** The text contains the needle, letter case apart. *)
Definition contains_ci (hay needle : string) : Prop :=
  exists pre mid post,
    hay = String.append pre (String.append mid post) /\
    lowercase mid = lowercase needle.

Definition sqlite3_sql (s : option sqlite3_stmt) : option string :=
  stmt_sql <$> s.

(** ** Memory, the port and the log

    The heap maps a live block to what it holds.  The doubles of a float pool
    are kept in the heap, because term words point into them; the contents of
    the term array and of the array of binaries are carried with the only
    pointer that reaches them. *)

Inductive object :=
| Words                                   (* an ErlDrvTermData array *)
| Doubles (ds : list (option c_double))   (* a double array; None: not written yet *)
| Pointers                                (* an ErlDrvBinary* array *)
| Binary (orig_bytes : list Byte.byte)    (* an ErlDrvBinary of orig_size bytes *)
| Statement                               (* a sqlite3_stmt handle *)
| Command.                                (* an async_sqlite3_command *)

Inductive log_line :=
| LogExec (sql : option string)
| LogEncoded (term_count column_count row_count : nat)
| LogDelivered (term_count row_count : nat) (res : Z).

(** One call of [driver_output_term]: the words handed over and, for each
    ERL_DRV_FLOAT word among them, the double found behind its pointer at
    that moment ([None] when the pointer no longer reaches a live double). *)
Record delivery := Delivery {
  to_port : ErlDrvPort;
  sent : list ErlDrvTermData;
  doubles_read : list (option c_double)
}.

Record world := World {
  heap : gmap block object;
  brk : block;                     (* the next block the allocator hands out *)
  bad_frees : nat;                 (* frees and reallocs of a block that is not live *)
  stderr : list log_line;
  port_out : list delivery;
  db : sqlite3;
  drv_port : ErlDrvPort;
  drv_async_handle : Z
}.

Definition set_heap (f : gmap block object -> gmap block object) (w : world) : world :=
  World (f (heap w)) (brk w) (bad_frees w) (stderr w) (port_out w) (db w)
        (drv_port w) (drv_async_handle w).
Definition set_brk (n : block) (w : world) : world :=
  World (heap w) n (bad_frees w) (stderr w) (port_out w) (db w)
        (drv_port w) (drv_async_handle w).
Definition count_bad_free (w : world) : world :=
  World (heap w) (brk w) (S (bad_frees w)) (stderr w) (port_out w) (db w)
        (drv_port w) (drv_async_handle w).
Definition set_stderr (l : list log_line) (w : world) : world :=
  World (heap w) (brk w) (bad_frees w) l (port_out w) (db w)
        (drv_port w) (drv_async_handle w).
Definition set_port_out (l : list delivery) (w : world) : world :=
  World (heap w) (brk w) (bad_frees w) (stderr w) l (db w)
        (drv_port w) (drv_async_handle w).
Definition set_db (d : sqlite3) (w : world) : world :=
  World (heap w) (brk w) (bad_frees w) (stderr w) (port_out w) d
        (drv_port w) (drv_async_handle w).
Definition set_async_handle (h : Z) (w : world) : world :=
  World (heap w) (brk w) (bad_frees w) (stderr w) (port_out w) (db w)
        (drv_port w) h.

(** The state monad of the driver's C functions. *)
Definition M (A : Type) : Type := world -> A * world.

Definition ret {A} (a : A) : M A := fun w => (a, w).
Definition bind {A B} (m : M A) (k : A -> M B) : M B :=
  fun w => let (a, w') := m w in k a w'.

Declare Scope drv_scope.
Delimit Scope drv_scope with drv.
Notation "'let*' x ':=' m 'in' k" := (bind m (fun x => k))
  (at level 10, x pattern, m at level 100, k at level 200, only parsing) : drv_scope.
Notation "'do' m 'in' k" := (bind m (fun _ => k))
  (at level 10, m at level 100, k at level 200, only parsing) : drv_scope.
Local Open Scope drv_scope.

Definition modify (f : world -> world) : M unit := fun w => (tt, f w).
Definition gets {A} (f : world -> A) : M A := fun w => (f w, w).

Fixpoint for_each {A S} (xs : list A) (body : A -> S -> M S) (s : S) : M S :=
  match xs with
  | [] => ret s
  | x :: xs' => let* s' := body x s in for_each xs' body s'
  end.

Definition log (l : log_line) : M unit :=
  modify (fun w => set_stderr (stderr w ++ [l]) w).

(** *** The allocator *)

Definition alloc (o : object) : M block :=
  fun w => (brk w, set_brk (S (brk w)) (set_heap (insert (brk w) o) w)).

(** [free(p)]; [free(NULL)] does nothing. *)
Definition free (p : option block) : M unit :=
  match p with
  | None => ret tt
  | Some b => fun w =>
      match heap w !! b with
      | Some _ => (tt, set_heap (delete b) w)
      | None => (tt, count_bad_free w)
      end
  end.

Definition resize_object (n : nat) (o : object) : object :=
  match o with
  | Doubles ds => Doubles (resize n None ds)
  | _ => o
  end.

Definition load_double (h : gmap block object) (b : block) (i : nat) : option c_double :=
  match h !! b with
  | Some (Doubles ds) => mjoin (ds !! i)
  | _ => None
  end.

Definition store_double (b : block) (i : nat) (d : c_double) : M unit :=
  modify (set_heap (fun h =>
    match h !! b with
    | Some (Doubles ds) => <[b := Doubles (<[i := Some d]> ds)]> h
    | _ => h
    end)).

Definition pointed_doubles (h : gmap block object) (ws : list ErlDrvTermData)
  : list (option c_double) :=
  flat_map (fun w => match w with
                     | PtrDouble b i => [load_double h b i]
                     | _ => []
                     end) ws.

(** [driver_output_term(port, data, n)]: 1 when the array is a term, -1 otherwise. *)
Definition driver_output_term (port : ErlDrvPort) (data : list ErlDrvTermData) (n : nat) : M Z :=
  fun w =>
    let ws := take n data in
    (match decode ws with Some _ => 1%Z | None => (-1)%Z end,
     set_port_out (port_out w ++ [Delivery port ws (pointed_doubles (heap w) ws)]) w).

(** ** The driver *)

(** A C pointer to an array, with the elements it reaches. *)
Record array (A : Type) := Array {
  base : option block;
  elems : list A
}.
Arguments Array {A} base elems.
Arguments base {A} a.
Arguments elems {A} a.

Definition null {A} : array A := Array None [].

(** [async_sqlite3_command]. *)
Record async_sqlite3_command := AsyncCommand {
  self : block;
  statement : option (block * sqlite3_stmt);
  dataset : array ErlDrvTermData;
  term_count : nat;
  row_count : nat;
  floats : option block;
  binaries : array block;
  binaries_count : nat
}.

(** The locals of [sql_exec_async] that change while it runs. *)
Record locals := Locals {
  l_dataset : array ErlDrvTermData;
  l_term_count : nat;
  l_row_count : nat;
  l_floats : option block;
  l_float_count : nat;
  l_binaries : array block;
  l_binaries_count : nat
}.

Definition set_dataset (d : array ErlDrvTermData) (l : locals) : locals :=
  Locals d (l_term_count l) (l_row_count l) (l_floats l) (l_float_count l)
         (l_binaries l) (l_binaries_count l).
Definition set_term_count (n : nat) (l : locals) : locals :=
  Locals (l_dataset l) n (l_row_count l) (l_floats l) (l_float_count l)
         (l_binaries l) (l_binaries_count l).
Definition set_row_count (n : nat) (l : locals) : locals :=
  Locals (l_dataset l) (l_term_count l) n (l_floats l) (l_float_count l)
         (l_binaries l) (l_binaries_count l).
Definition set_floats (p : option block) (n : nat) (l : locals) : locals :=
  Locals (l_dataset l) (l_term_count l) (l_row_count l) p n
         (l_binaries l) (l_binaries_count l).
Definition set_binaries (a : array block) (n : nat) (l : locals) : locals :=
  Locals (l_dataset l) (l_term_count l) (l_row_count l) (l_floats l) (l_float_count l)
         a n.

(** [dataset[i] = w]. *)
Definition put (i : nat) (w : ErlDrvTermData) (l : locals) : locals :=
  set_dataset (Array (base (l_dataset l)) (<[i := w]> (elems (l_dataset l)))) l.

Section Driver.

(** Whether [realloc] of block [b] to [n] elements moves it.  The C library
    decides; the driver has no say. *)
Variable relocates : block -> nat -> bool.

(** [sqlite3_prepare_v2] on the command text: the result code, the
    statement compiled (NULL for a text without a statement) and the
    connection state it leaves. *)
Variable prepare : sqlite3 -> string -> Z * option sqlite3_stmt * sqlite3.

(** [realloc(p, n * sizeof elem)]; [fresh] is what a new block holds. *)
Definition realloc (p : option block) (n : nat) (fresh : object) : M block :=
  match p with
  | None => alloc (resize_object n fresh)
  | Some b => fun w =>
      match heap w !! b with
      | Some o =>
          if relocates b n
          then (let* _ := free (Some b) in alloc (resize_object n o)) w
          else (b, set_heap (insert b (resize_object n o)) w)
      | None => alloc (resize_object n fresh) (count_bad_free w)
      end
  end.

Definition calloc_words (n : nat) : M (array ErlDrvTermData) :=
  let* b := alloc Words in
  ret (Array (Some b) (replicate n (Num 0))).

Definition return_error (error : string) : M (array ErlDrvTermData * nat) :=
  let* spec := calloc_words 7 in
  let spec := Array (base spec)
    (<[6 := Num 2]> (<[5 := Tag ERL_DRV_TUPLE]>
    (<[4 := word_of (Z.of_nat (String.length error))]> (<[3 := PtrChars error]>
    (<[2 := Tag ERL_DRV_STRING]>
    (<[1 := Atom "error"]> (<[0 := Tag ERL_DRV_ATOM]> (elems spec)))))))) in
  ret (spec, 7).

(** [term_count += n; dataset = realloc(dataset, sizeof( *dataset) * term_count)]. *)
Definition grow_dataset (n : nat) (l : locals) : M locals :=
  let tc := l_term_count l + n in
  let* b := realloc (base (l_dataset l)) tc Words in
  ret (set_term_count tc
        (set_dataset (Array (Some b) (resize tc Garbage (elems (l_dataset l)))) l)).

Definition driver_alloc_binary (size : nat) : M block :=
  alloc (Binary (replicate size Byte.x00)).

(** [bin->orig_size = n; memcpy(bin->orig_bytes, src, n)]. *)
Definition fill_binary (b : block) (src : list Byte.byte) : M unit :=
  modify (set_heap (fun h =>
    match h !! b with
    | Some (Binary _) => <[b := Binary src]> h
    | _ => h
    end)).

(** The body of the [switch] on [sqlite3_column_type]. *)
Definition encode_cell (c : cell) (l : locals) : M locals :=
  match c with
  | SQL_INTEGER _ =>
      let* l := grow_dataset 2 l in
      let tc := l_term_count l in
      ret (put (tc - 1) (word_of (sqlite3_column_int c))
          (put (tc - 2) (Tag ERL_DRV_INT) l))
  | SQL_FLOAT _ =>
      let fc := S (l_float_count l) in
      let* f := realloc (l_floats l) fc (Doubles []) in
      let* _ := store_double f (fc - 1) (sqlite3_column_double c) in
      let l := set_floats (Some f) fc l in
      let* l := grow_dataset 2 l in
      let tc := l_term_count l in
      ret (put (tc - 1) (PtrDouble f (fc - 1))
          (put (tc - 2) (Tag ERL_DRV_FLOAT) l))
  | SQL_BLOB _ | SQL_TEXT _ =>
      let bytes := sqlite3_column_bytes c in
      let bc := S (l_binaries_count l) in
      let* bs := realloc (base (l_binaries l)) bc Pointers in
      let* bin := driver_alloc_binary bytes in
      let arr := <[(bc - 1) := bin]> (resize bc 0 (elems (l_binaries l))) in
      let* _ := fill_binary (nth (bc - 1) arr 0) (sqlite3_column_blob c) in
      let l := set_binaries (Array (Some bs) arr) bc l in
      let* l := grow_dataset 4 l in
      let tc := l_term_count l in
      ret (put (tc - 1) (Num 0)
          (put (tc - 2) (word_of (Z.of_nat bytes))
          (put (tc - 3) (PtrBinary (nth (bc - 1) arr 0))
          (put (tc - 4) (Tag ERL_DRV_BINARY) l))))
  | SQL_NULL => ret l
  end.

(** One turn of the [while] loop: the columns of the current row, then the
    tuple that closes it. *)
Definition encode_row (column_count : nat) (row : list cell) (l : locals) : M locals :=
  let* l := for_each (seq 0 column_count) (fun i => encode_cell (column row i)) l in
  let* l := grow_dataset 2 l in
  let tc := l_term_count l in
  let l := put (tc - 1) (word_of (Z.of_nat column_count))
          (put (tc - 2) (Tag ERL_DRV_TUPLE) l) in
  ret (set_row_count (S (l_row_count l)) l).

(** The step that leaves the loop: its code, and the connection after it.
    A NULL statement is a misuse and touches nothing. *)
Definition last_step (s : option sqlite3_stmt) : M Z :=
  match s with
  | Some s => do modify (set_db (stmt_db_after s)) in ret (stmt_final s)
  | None => ret SQLITE_MISUSE
  end.

Definition stmt_of (t : async_sqlite3_command) : option sqlite3_stmt :=
  snd <$> statement t.

(** The header written when the statement has columns. *)
Definition columns_header (s : option sqlite3_stmt) (column_count : nat) (l : locals) : M locals :=
  let base := l_term_count l in
  let* l := grow_dataset (2 + column_count * 2 + 1 + 2 + 2 + 2) l in
  let l := put (base + 1) (Atom "columns") (put base (Tag ERL_DRV_ATOM) l) in
  let l := foldl (fun l i =>
               put (base + 2 + i * 2 + 1) (Atom (sqlite3_column_name s i))
              (put (base + 2 + i * 2) (Tag ERL_DRV_ATOM) l))
             l (seq 0 column_count) in
  let l := put (base + 2 + column_count * 2 + 0) (Tag ERL_DRV_NIL) l in
  let l := put (base + 2 + column_count * 2 + 1) (Tag ERL_DRV_LIST) l in
  let l := put (base + 2 + column_count * 2 + 2) (word_of (Z.of_nat column_count + 1)) l in
  let l := put (base + 2 + column_count * 2 + 3) (Tag ERL_DRV_TUPLE) l in
  let l := put (base + 2 + column_count * 2 + 4) (Num 2) l in
  let l := put (base + 2 + column_count * 2 + 5) (Tag ERL_DRV_ATOM) l in
  let l := put (base + 2 + column_count * 2 + 6) (Atom "rows") l in
  ret l.

(** The three branches after a step that ended with SQLITE_DONE. *)
Definition close_rows (l : locals) : M locals :=
  let* l := grow_dataset 3 l in
  let tc := l_term_count l in
  let l := put (tc - 1) (word_of (Z.of_nat (l_row_count l) + 1))
          (put (tc - 2) (Tag ERL_DRV_LIST)
          (put (tc - 3) (Tag ERL_DRV_NIL) l)) in
  let* l := grow_dataset 2 l in
  let tc := l_term_count l in
  let l := put (tc - 1) (Num 2) (put (tc - 2) (Tag ERL_DRV_TUPLE) l) in
  let* l := grow_dataset 3 l in
  let tc := l_term_count l in
  ret (put (tc - 1) (Num 3)
      (put (tc - 2) (Tag ERL_DRV_LIST)
      (put (tc - 3) (Tag ERL_DRV_NIL) l))).

Definition insert_id (l : locals) : M locals :=
  let* rowid := gets (fun w => last_insert_rowid (db w)) in
  let* l := grow_dataset 6 l in
  let tc := l_term_count l in
  ret (put (tc - 1) (Num 2)
      (put (tc - 2) (Tag ERL_DRV_TUPLE)
      (put (tc - 3) (word_of rowid)
      (put (tc - 4) (Tag ERL_DRV_INT)
      (put (tc - 5) (Atom "id")
      (put (tc - 6) (Tag ERL_DRV_ATOM) l)))))).

Definition plain_status (next_row : Z) (l : locals) : M locals :=
  let* l := grow_dataset 6 l in
  let tc := l_term_count l in
  ret (put (tc - 1) (Num 2)
      (put (tc - 2) (Tag ERL_DRV_TUPLE)
      (put (tc - 3) (word_of next_row)
      (put (tc - 4) (Tag ERL_DRV_INT)
      (put (tc - 5) (Atom "ok")
      (put (tc - 6) (Tag ERL_DRV_ATOM) l)))))).

(** [strcasestr(sqlite3_sql(statement), "INSERT")] is not NULL. *)
Definition mentions_insert (s : option sqlite3_stmt) : bool :=
  match sqlite3_sql s with
  | Some text => bool_decide (is_Some (strcasestr text "INSERT"))
  | None => false
  end.

Definition sql_exec_async (t : async_sqlite3_command) : M async_sqlite3_command :=
  let stmt := stmt_of t in
  let column_count := sqlite3_column_count stmt in
  let* port := gets drv_port in
  let l := Locals null (term_count t) (row_count t) None 0 null 0 in
  let* l := grow_dataset 2 l in
  let tc := l_term_count l in
  let l := put (tc - 1) (PortId port) (put (tc - 2) (Tag ERL_DRV_PORT) l) in
  let* l := (if decide (0 < column_count)
             then columns_header stmt column_count l
             else ret l) in
  let* _ := log (LogExec (sqlite3_sql stmt)) in
  let* l := for_each (from_option stmt_rows [] stmt) (encode_row column_count) l in
  let* next_row := last_step stmt in
  let t := AsyncCommand (self t) (statement t) (dataset t) (term_count t)
             (l_row_count l) (l_floats l) (l_binaries l) (l_binaries_count l) in
  if decide (next_row = SQLITE_BUSY) then
    let* (spec, n) := return_error "SQLite3 database is busy" in
    ret (AsyncCommand (self t) (statement t) spec n
           (row_count t) (floats t) (binaries t) (binaries_count t))
  else if decide (next_row ≠ SQLITE_DONE) then
    let* msg := gets (fun w => errmsg (db w)) in
    let* (spec, n) := return_error msg in
    ret (AsyncCommand (self t) (statement t) spec n
           (row_count t) (floats t) (binaries t) (binaries_count t))
  else
    let* l := (if decide (0 < column_count) then close_rows l
               else if mentions_insert stmt then insert_id l
               else plain_status next_row l) in
    let* l := grow_dataset 2 l in
    let tc := l_term_count l in
    let l := put (tc - 1) (Num 2) (put (tc - 2) (Tag ERL_DRV_TUPLE) l) in
    let* _ := log (LogEncoded (l_term_count l) column_count (l_row_count l)) in
    ret (AsyncCommand (self t) (statement t) (l_dataset l) (l_term_count l)
           (row_count t) (floats t) (binaries t) (binaries_count t)).

Definition sql_free_async (t : async_sqlite3_command) : M unit :=
  let* _ := free (base (dataset t)) in
  let* _ := modify (set_async_handle 0) in
  let* _ := (if floats t is Some _ then free (floats t) else ret tt) in
  let* _ := for_each (seq 0 (binaries_count t))
              (fun i _ => free (Some (nth i (elems (binaries t)) 0))) tt in
  let* _ := (if base (binaries t) is Some _ then free (base (binaries t)) else ret tt) in
  let* _ := (if statement t is Some (h, _) then free (Some h) else ret tt) in
  free (Some (self t)).

Definition ready_async (t : async_sqlite3_command) : M unit :=
  let* port := gets drv_port in
  let* res := driver_output_term port (elems (dataset t)) (term_count t) in
  let* _ := log (LogDelivered (term_count t) (row_count t) res) in
  sql_free_async t.

(** [sqlite3_prepare_v2]: a statement handle comes into being only with
    SQLITE_OK and a text that holds a statement. *)
Definition sqlite3_prepare_v2 (command : string)
  : M (Z * option (block * sqlite3_stmt)) :=
  let* d := gets db in
  let '(result, s, d') := prepare d command in
  let* _ := modify (set_db d') in
  if decide (result = SQLITE_OK) then
    match s with
    | Some s => let* h := alloc Statement in ret (result, Some (h, s))
    | None => ret (result, None)
    end
  else ret (result, None).

Definition sql_exec (command : string) : M Z :=
  let* (result, statement) := sqlite3_prepare_v2 command in
  if decide (result ≠ SQLITE_OK) then
    let* msg := gets (fun w => errmsg (db w)) in
    let* (dataset, term_count) := return_error msg in
    let* port := gets drv_port in
    let* _ := driver_output_term port (elems dataset) term_count in
    ret 0%Z
  else
    let* self := alloc Command in
    let async_command := AsyncCommand self statement null 0 0 None null 0 in
    let* async_command := sql_exec_async async_command in
    let* _ := ready_async async_command in
    ret 0%Z.

End Driver.

(** A fresh driver instance: nothing allocated, nothing sent. *)
Definition boot (port : ErlDrvPort) (d : sqlite3) : world :=
  World ∅ 0 0 [] [] d port 0.

(** * Reasoning about the driver *)

(** ** Running a computation to a postcondition *)

Definition wp {A} (m : M A) (w : world) (Q : A -> world -> Prop) : Prop :=
  Q (m w).1 (m w).2.

Lemma wp_ret {A} (a : A) w Q : Q a w -> wp (ret a) w Q.
Proof. exact id. Qed.

Lemma wp_bind {A B} (m : M A) (k : A -> M B) w Q :
  wp m w (fun a w' => wp (k a) w' Q) -> wp (bind m k) w Q.
Proof. unfold wp, bind. destruct (m w) as [a w']. exact id. Qed.

Lemma wp_mono {A} (m : M A) w (Q Q' : A -> world -> Prop) :
  wp m w Q -> (forall a w', Q a w' -> Q' a w') -> wp m w Q'.
Proof. unfold wp. intros H HQ. apply HQ, H. Qed.

Lemma wp_gets {A} (f : world -> A) w Q : Q (f w) w -> wp (gets f) w Q.
Proof. exact id. Qed.

Lemma wp_modify (f : world -> world) w Q : Q tt (f w) -> wp (modify f) w Q.
Proof. exact id. Qed.

Lemma wp_eq {A} (m : M A) w : wp m w (fun a w' => m w = (a, w')).
Proof. unfold wp. destruct (m w); reflexivity. Qed.

Lemma wp_run {A} (m : M A) w a w' Q : wp m w Q -> m w = (a, w') -> Q a w'.
Proof. unfold wp. intros H E. rewrite E in H. exact H. Qed.

(** Start with a bind: run its first computation with a known fact. *)
Ltac wp_step H :=
  apply wp_bind; eapply wp_mono; [ apply H | cbv beta ].

(** ** What the allocator leaves alone *)

(** [frame w w']: the port, the log, the connection and the driver record are
    the same; only memory may differ. *)
Definition frame (w w' : world) : Prop :=
  port_out w' = port_out w /\ stderr w' = stderr w /\ db w' = db w /\
  drv_port w' = drv_port w /\ drv_async_handle w' = drv_async_handle w.

Lemma frame_refl w : frame w w.
Proof. repeat split. Qed.

Lemma frame_trans w1 w2 w3 : frame w1 w2 -> frame w2 w3 -> frame w1 w3.
Proof. unfold frame. intuition congruence. Qed.

Lemma frame_set_heap f w : frame w (set_heap f w).
Proof. repeat split. Qed.

Create HintDb drv.
#[global] Hint Resolve frame_refl frame_set_heap : drv.

Lemma alloc_frame o w : wp (alloc o) w (fun _ w' => frame w w').
Proof. repeat split. Qed.

Lemma free_frame p w : wp (free p) w (fun _ w' => frame w w').
Proof.
  destruct p as [b|]; [| apply frame_refl].
  unfold wp, free. destruct (heap w !! b); repeat split.
Qed.

Lemma store_double_frame b i d w : wp (store_double b i d) w (fun _ w' => frame w w').
Proof. repeat split. Qed.

Section DriverFacts.

Variable relocates : block -> nat -> bool.
Variable prepare : sqlite3 -> string -> Z * option sqlite3_stmt * sqlite3.

Lemma realloc_frame p n o w :
  wp (realloc relocates p n o) w (fun _ w' => frame w w').
Proof.
  destruct p as [b|]; [| apply alloc_frame].
  unfold wp, realloc. destruct (heap w !! b) as [o'|].
  - destruct (relocates b n); [| repeat split].
    unfold bind, free. destruct (heap w !! b); repeat split.
  - repeat split.
Qed.

Lemma fill_binary_frame b src w : wp (fill_binary b src) w (fun _ w' => frame w w').
Proof. repeat split. Qed.

(** ** The term array grows at its end *)

Definition words (l : locals) : list ErlDrvTermData := elems (l_dataset l).

(** The array is exactly [term_count] words long. *)
Definition tight (l : locals) : Prop := l_term_count l = length (words l).

Lemma grow_dataset_words n l w :
  wp (grow_dataset relocates n l) w (fun l' w' =>
    frame w w' /\
    words l' = resize (l_term_count l + n) Garbage (words l) /\
    l_term_count l' = l_term_count l + n /\
    l_row_count l' = l_row_count l).
Proof.
  unfold grow_dataset. wp_step realloc_frame.
  intros b w' Hf. apply wp_ret. repeat split; apply Hf.
Qed.

Lemma words_put i x l : words (put i x l) = <[i := x]> (words l).
Proof. reflexivity. Qed.

Lemma term_count_put i x l : l_term_count (put i x l) = l_term_count l.
Proof. reflexivity. Qed.

Lemma row_count_put i x l : l_row_count (put i x l) = l_row_count l.
Proof. reflexivity. Qed.

Lemma tight_put i x l : tight l -> tight (put i x l).
Proof. unfold tight. rewrite words_put, length_insert. exact id. Qed.

(** What one cell adds to the array. *)
Definition cell_words (c : cell) (ws : list ErlDrvTermData) : Prop :=
  match c with
  | SQL_INTEGER v => ws = [Tag ERL_DRV_INT; word_of (CInt.to_int v)]
  | SQL_FLOAT _ => exists b i, ws = [Tag ERL_DRV_FLOAT; PtrDouble b i]
  | SQL_TEXT bs | SQL_BLOB bs =>
      exists b, ws = [Tag ERL_DRV_BINARY; PtrBinary b;
                      word_of (Z.of_nat (length bs)); Num 0]
  | SQL_NULL => ws = []
  end.

(** [l'] is [l] with [ws] appended and [d] more rows counted. *)
Definition extends (l : locals) (ws : list ErlDrvTermData) (d : nat) (l' : locals) : Prop :=
  words l' = words l ++ ws /\ tight l' /\ l_row_count l' = l_row_count l + d.

Lemma resize_tail (xs : list ErlDrvTermData) n k :
  n = length xs -> resize (n + k) Garbage xs = xs ++ replicate k Garbage.
Proof. intros ->. by apply resize_add_eq. Qed.

Ltac tail_index :=
  repeat match goal with
  | |- context [ <[?e - length ?xs := _]> _ ] =>
      first [ replace (e - length xs) with 0 by lia
            | replace (e - length xs) with 1 by lia
            | replace (e - length xs) with 2 by lia
            | replace (e - length xs) with 3 by lia
            | replace (e - length xs) with 4 by lia
            | replace (e - length xs) with 5 by lia
            | replace (e - length xs) with 6 by lia ]
  end.

(** Closes [extends l ws 0 (put .. (put .. l'))] after [grow_dataset]. *)
Ltac appended Ht Hw Hc Hr :=
  split; [| split];
  [ rewrite !words_put, Hw, (resize_tail _ _ _ Ht), Hc, Ht;
    repeat (rewrite insert_app_r_alt by lia);
    tail_index; reflexivity
  | repeat apply tight_put; unfold tight; rewrite Hw, Hc, length_resize; reflexivity
  | rewrite !row_count_put, Hr; simpl; lia ].

Lemma encode_cell_words c l w :
  tight l ->
  wp (encode_cell relocates c l) w (fun l' w' =>
    frame w w' /\ exists ws, cell_words c ws /\ extends l ws 0 l').
Proof.
  intros Ht. destruct c as [v | d | bs | bs |]; simpl.
  - wp_step grow_dataset_words. intros l' w' (Hf & Hw & Hc & Hr).
    apply wp_ret. split; [exact Hf |]. eexists; split; [reflexivity |].
    appended Ht Hw Hc Hr.
  - wp_step realloc_frame. intros f w1 Hf1.
    wp_step store_double_frame. intros _ w2 Hf2.
    wp_step grow_dataset_words. intros l' w' (Hf & Hw & Hc & Hr).
    apply wp_ret. split; [eauto using frame_trans |].
    eexists; split; [eexists _, _; reflexivity |].
    change (tight (set_floats (Some f) (S (l_float_count l)) l)) in Ht.
    appended Ht Hw Hc Hr.
  - wp_step realloc_frame. intros p w1 Hf1.
    wp_step alloc_frame. intros bin w2 Hf2.
    wp_step fill_binary_frame. intros _ w3 Hf3.
    wp_step grow_dataset_words. intros l' w' (Hf & Hw & Hc & Hr).
    apply wp_ret. split; [eauto using frame_trans |].
    eexists; split; [eexists; reflexivity |].
    match type of Hw with context [words ?l0] => change (tight l0) in Ht end.
    appended Ht Hw Hc Hr.
  - wp_step realloc_frame. intros p w1 Hf1.
    wp_step alloc_frame. intros bin w2 Hf2.
    wp_step fill_binary_frame. intros _ w3 Hf3.
    wp_step grow_dataset_words. intros l' w' (Hf & Hw & Hc & Hr).
    apply wp_ret. split; [eauto using frame_trans |].
    eexists; split; [eexists; reflexivity |].
    match type of Hw with context [words ?l0] => change (tight l0) in Ht end.
    appended Ht Hw Hc Hr.
  - apply wp_ret. split; [apply frame_refl |]. exists []. split; [reflexivity |].
    split; [| split]; [by rewrite app_nil_r | exact Ht | lia].
Qed.

(** A loop whose every turn appends: the array grows by the turns' words
    in order. *)
Lemma for_each_extends {A} (R : A -> list ErlDrvTermData -> Prop) (d : nat)
    (body : A -> locals -> M locals) (xs : list A) :
  (forall x l w, tight l ->
     wp (body x l) w (fun l' w' => frame w w' /\ exists ws, R x ws /\ extends l ws d l')) ->
  forall l w, tight l ->
    wp (for_each xs body l) w (fun l' w' =>
      frame w w' /\ exists wss, Forall2 R xs wss /\ extends l (concat wss) (d * length xs) l').
Proof.
  intros Hbody. induction xs as [| x xs IH]; intros l w Ht; simpl.
  - apply wp_ret. split; [apply frame_refl |]. exists []. split; [constructor |].
    split; [| split]; [by rewrite app_nil_r | exact Ht | lia].
  - wp_step (Hbody x l w Ht). intros l1 w1 (Hf1 & ws & HR & Hw1 & Ht1 & Hr1).
    eapply wp_mono; [apply (IH l1 w1 Ht1) |].
    intros l2 w2 (Hf2 & wss & HRs & Hw2 & Ht2 & Hr2).
    split; [eauto using frame_trans |].
    exists (ws :: wss). split; [by constructor |].
    split; [| split]; [| exact Ht2 | lia].
    simpl. rewrite Hw2, Hw1, app_assoc. reflexivity.
Qed.

(** What one row adds: its cells' words, then the tuple of [column_count]. *)
Definition row_words (column_count : nat) (row : list cell) (ws : list ErlDrvTermData) : Prop :=
  exists wss,
    Forall2 cell_words (column row <$> seq 0 column_count) wss /\
    ws = concat wss ++ [Tag ERL_DRV_TUPLE; word_of (Z.of_nat column_count)].

Lemma for_each_columns row (cols : list nat) l w :
  tight l ->
  wp (for_each cols (fun i => encode_cell relocates (column row i)) l) w (fun l' w' =>
    frame w w' /\
    exists wss, Forall2 cell_words (column row <$> cols) wss /\ extends l (concat wss) 0 l').
Proof.
  intros Ht.
  eapply wp_mono.
  - apply (for_each_extends (fun i => cell_words (column row i)) 0); [| exact Ht].
    intros i l0 w0 Ht0. apply encode_cell_words, Ht0.
  - intros l' w' (Hf & wss & HR & Hex). split; [exact Hf |].
    exists wss. split; [by apply Forall2_fmap_l | exact Hex].
Qed.

Lemma encode_row_words column_count row l w :
  tight l ->
  wp (encode_row relocates column_count row l) w (fun l' w' =>
    frame w w' /\ exists ws, row_words column_count row ws /\ extends l ws 1 l').
Proof.
  intros Ht. unfold encode_row.
  wp_step (for_each_columns row (seq 0 column_count) l w Ht).
  intros l1 w1 (Hf1 & wss & HR & Hw1 & Ht1 & Hr1).
  wp_step grow_dataset_words. intros l2 w2 (Hf2 & Hw & Hc & Hr).
  apply wp_ret. split; [eauto using frame_trans |].
  eexists. split; [exists wss; split; [exact HR | reflexivity] |].
  assert (Hex : extends l1 [Tag ERL_DRV_TUPLE; word_of (Z.of_nat column_count)] 0
            (put (l_term_count l2 - 1) (word_of (Z.of_nat column_count))
              (put (l_term_count l2 - 2) (Tag ERL_DRV_TUPLE) l2))).
  { appended Ht1 Hw Hc Hr. }
  destruct Hex as (Hw3 & Ht3 & Hr3).
  split; [| split].
  - change (words (set_row_count ?n ?x)) with (words x).
    rewrite Hw3, Hw1, app_assoc. reflexivity.
  - exact Ht3.
  - simpl. rewrite !row_count_put in Hr3. rewrite Hr3, Hr1. lia.
Qed.

Lemma rows_words column_count rows l w :
  tight l ->
  wp (for_each rows (encode_row relocates column_count) l) w (fun l' w' =>
    frame w w' /\
    exists rws, Forall2 (row_words column_count) rows rws /\
                extends l (concat rws) (length rows) l').
Proof.
  intros Ht. eapply wp_mono.
  - apply (for_each_extends (row_words column_count) 1); [| exact Ht].
    intros r l0 w0 Ht0. apply encode_row_words, Ht0.
  - intros l' w' (Hf & rws & HR & Hw & Ht' & Hr). split; [exact Hf |].
    exists rws. split; [exact HR |]. split; [exact Hw |]. split; [exact Ht' | lia].
Qed.

(** ** The header and the three endings *)

Definition atom_words (names : list string) : list ErlDrvTermData :=
  flat_map (fun n => [Tag ERL_DRV_ATOM; Atom n]) names.

Definition header_words (names : list string) : list ErlDrvTermData :=
  [Tag ERL_DRV_ATOM; Atom "columns"] ++ atom_words names ++
  [Tag ERL_DRV_NIL; Tag ERL_DRV_LIST; word_of (Z.of_nat (length names) + 1);
   Tag ERL_DRV_TUPLE; Num 2; Tag ERL_DRV_ATOM; Atom "rows"].

Lemma length_atom_words names : length (atom_words names) = 2 * length names.
Proof. induction names as [| n names IH]; simpl; [reflexivity | rewrite IH; lia]. Qed.

Definition put_name (base : nat) (name : nat -> string) (ws : list ErlDrvTermData) (i : nat) :=
  <[base + 2 + i * 2 + 1 := Atom (name i)]> (<[base + 2 + i * 2 := Tag ERL_DRV_ATOM]> ws).

Lemma put_names_fill base name k :
  forall pre rest,
    length pre = base + 2 ->
    foldl (put_name base name) (pre ++ replicate (2 * k) Garbage ++ rest) (seq 0 k)
    = pre ++ atom_words (name <$> seq 0 k) ++ rest.
Proof.
  induction k as [| k IH]; intros pre rest Hpre.
  - reflexivity.
  - replace (2 * S k) with (2 * k + 2) by lia.
    rewrite seq_S, foldl_app, Nat.add_0_l. cbn [foldl].
    rewrite replicate_add, <- (app_assoc (replicate (2 * k) Garbage)).
    rewrite (IH pre _ Hpre).
    unfold put_name at 1. simpl replicate.
    assert (Hlen : length (pre ++ atom_words (name <$> seq 0 k)) = base + 2 + k * 2).
    { rewrite length_app, Hpre, length_atom_words, length_fmap, length_seq. lia. }
    rewrite !(app_assoc pre).
    rewrite insert_app_r_alt by lia. rewrite Hlen.
    replace (base + 2 + k * 2 - (base + 2 + k * 2)) with 0 by lia.
    rewrite insert_app_r_alt by (rewrite ?length_insert; lia). rewrite Hlen.
    replace (base + 2 + k * 2 + 1 - (base + 2 + k * 2)) with 1 by lia.
    simpl. rewrite fmap_app. unfold atom_words. rewrite flat_map_app.
    simpl. rewrite <- !app_assoc. reflexivity.
Qed.

Lemma foldl_put_names base name (cols : list nat) :
  forall l,
    let l' := foldl (fun l i => put (base + 2 + i * 2 + 1) (Atom (name i))
                               (put (base + 2 + i * 2) (Tag ERL_DRV_ATOM) l)) l cols in
    words l' = foldl (put_name base name) (words l) cols /\
    l_term_count l' = l_term_count l /\ l_row_count l' = l_row_count l.
Proof.
  induction cols as [| i cols IH]; intros l; simpl.
  - repeat split.
  - destruct (IH (put (base + 2 + i * 2 + 1) (Atom (name i))
                   (put (base + 2 + i * 2) (Tag ERL_DRV_ATOM) l))) as (Hw & Hc & Hr).
    simpl in *. rewrite Hw, Hc, Hr. repeat split.
Qed.

Lemma nth_seq_all {A} (xs : list A) d :
  (fun i => nth i xs d) <$> seq 0 (length xs) = xs.
Proof.
  induction xs as [| x xs IH]; [reflexivity |].
  simpl. f_equal. rewrite <- seq_shift.
  rewrite <- list_fmap_compose. exact IH.
Qed.

Lemma columns_header_words s l w :
  tight l ->
  wp (columns_header relocates (Some s) (length (stmt_columns s)) l) w (fun l' w' =>
    frame w w' /\ extends l (header_words (stmt_columns s)) 0 l').
Proof.
  intros Ht. unfold columns_header.
  wp_step grow_dataset_words. intros l1 w1 (Hf & Hw & Hc & Hr).
  apply wp_ret. split; [exact Hf |].
  set (cc := length (stmt_columns s)) in *.
  set (base := l_term_count l) in *.
  set (name := sqlite3_column_name (Some s)).
  set (l2 := put (base + 1) (Atom "columns") (put base (Tag ERL_DRV_ATOM) l1)).
  destruct (foldl_put_names base name (seq 0 cc) l2) as (Hw3 & Hc3 & Hr3).
  cbv zeta in Hw3, Hc3, Hr3.
  set (l3 := foldl _ l2 (seq 0 cc)) in *.
  assert (Hbase : base = length (words l)) by exact Ht.
  assert (Hw2 : words l2 = (words l ++ [Tag ERL_DRV_ATOM; Atom "columns"])
                           ++ replicate (2 * cc) Garbage ++ replicate 7 Garbage).
  { unfold l2. rewrite !words_put, Hw.
    rewrite (resize_tail _ _ _ Hbase).
    replace (2 + cc * 2 + 1 + 2 + 2 + 2) with (2 + (2 * cc + 7)) by lia.
    rewrite !replicate_add. simpl (replicate 2 Garbage).
    rewrite Hbase.
    repeat (rewrite insert_app_r_alt by lia).
    replace (length (words l) - length (words l)) with 0 by lia.
    replace (length (words l) + 1 - length (words l)) with 1 by lia.
    simpl. rewrite <- app_assoc. reflexivity. }
  assert (Hfill : words l3 = (words l ++ [Tag ERL_DRV_ATOM; Atom "columns"])
                    ++ atom_words (stmt_columns s) ++ replicate 7 Garbage).
  { rewrite Hw3, Hw2, put_names_fill.
    - replace (name <$> seq 0 cc) with (stmt_columns s); [reflexivity |].
      symmetry. exact (nth_seq_all (stmt_columns s) EmptyString).
    - rewrite length_app. simpl. lia. }
  assert (Hlen : length ((words l ++ [Tag ERL_DRV_ATOM; Atom "columns"])
                    ++ atom_words (stmt_columns s)) = base + 2 + cc * 2).
  { rewrite !length_app, length_atom_words. simpl. fold cc. lia. }
  split; [| split].
  - rewrite !words_put, Hfill. rewrite !(app_assoc (words l ++ _)).
    repeat (rewrite insert_app_r_alt by (rewrite Hlen; lia)).
    rewrite Hlen.
    repeat match goal with
    | |- context [ <[?e - ?b := _]> _ ] =>
        first [ replace (e - b) with 0 by lia | replace (e - b) with 1 by lia
              | replace (e - b) with 2 by lia | replace (e - b) with 3 by lia
              | replace (e - b) with 4 by lia | replace (e - b) with 5 by lia
              | replace (e - b) with 6 by lia ]
    end.
    simpl. unfold header_words. fold cc. simpl. rewrite <- !app_assoc. reflexivity.
  - repeat apply tight_put. unfold tight. rewrite Hc3, Hfill, app_assoc.
    unfold l2. rewrite !term_count_put, Hc, length_app, Hlen. simpl. lia.
  - rewrite !row_count_put, Hr3. unfold l2. rewrite !row_count_put, Hr. lia.
Qed.

Lemma extends_trans l ws d l1 ws' d' l2 :
  extends l ws d l1 -> extends l1 ws' d' l2 -> extends l (ws ++ ws') (d + d') l2.
Proof.
  intros (Hw1 & _ & Hr1) (Hw2 & Ht2 & Hr2).
  split; [| split]; [| exact Ht2 | lia].
  rewrite Hw2, Hw1, app_assoc. reflexivity.
Qed.

Lemma extends_tight l ws d l' : extends l ws d l' -> tight l'.
Proof. intros (_ & Ht & _). exact Ht. Qed.

Definition rows_end (row_count : nat) : list ErlDrvTermData :=
  [Tag ERL_DRV_NIL; Tag ERL_DRV_LIST; word_of (Z.of_nat row_count + 1);
   Tag ERL_DRV_TUPLE; Num 2;
   Tag ERL_DRV_NIL; Tag ERL_DRV_LIST; Num 3].

Lemma close_rows_words l w :
  tight l ->
  wp (close_rows relocates l) w (fun l' w' =>
    frame w w' /\ extends l (rows_end (l_row_count l)) 0 l').
Proof.
  intros Ht. unfold close_rows.
  wp_step grow_dataset_words. intros l1 w1 (Hf1 & Hw1 & Hc1 & Hr1).
  match goal with |- wp (bind (grow_dataset _ _ ?x) _) _ _ => set (l1' := x) end.
  assert (E1 : extends l [Tag ERL_DRV_NIL; Tag ERL_DRV_LIST;
                          word_of (Z.of_nat (l_row_count l) + 1)] 0 l1').
  { unfold l1'. rewrite Hr1. appended Ht Hw1 Hc1 Hr1. }
  wp_step grow_dataset_words. intros l2 w2 (Hf2 & Hw2 & Hc2 & Hr2).
  match goal with |- wp (bind (grow_dataset _ _ ?x) _) _ _ => set (l2' := x) end.
  assert (E2 : extends l1' [Tag ERL_DRV_TUPLE; Num 2] 0 l2').
  { pose proof (extends_tight _ _ _ _ E1) as Ht1. unfold l2'.
    appended Ht1 Hw2 Hc2 Hr2. }
  wp_step grow_dataset_words. intros l3 w3 (Hf3 & Hw3 & Hc3 & Hr3).
  apply wp_ret. split; [eauto using frame_trans |].
  match goal with |- extends _ _ _ ?x => set (l3' := x) end.
  assert (E3 : extends l2' [Tag ERL_DRV_NIL; Tag ERL_DRV_LIST; Num 3] 0 l3').
  { pose proof (extends_tight _ _ _ _ E2) as Ht2. unfold l3'.
    appended Ht2 Hw3 Hc3 Hr3. }
  exact (extends_trans _ _ _ _ _ _ _ (extends_trans _ _ _ _ _ _ _ E1 E2) E3).
Qed.

Lemma insert_id_words l w :
  tight l ->
  wp (insert_id relocates l) w (fun l' w' =>
    frame w w' /\
    extends l [Tag ERL_DRV_ATOM; Atom "id"; Tag ERL_DRV_INT;
               word_of (last_insert_rowid (db w)); Tag ERL_DRV_TUPLE; Num 2] 0 l').
Proof.
  intros Ht. unfold insert_id. apply wp_bind, wp_gets.
  wp_step grow_dataset_words. intros l1 w1 (Hf1 & Hw1 & Hc1 & Hr1).
  apply wp_ret. split; [exact Hf1 |]. appended Ht Hw1 Hc1 Hr1.
Qed.

Lemma plain_status_words next_row l w :
  tight l ->
  wp (plain_status relocates next_row l) w (fun l' w' =>
    frame w w' /\
    extends l [Tag ERL_DRV_ATOM; Atom "ok"; Tag ERL_DRV_INT;
               word_of next_row; Tag ERL_DRV_TUPLE; Num 2] 0 l').
Proof.
  intros Ht. unfold plain_status.
  wp_step grow_dataset_words. intros l1 w1 (Hf1 & Hw1 & Hc1 & Hr1).
  apply wp_ret. split; [exact Hf1 |]. appended Ht Hw1 Hc1 Hr1.
Qed.

(** The array of [return_error]. *)
Definition error_words (error : string) : list ErlDrvTermData :=
  [Tag ERL_DRV_ATOM; Atom "error"; Tag ERL_DRV_STRING; PtrChars error;
   word_of (Z.of_nat (String.length error)); Tag ERL_DRV_TUPLE; Num 2].

Lemma return_error_words error w :
  wp (return_error error) w (fun r w' =>
    frame w w' /\ elems r.1 = error_words error /\ r.2 = 7).
Proof. repeat split. Qed.

(** ** The whole of [sql_exec_async] *)

Ltac worlds :=
  cbn [port_out drv_port db stderr drv_async_handle
       set_stderr set_db set_port_out set_async_handle] in *.


(** The words written after the rows when the last step was SQLITE_DONE. *)
Definition ending_words (s : sqlite3_stmt) : list ErlDrvTermData :=
  if decide (0 < length (stmt_columns s))
  then rows_end (length (stmt_rows s))
  else if mentions_insert (Some s)
  then [Tag ERL_DRV_ATOM; Atom "id"; Tag ERL_DRV_INT;
        word_of (last_insert_rowid (stmt_db_after s)); Tag ERL_DRV_TUPLE; Num 2]
  else [Tag ERL_DRV_ATOM; Atom "ok"; Tag ERL_DRV_INT; word_of (stmt_final s);
        Tag ERL_DRV_TUPLE; Num 2].

Definition done_words (port : ErlDrvPort) (s : sqlite3_stmt) (rws : list (list ErlDrvTermData))
  : list ErlDrvTermData :=
  [Tag ERL_DRV_PORT; PortId port] ++
  (if decide (0 < length (stmt_columns s)) then header_words (stmt_columns s) else []) ++
  concat rws ++ ending_words s ++ [Tag ERL_DRV_TUPLE; Num 2].

(** What the array of the command holds when [sql_exec_async] returns. *)
Definition encoded (port : ErlDrvPort) (s : sqlite3_stmt) (ws : list ErlDrvTermData) : Prop :=
  if decide (stmt_final s = SQLITE_BUSY) then
    ws = error_words "SQLite3 database is busy"
  else if decide (stmt_final s ≠ SQLITE_DONE) then
    ws = error_words (errmsg (stmt_db_after s))
  else
    exists rws,
      Forall2 (row_words (length (stmt_columns s))) (stmt_rows s) rws /\
      ws = done_words port s rws.

Definition fresh_command (self : block) (statement : option (block * sqlite3_stmt)) :=
  AsyncCommand self statement null 0 0 None null 0.

Lemma sql_exec_async_words self h s w :
  wp (sql_exec_async relocates (fresh_command self (Some (h, s)))) w (fun t w' =>
    port_out w' = port_out w /\ drv_port w' = drv_port w /\
    db w' = stmt_db_after s /\
    encoded (drv_port w) s (elems (dataset t)) /\
    term_count t = length (elems (dataset t)) /\
    row_count t = length (stmt_rows s)).
Proof.
  unfold sql_exec_async, fresh_command, stmt_of, encoded; simpl.
  set (cc := length (stmt_columns s)).
  apply wp_bind, wp_gets.
  set (l0 := Locals null 0 0 None 0 null 0).
  assert (Ht0 : tight l0) by reflexivity.
  wp_step grow_dataset_words. intros l1 w1 (Hf1 & Hw1 & Hc1 & Hr1).
  match goal with |- wp (bind (if _ then _ ?x else _) _) _ _ => set (lp := x) end.
  assert (Ep : extends l0 [Tag ERL_DRV_PORT; PortId (drv_port w)] 0 lp).
  { unfold lp. appended Ht0 Hw1 Hc1 Hr1. }
  (* the header, the log line and the rows *)
  apply wp_bind.
  eapply (wp_mono _ _ (fun lh wh => frame w1 wh /\
            extends lp (if decide (0 < cc) then header_words (stmt_columns s) else []) 0 lh)).
  { destruct (decide (0 < cc)).
    - apply columns_header_words. exact (extends_tight _ _ _ _ Ep).
    - apply wp_ret. split; [apply frame_refl |].
      split; [by rewrite app_nil_r |]. split; [exact (extends_tight _ _ _ _ Ep) | lia]. }
  intros lh wh (Hfh & Eh).
  apply wp_bind, wp_modify.
  match goal with |- wp _ ?x _ => set (wl := x) end.
  wp_step (rows_words cc (stmt_rows s) lh wl (extends_tight _ _ _ _ Eh)).
  intros lr wr (Hfr & rws & HR & Er).
  apply wp_bind, wp_bind, wp_modify, wp_ret.
  match goal with |- wp _ ?x _ => set (wd := x) end.
  pose proof (extends_trans _ _ _ _ _ _ _ (extends_trans _ _ _ _ _ _ _ Ep Eh) Er) as E.
  assert (Hport : port_out wd = port_out w /\ drv_port wd = drv_port w).
  { destruct Hf1 as (? & ? & ? & ? & ?), Hfh as (? & ? & ? & ? & ?), Hfr as (? & ? & ? & ? & ?).
    unfold wd, wl in *; worlds. split; congruence. }
  destruct Hport as (Hpo & Hdp).
  assert (Hrows : l_row_count lr = length (stmt_rows s)).
  { destruct E as (_ & _ & ->). reflexivity. }
  destruct (decide (stmt_final s = SQLITE_BUSY)) as [Hbusy | Hnbusy].
  { wp_step return_error_words. intros [spec n] we (Hfe & Hspec & Hn).
    apply wp_ret; cbn [fst snd] in *. unfold wd in *.
    destruct Hfe as (? & ? & ? & ? & ?). worlds.
    cbn [dataset term_count row_count elems].
    split; [congruence |]. split; [congruence |]. split; [congruence |].
    split; [exact Hspec |]. split; [rewrite Hn, Hspec; reflexivity | exact Hrows]. }
  destruct (decide (stmt_final s ≠ SQLITE_DONE)) as [Herr | Hdone].
  { apply wp_bind, wp_gets.
    wp_step return_error_words. intros [spec n] we (Hfe & Hspec & Hn).
    apply wp_ret; cbn [fst snd] in *. unfold wd in *.
    destruct Hfe as (? & ? & ? & ? & ?). worlds.
    cbn [dataset term_count row_count elems].
    split; [congruence |]. split; [congruence |]. split; [congruence |].
    split; [exact Hspec |]. split; [rewrite Hn, Hspec; reflexivity | exact Hrows]. }
  apply dec_stable in Hdone.
  apply wp_bind.
  eapply (wp_mono _ _ (fun lb wb => frame wd wb /\ extends lr (ending_words s) 0 lb)).
  { unfold ending_words. fold cc. destruct (decide (0 < cc)).
    - rewrite <- Hrows. apply close_rows_words, (extends_tight _ _ _ _ Er).
    - destruct (mentions_insert (Some s)).
      + apply (insert_id_words lr wd), (extends_tight _ _ _ _ Er).
      + apply plain_status_words, (extends_tight _ _ _ _ Er). }
  intros lb wb (Hfb & Eb).
  wp_step grow_dataset_words. intros l2 w2 (Hf2 & Hw2 & Hc2 & Hr2).
  set (lf := put (l_term_count l2 - 1) (Num 2)
              (put (l_term_count l2 - 2) (Tag ERL_DRV_TUPLE) l2)).
  assert (Ef : extends lb [Tag ERL_DRV_TUPLE; Num 2] 0 lf).
  { pose proof (extends_tight _ _ _ _ Eb) as Htb. unfold lf. appended Htb Hw2 Hc2 Hr2. }
  pose proof (extends_trans _ _ _ _ _ _ _ (extends_trans _ _ _ _ _ _ _ E Eb) Ef)
    as (Hwf & Htf & _).
  assert (Hdone_words : words lf = done_words (drv_port w) s rws).
  { rewrite Hwf. unfold done_words. fold cc. rewrite <- !app_assoc. reflexivity. }
  apply wp_bind, wp_modify, wp_ret.
  destruct Hfb as (? & ? & ? & ? & ?), Hf2 as (? & ? & ? & ? & ?).
  unfold wd in *. worlds.
  split; [congruence |]. split; [congruence |]. split; [congruence |].
  split; [| split; [exact Htf | exact Hrows]].
  exists rws. split; [exact HR | exact Hdone_words].
Qed.

(** ** Reading the arrays back *)

Lemma unsigned_small z : (0 <= z < 2 ^ 64)%Z -> CInt.unsigned 64 z = z.
Proof. intros Hz. unfold CInt.unsigned. apply Z.mod_small, Hz. Qed.

Lemma pop_pushed (ts st : list term) : pop (length ts) (rev ts ++ st) = Some (ts, st).
Proof.
  unfold pop. rewrite decide_True by (rewrite length_app, length_rev; lia).
  rewrite <- (length_rev ts) at 1 2.
  rewrite take_app_length, drop_app_length, rev_involutive. reflexivity.
Qed.

Lemma reduce_tuple_pushed (ts st : list term) n :
  Z.to_nat n = length ts -> reduce_tuple n (rev ts ++ st) = Some (TTuple ts :: st).
Proof. intros Hn. unfold reduce_tuple. rewrite Hn, pop_pushed. reflexivity. Qed.

Lemma reduce_list_pushed (ts st : list term) n :
  (n = Z.of_nat (length ts) + 1)%Z ->
  reduce_list n (TNil :: rev ts ++ st) = Some (tlist ts :: st).
Proof.
  intros ->. unfold reduce_list.
  replace (Z.to_nat (Z.of_nat (length ts) + 1) - 1) with (length ts) by lia.
  rewrite pop_pushed. simpl. rewrite decide_True by lia. reflexivity.
Qed.

Lemma read_atom_words names rest st :
  read_terms (atom_words names ++ rest) st
  = read_terms rest (rev (TAtom <$> names) ++ st).
Proof.
  revert st. induction names as [| n names IH]; intros st; [reflexivity |].
  simpl. rewrite IH, <- app_assoc. reflexivity.
Qed.

(** The term a cell is read back as; a NULL cell has none. *)
Definition cell_term (c : cell) (t : term) : Prop :=
  match c with
  | SQL_INTEGER v => t = TInt (CInt.to_int v)
  | SQL_FLOAT _ => exists b i, t = TFloatAt b i
  | SQL_TEXT bs | SQL_BLOB bs =>
      exists b, t = TBinaryAt b (CInt.unsigned 64 (Z.of_nat (length bs))) 0
  | SQL_NULL => False
  end.

Lemma signed_word_of_int v :
  CInt.signed 64 (CInt.unsigned 64 (CInt.to_int v)) = CInt.to_int v.
Proof.
  rewrite CInt.signed_unsigned by lia.
  apply CInt.signed_id; [lia |].
  pose proof (CInt.to_int_range v) as Hr. unfold CInt.int_range in Hr.
  change (2 ^ (64 - 1))%Z with 9223372036854775808%Z.
  change (2 ^ 31)%Z with 2147483648%Z in Hr. lia.
Qed.

Lemma read_cell_words c ws :
  cell_words c ws -> c <> SQL_NULL ->
  exists t, cell_term c t /\
    forall rest st, read_terms (ws ++ rest) st = read_terms rest (t :: st).
Proof.
  destruct c as [v | d | bs | bs |]; simpl; intros Hws Hnn.
  - subst ws. eexists; split; [reflexivity |]. intros rest st.
    simpl. rewrite signed_word_of_int. reflexivity.
  - destruct Hws as (b & i & ->). eexists; split; [eauto |]. reflexivity.
  - destruct Hws as (b & ->). eexists; split; [eauto |]. reflexivity.
  - destruct Hws as (b & ->). eexists; split; [eauto |]. reflexivity.
  - contradiction.
Qed.

Lemma read_cells_words cells wss :
  Forall2 cell_words cells wss -> Forall (fun c => c <> SQL_NULL) cells ->
  exists ts, Forall2 cell_term cells ts /\
    forall rest st, read_terms (concat wss ++ rest) st = read_terms rest (rev ts ++ st).
Proof.
  induction 1 as [| c ws cells wss Hc _ IH]; intros Hnn.
  - exists []. split; [constructor | reflexivity].
  - apply Forall_cons in Hnn as [Hc0 Hnn].
    destruct (read_cell_words c ws Hc Hc0) as (t & Ht & Hread).
    destruct (IH Hnn) as (ts & Hts & Hreads).
    exists (t :: ts). split; [by constructor |].
    intros rest st. simpl. rewrite <- app_assoc, Hread, Hreads, <- app_assoc.
    reflexivity.
Qed.

(** A row that is read back as a tuple: one cell per column, none NULL. *)
Definition full_row (column_count : nat) (row : list cell) : Prop :=
  length row = column_count /\ Forall (fun c => c <> SQL_NULL) row.

Lemma read_row_words column_count row ws :
  (Z.of_nat column_count < 2 ^ 64)%Z ->
  row_words column_count row ws -> full_row column_count row ->
  exists ts, Forall2 cell_term row ts /\
    forall rest st, read_terms (ws ++ rest) st = read_terms rest (TTuple ts :: st).
Proof.
  intros Hcc (wss & Hcells & ->) (Hlen & Hnn).
  assert (Hrow : column row <$> seq 0 column_count = row).
  { rewrite <- Hlen. apply nth_seq_all. }
  rewrite Hrow in Hcells.
  destruct (read_cells_words _ _ Hcells Hnn) as (ts & Hts & Hread).
  exists ts. split; [exact Hts |]. intros rest st.
  rewrite <- app_assoc, Hread. simpl.
  rewrite reduce_tuple_pushed; [reflexivity |].
  rewrite unsigned_small by lia. rewrite Nat2Z.id.
  rewrite <- (Forall2_length _ _ _ Hts). symmetry. exact Hlen.
Qed.

Lemma read_rows_words column_count rows rws :
  (Z.of_nat column_count < 2 ^ 64)%Z ->
  Forall2 (row_words column_count) rows rws ->
  Forall (full_row column_count) rows ->
  exists tss, Forall2 (Forall2 cell_term) rows tss /\
    forall rest st,
      read_terms (concat rws ++ rest) st = read_terms rest (rev (TTuple <$> tss) ++ st).
Proof.
  intros Hcc. induction 1 as [| r ws rows rws Hr _ IH]; intros Hfull.
  - exists []. split; [constructor | reflexivity].
  - apply Forall_cons in Hfull as [Hr0 Hfull].
    destruct (read_row_words _ _ _ Hcc Hr Hr0) as (ts & Hts & Hread).
    destruct (IH Hfull) as (tss & Htss & Hreads).
    exists (ts :: tss). split; [by constructor |].
    intros rest st. simpl. rewrite <- app_assoc, Hread, Hreads, <- app_assoc.
    reflexivity.
Qed.

Lemma read_nil rest st :
  read_terms (Tag ERL_DRV_NIL :: rest) st = read_terms rest (TNil :: st).
Proof. reflexivity. Qed.

Lemma read_atom a rest st :
  read_terms (Tag ERL_DRV_ATOM :: Atom a :: rest) st = read_terms rest (TAtom a :: st).
Proof. reflexivity. Qed.

Lemma read_port p rest st :
  read_terms (Tag ERL_DRV_PORT :: PortId p :: rest) st = read_terms rest (TPort p :: st).
Proof. reflexivity. Qed.

Lemma read_int z rest st :
  read_terms (Tag ERL_DRV_INT :: word_of z :: rest) st
  = read_terms rest (TInt (CInt.signed 64 z) :: st).
Proof.
  unfold word_of. cbn [read_terms]. rewrite CInt.signed_unsigned by lia. reflexivity.
Qed.

Lemma read_tuple n rest st :
  read_terms (Tag ERL_DRV_TUPLE :: Num n :: rest) st
  = reduce_tuple n st ≫= read_terms rest.
Proof. reflexivity. Qed.

Lemma read_list n rest st :
  read_terms (Tag ERL_DRV_LIST :: Num n :: rest) st
  = reduce_list n st ≫= read_terms rest.
Proof. reflexivity. Qed.

Lemma read_string s n rest st :
  read_terms (Tag ERL_DRV_STRING :: PtrChars s :: Num n :: rest) st
  = read_terms rest (TString (substring_chars (Z.to_nat n) s) :: st).
Proof. reflexivity. Qed.

Lemma substring_chars_all s : substring_chars (String.length s) s = s.
Proof. induction s as [| c s IH]; simpl; [reflexivity | by rewrite IH]. Qed.

Lemma reduce_pair a b st : reduce_tuple 2 (b :: a :: st) = Some (TTuple [a; b] :: st).
Proof. reflexivity. Qed.

Lemma reduce_list_two a b st :
  reduce_list 3 (TNil :: b :: a :: st) = Some (tlist [a; b] :: st).
Proof. reflexivity. Qed.

(** The error reply reads as [{error, Msg}]. *)
Lemma decode_error_words msg :
  (Z.of_nat (String.length msg) < 2 ^ 64)%Z ->
  decode (error_words msg) = Some (TTuple [TAtom "error"; TString msg]).
Proof.
  intros Hlen. unfold decode, error_words, word_of.
  rewrite read_atom, read_string, read_tuple.
  rewrite unsigned_small. 2:{ lia. } rewrite Nat2Z.id, substring_chars_all.
  reflexivity.
Qed.

(** The reply with columns reads as [{Port, [{columns, Names}, {rows, Rows}]}]. *)
Definition rows_reply (port : ErlDrvPort) (names : list string) (tss : list (list term)) : term :=
  TTuple [TPort port;
          tlist [TTuple [TAtom "columns"; tlist (TAtom <$> names)];
                 TTuple [TAtom "rows"; tlist (TTuple <$> tss)]]].

Lemma decode_rows_reply port s rws :
  0 < length (stmt_columns s) ->
  (Z.of_nat (length (stmt_columns s)) < 2 ^ 31)%Z ->
  (Z.of_nat (length (stmt_rows s)) < 2 ^ 31)%Z ->
  Forall2 (row_words (length (stmt_columns s))) (stmt_rows s) rws ->
  Forall (full_row (length (stmt_columns s))) (stmt_rows s) ->
  exists tss,
    Forall2 (Forall2 cell_term) (stmt_rows s) tss /\
    decode (done_words port s rws) = Some (rows_reply port (stmt_columns s) tss).
Proof.
  intros Hcc Hccb Hrb Hrws Hfull.
  assert (Hcc64 : (Z.of_nat (length (stmt_columns s)) < 2 ^ 64)%Z) by lia.
  destruct (read_rows_words _ _ _ Hcc64 Hrws Hfull) as (tss & Htss & Hread).
  exists tss. split; [exact Htss |].
  unfold decode, done_words, ending_words, header_words, rows_end, word_of.
  rewrite !decide_True by exact Hcc.
  cbn [app]. rewrite read_port, read_atom.
  rewrite <- !app_assoc, read_atom_words. cbn [app].
  rewrite read_nil, read_list.
  rewrite (reduce_list_pushed (TAtom <$> stmt_columns s)).
  2:{ rewrite unsigned_small by lia. by rewrite length_fmap. }
  cbn [mbind option_bind]. rewrite read_tuple, reduce_pair.
  cbn [mbind option_bind]. rewrite read_atom, Hread.
  rewrite read_nil, read_list.
  rewrite (reduce_list_pushed (TTuple <$> tss)).
  2:{ rewrite unsigned_small by lia.
      by rewrite length_fmap, (Forall2_length _ _ _ Htss). }
  cbn [mbind option_bind]. rewrite read_tuple, reduce_pair.
  cbn [mbind option_bind]. rewrite read_nil, read_list, reduce_list_two.
  cbn [mbind option_bind]. rewrite read_tuple, reduce_pair.
  reflexivity.
Qed.

(** The replies without columns read as [{Port, {id, Rowid}}] and
    [{Port, {ok, Code}}]. *)
Lemma decode_no_columns port s :
  stmt_columns s = [] ->
  decode (done_words port s []) =
  Some (TTuple [TPort port;
                if mentions_insert (Some s)
                then TTuple [TAtom "id"; TInt (CInt.signed 64 (last_insert_rowid (stmt_db_after s)))]
                else TTuple [TAtom "ok"; TInt (CInt.signed 64 (stmt_final s))]]).
Proof.
  intros Hcols. unfold decode, done_words, ending_words. rewrite Hcols.
  rewrite !decide_False by (simpl; lia). cbn [app concat].
  destruct (mentions_insert (Some s)); cbn [app];
    rewrite read_port, read_atom, read_int, read_tuple, reduce_pair;
    cbn [mbind option_bind]; rewrite read_tuple, reduce_pair; reflexivity.
Qed.

(** ** Handoff and teardown *)

Lemma for_each_frame {A S} (body : A -> S -> M S) (xs : list A) :
  (forall x s w, wp (body x s) w (fun _ w' => frame w w')) ->
  forall s w, wp (for_each xs body s) w (fun _ w' => frame w w').
Proof.
  intros Hbody. induction xs as [| x xs IH]; intros s w; simpl.
  - apply wp_ret, frame_refl.
  - wp_step Hbody. intros s' w1 Hf1.
    eapply wp_mono; [apply IH |]. intros s2 w2 Hf2. eauto using frame_trans.
Qed.

(** Teardown touches memory and the driver's handle only. *)
Lemma sql_free_async_io t w :
  wp (sql_free_async t) w (fun _ w' =>
    port_out w' = port_out w /\ stderr w' = stderr w /\ db w' = db w /\
    drv_port w' = drv_port w).
Proof.
  unfold sql_free_async.
  wp_step free_frame. intros ? w1 Hf1.
  apply wp_bind, wp_modify.
  apply wp_bind. eapply (wp_mono _ _ (fun _ w' => frame (set_async_handle 0 w1) w')).
  { destruct (floats t); [apply free_frame | apply wp_ret, frame_refl]. }
  intros ? w2 Hf2.
  wp_step (for_each_frame (fun i (_ : unit) => free (Some (nth i (elems (binaries t)) 0)))).
  { intros i u w0. apply free_frame. }
  intros ? w3 Hf3.
  apply wp_bind. eapply (wp_mono _ _ (fun _ w' => frame w3 w')).
  { destruct (base (binaries t)); [apply free_frame | apply wp_ret, frame_refl]. }
  intros ? w4 Hf4.
  apply wp_bind. eapply (wp_mono _ _ (fun _ w' => frame w4 w')).
  { destruct (statement t) as [[h s] |]; [apply free_frame | apply wp_ret, frame_refl]. }
  intros ? w5 Hf5.
  eapply wp_mono; [apply free_frame |]. intros ? w6 Hf6.
  destruct Hf1 as (? & ? & ? & ? & ?), Hf2 as (? & ? & ? & ? & ?),
           Hf3 as (? & ? & ? & ? & ?), Hf4 as (? & ? & ? & ? & ?),
           Hf5 as (? & ? & ? & ? & ?), Hf6 as (? & ? & ? & ? & ?).
  worlds. repeat split; congruence.
Qed.

(** Handoff sends the command's array, once, to the driver's port. *)
Lemma ready_async_io t w :
  term_count t = length (elems (dataset t)) ->
  wp (ready_async t) w (fun _ w' =>
    port_out w' = port_out w ++
      [Delivery (drv_port w) (elems (dataset t))
         (pointed_doubles (heap w) (elems (dataset t)))] /\
    db w' = db w /\ drv_port w' = drv_port w).
Proof.
  intros Htc. unfold ready_async.
  apply wp_bind, wp_gets. apply wp_bind.
  unfold wp at 1, driver_output_term. cbn [fst snd].
  rewrite Htc, firstn_all.
  apply wp_bind, wp_modify.
  eapply wp_mono; [apply sql_free_async_io |].
  intros ? w' (Hp & _ & Hd & Hdp). worlds.
  rewrite Hp, Hd, Hdp. repeat split.
Qed.

(** A command whose text compiles is answered with one delivery: the array
    [sql_exec_async] left in the command. *)
Lemma sql_exec_compiled command s d' w :
  prepare (db w) command = (SQLITE_OK, Some s, d') ->
  wp (sql_exec relocates prepare command) w (fun _ w' =>
    exists dl,
      port_out w' = port_out w ++ [dl] /\ to_port dl = drv_port w /\
      encoded (drv_port w) s (sent dl) /\ db w' = stmt_db_after s).
Proof.
  intros Hprep. unfold sql_exec, sqlite3_prepare_v2.
  apply wp_bind, wp_bind, wp_gets. rewrite Hprep.
  apply wp_bind, wp_modify.
  rewrite decide_True by reflexivity.
  apply wp_bind, wp_ret.
  rewrite decide_False by (intros H; apply H; reflexivity).
  apply wp_bind.
  match goal with |- wp _ ?x _ => set (w1 := x) end.
  unfold wp at 1. cbn [fst snd].
  apply wp_bind.
  eapply wp_mono; [exact (sql_exec_async_words _ _ s _) |].
  intros t w2 (Hpo & Hdp & Hdb & Henc & Htc & _).
  wp_step (ready_async_io t w2 Htc). intros ? w3 (Hpo3 & Hdb3 & Hdp3).
  apply wp_ret. eexists. split; [rewrite Hpo3, Hpo; reflexivity |].
  cbn [to_port sent]. rewrite Hdp. unfold w1 in *. worlds.
  repeat split; [exact Henc | congruence].
Qed.

(** A command whose text does not compile is answered at once with the
    error array; the only effect besides is on memory, where the array
    stays. *)
Lemma sql_exec_rejected command result o d' w :
  prepare (db w) command = (result, o, d') ->
  result <> SQLITE_OK ->
  sql_exec relocates prepare command w =
  (0%Z,
   World (<[brk w := Words]> (heap w)) (S (brk w)) (bad_frees w) (stderr w)
         (port_out w ++ [Delivery (drv_port w) (error_words (errmsg d')) []])
         d' (drv_port w) (drv_async_handle w)).
Proof.
  intros Hprep Hne.
  unfold sql_exec, sqlite3_prepare_v2, bind, gets, modify, ret.
  rewrite Hprep. rewrite decide_False by exact Hne.
  rewrite decide_True by exact Hne.
  reflexivity.
Qed.

End DriverFacts.

(** ** [strcasestr] finds exactly the texts that contain the needle *)

Lemma starts_with_ci_spec needle : forall hay,
  starts_with_ci needle hay = true <->
  exists mid post, hay = String.append mid post /\ lowercase mid = lowercase needle.
Proof.
  induction needle as [| a needle IH]; intros hay; simpl.
  - split; [intros _; exists EmptyString, hay; split; reflexivity | reflexivity].
  - destruct hay as [| b hay].
    + split; [discriminate |]. intros (mid & post & Hhay & Hlow).
      destruct mid; simpl in *; discriminate.
    + rewrite andb_true_iff, Ascii.eqb_eq, IH. split.
      * intros (Hab & mid & post & -> & Hlow).
        exists (String b mid), post. split; [reflexivity |].
        simpl. rewrite Hlow, Hab. reflexivity.
      * intros (mid & post & Hhay & Hlow).
        destruct mid as [| c mid]; simpl in *; [discriminate |].
        injection Hhay as -> ->. injection Hlow as Hc Hlow.
        split; [symmetry; exact Hc |]. exists mid, post. split; [reflexivity | exact Hlow].
Qed.

Lemma strcasestr_spec needle : forall hay,
  is_Some (strcasestr hay needle) <-> contains_ci hay needle.
Proof.
  induction hay as [| c hay IH].
  - simpl. destruct (starts_with_ci needle EmptyString) eqn:E.
    + split; [| eauto]. intros _.
      apply starts_with_ci_spec in E as (mid & post & Hhay & Hlow).
      exists EmptyString, mid, post. split; [exact Hhay | exact Hlow].
    + split; [intros [x Hx]; discriminate |].
      intros (pre & mid & post & Hhay & Hlow).
      destruct pre; simpl in Hhay; [| discriminate].
      assert (starts_with_ci needle EmptyString = true) as E'
        by (apply starts_with_ci_spec; exists mid, post; split; assumption).
      congruence.
  - cbn [strcasestr]. destruct (starts_with_ci needle (String c hay)) eqn:E.
    + split; [| eauto]. intros _.
      apply starts_with_ci_spec in E as (mid & post & Hhay & Hlow).
      exists EmptyString, mid, post. split; [exact Hhay | exact Hlow].
    + rewrite IH. split.
      * intros (pre & mid & post & -> & Hlow).
        exists (String c pre), mid, post. split; [reflexivity | exact Hlow].
      * intros (pre & mid & post & Hhay & Hlow).
        destruct pre as [| c' pre]; simpl in Hhay.
        -- assert (starts_with_ci needle (String c hay) = true) as E'
             by (apply starts_with_ci_spec; exists mid, post; split; assumption).
           congruence.
        -- injection Hhay as -> ->. exists pre, mid, post. split; [reflexivity | exact Hlow].
Qed.

Lemma mentions_insert_spec s :
  mentions_insert (Some s) = true <-> contains_ci (stmt_sql s) "INSERT".
Proof.
  unfold mentions_insert. simpl. rewrite bool_decide_eq_true. apply strcasestr_spec.
Qed.

(** * Memory: what is live after a command *)

#[local] Set Warnings "-clear-no-such-hyp".

Definition live (w : world) : gset block := dom (heap w).

(** Every live block was handed out by the allocator. *)
Definition heap_ok (w : world) : Prop := forall b, b ∈ live w -> b < brk w.

(** The blocks a pointer reaches: none for NULL. *)
Definition at_most (p : option block) : gset block :=
  match p with
  | Some b => {[ b ]}
  | None => ∅
  end.

Lemma alloc_live o w :
  heap_ok w ->
  wp (alloc o) w (fun b w' =>
    (b ∉ live w) /\ live w' = {[ b ]} ∪ live w /\ heap_ok w' /\
    bad_frees w' = bad_frees w).
Proof.
  intros Hok. unfold wp, alloc, live, heap_ok in *. cbn.
  split; [intros Hin; apply Hok in Hin; lia |].
  split; [apply dom_insert_L |]. split; [| reflexivity].
  intros b. rewrite dom_insert_L, elem_of_union, elem_of_singleton.
  intros [-> | Hin]; [lia |]. apply Hok in Hin. lia.
Qed.

Lemma free_live b w :
  heap_ok w -> b ∈ live w ->
  wp (free (Some b)) w (fun _ w' =>
    live w' = live w ∖ {[ b ]} /\ heap_ok w' /\ bad_frees w' = bad_frees w).
Proof.
  intros Hok Hin. unfold wp, free, live, heap_ok in *.
  apply elem_of_dom in Hin as [o Ho]. rewrite Ho. cbn.
  split; [apply dom_delete_L |]. split; [| reflexivity].
  intros x. rewrite dom_delete_L. intros Hx. apply Hok.
  apply elem_of_difference in Hx as [Hx _]. exact Hx.
Qed.

Lemma set_heap_same_dom f w :
  dom (f (heap w)) = dom (heap w) -> heap_ok w ->
  live (set_heap f w) = live w /\ heap_ok (set_heap f w) /\
  bad_frees (set_heap f w) = bad_frees w.
Proof.
  intros Hdom Hok. unfold live, heap_ok in *. cbn. rewrite Hdom.
  repeat split. exact Hok.
Qed.

Lemma store_double_live b i d w :
  heap_ok w ->
  wp (store_double b i d) w (fun _ w' =>
    live w' = live w /\ heap_ok w' /\ bad_frees w' = bad_frees w).
Proof.
  intros Hok. apply set_heap_same_dom; [| exact Hok].
  destruct (heap w !! b) as [[] |] eqn:E; try reflexivity.
  rewrite dom_insert_L. apply elem_of_dom_2 in E. set_solver.
Qed.

Lemma fill_binary_live b src w :
  heap_ok w ->
  wp (fill_binary b src) w (fun _ w' =>
    live w' = live w /\ heap_ok w' /\ bad_frees w' = bad_frees w).
Proof.
  intros Hok. apply set_heap_same_dom; [| exact Hok].
  destruct (heap w !! b) as [[] |] eqn:E; try reflexivity.
  rewrite dom_insert_L. apply elem_of_dom_2 in E. set_solver.
Qed.

Section Memory.

Variable relocates : block -> nat -> bool.

(** [realloc] trades the old block, when there is one, for a block that is
    either the same or was not live. *)
Lemma realloc_live p n o w :
  heap_ok w -> at_most p ⊆ live w ->
  wp (realloc relocates p n o) w (fun b w' =>
    (b ∉ live w ∖ at_most p) /\ live w' = {[ b ]} ∪ (live w ∖ at_most p) /\
    heap_ok w' /\ bad_frees w' = bad_frees w).
Proof.
  intros Hok Hp. destruct p as [b |]; simpl in *.
  - assert (Hin : b ∈ live w) by set_solver.
    unfold realloc. unfold wp.
    pose proof Hin as Hin'. unfold live in Hin'. apply elem_of_dom in Hin' as [old Hold].
    rewrite Hold.
    destruct (relocates b n).
    + apply wp_bind.
      eapply wp_mono; [apply (free_live b w Hok Hin) |].
      intros ? w1 (Hl1 & Hok1 & Hb1).
      eapply wp_mono; [apply (alloc_live _ w1 Hok1) |].
      intros b' w2 (Hfresh & Hl2 & Hok2 & Hb2).
      rewrite Hl2, Hl1 in *. repeat split; [exact Hfresh | exact Hok2 | congruence].
    + unfold live, heap_ok in *. cbn. rewrite dom_insert_L.
      split; [set_solver |]. split; [| split; [| reflexivity]].
      * apply set_eq. intros x. destruct (decide (x = b)); set_solver.
      * intros x Hx. apply Hok. set_solver.
  - eapply wp_mono; [apply (alloc_live _ w Hok) |].
    intros b w' (Hfresh & Hl & Hok' & Hb).
    replace (live w ∖ ∅) with (live w) by set_solver.
    repeat split; assumption.
Qed.

(** ** What the locals of [sql_exec_async] own *)

Record owns (B : gset block) (l : locals) (w : world) : Prop := Owns {
  owns_ok : heap_ok w;
  owns_live :
    live w = B ∪ at_most (base (l_dataset l)) ∪ at_most (l_floats l) ∪
             at_most (base (l_binaries l)) ∪ list_to_set (elems (l_binaries l));
  owns_rest :
    B ## at_most (base (l_dataset l)) ∪ at_most (l_floats l) ∪
         at_most (base (l_binaries l)) ∪ list_to_set (elems (l_binaries l));
  owns_dataset :
    at_most (base (l_dataset l)) ## at_most (l_floats l) ∪
         at_most (base (l_binaries l)) ∪ list_to_set (elems (l_binaries l));
  owns_floats :
    at_most (l_floats l) ## at_most (base (l_binaries l)) ∪
         list_to_set (elems (l_binaries l));
  owns_binaries :
    at_most (base (l_binaries l)) ## list_to_set (elems (l_binaries l));
  owns_each : NoDup (elems (l_binaries l));
  owns_count : l_binaries_count l = length (elems (l_binaries l))
}.

(** The set bookkeeping of a binary cell: the array of pointers is traded
    for [a], and the fresh binary [bin] joins the binaries. *)
Lemma binary_cell_sets (B D F A E L L1 L2 L3 : gset block) (a bin : block) :
  L = B ∪ D ∪ F ∪ A ∪ E ->
  B ## D ∪ F ∪ A ∪ E -> D ## F ∪ A ∪ E -> F ## A ∪ E -> A ## E ->
  a ∉ L ∖ A -> L1 = {[ a ]} ∪ (L ∖ A) ->
  bin ∉ L1 -> L2 = {[ bin ]} ∪ L1 -> L3 = L2 ->
  L3 = B ∪ D ∪ F ∪ {[ a ]} ∪ (E ∪ {[ bin ]}) /\
  B ## D ∪ F ∪ {[ a ]} ∪ (E ∪ {[ bin ]}) /\
  D ## F ∪ {[ a ]} ∪ (E ∪ {[ bin ]}) /\
  F ## {[ a ]} ∪ (E ∪ {[ bin ]}) /\
  {[ a ]} ## E ∪ {[ bin ]} /\
  bin ∉ E.
Proof.
  intros Hlive Hrest Hd Hf Hb Hfresh1 Hlive1 Hfresh2 Hlive2 Hlive3.
  split; [rewrite Hlive3, Hlive2, Hlive1, Hlive; set_solver |].
  repeat split; set_solver.
Qed.

Lemma float_cell_sets (B D F A E L L1 : gset block) (f : block) :
  L = B ∪ D ∪ F ∪ A ∪ E ->
  B ## D ∪ F ∪ A ∪ E -> D ## F ∪ A ∪ E -> F ## A ∪ E ->
  f ∉ L ∖ F -> L1 = {[ f ]} ∪ (L ∖ F) ->
  L1 = B ∪ D ∪ {[ f ]} ∪ A ∪ E /\
  B ## D ∪ {[ f ]} ∪ A ∪ E /\
  D ## {[ f ]} ∪ A ∪ E /\
  {[ f ]} ## A ∪ E.
Proof.
  intros Hlive Hrest Hd Hf Hfresh Hlive1.
  split; [rewrite Hlive1, Hlive; set_solver |].
  repeat split; set_solver.
Qed.

Lemma dataset_sets (B D F A E L L1 : gset block) (d : block) :
  L = B ∪ D ∪ F ∪ A ∪ E ->
  B ## D ∪ F ∪ A ∪ E -> D ## F ∪ A ∪ E ->
  d ∉ L ∖ D -> L1 = {[ d ]} ∪ (L ∖ D) ->
  L1 = B ∪ {[ d ]} ∪ F ∪ A ∪ E /\
  B ## {[ d ]} ∪ F ∪ A ∪ E /\
  {[ d ]} ## F ∪ A ∪ E.
Proof.
  intros Hlive Hrest Hd Hfresh Hlive1.
  split; [rewrite Hlive1, Hlive; set_solver |].
  repeat split; set_solver.
Qed.

(** The same, once the term array exists. *)
Definition holds (B : gset block) (l : locals) (w : world) : Prop :=
  owns B l w /\ is_Some (base (l_dataset l)).

Lemma grow_dataset_holds B n l w :
  owns B l w ->
  wp (grow_dataset relocates n l) w (fun l' w' =>
    holds B l' w' /\ bad_frees w' = bad_frees w).
Proof.
  intros [Hok Hlive Hrest Hd Hf Hb Hnd Hc]. unfold grow_dataset.
  apply wp_bind. eapply wp_mono.
  { apply (realloc_live (base (l_dataset l)) _ Words w Hok).
    rewrite Hlive. clear. set_solver. }
  intros b w' (Hfresh & Hlive' & Hok' & Hbad). apply wp_ret.
  destruct (dataset_sets _ _ _ _ _ _ _ b Hlive Hrest Hd Hfresh Hlive') as (G1 & G2 & G3).
  split; [| exact Hbad]. split; [| by eexists].
  split; cbn [l_dataset l_floats l_binaries l_binaries_count set_term_count
              set_dataset base elems at_most]; assumption.
Qed.

Lemma holds_put B i x l w : holds B l w -> holds B (put i x l) w.
Proof. intros [[Hok Hlive Hrest Hd Hf Hb Hnd Hc] Ha]. split; [split |]; assumption. Qed.

Lemma holds_set_row_count B n l w : holds B l w -> holds B (set_row_count n l) w.
Proof. intros [[Hok Hlive Hrest Hd Hf Hb Hnd Hc] Ha]. split; [split |]; assumption. Qed.

(** [grow_dataset] and then stores: the pattern of every append. *)
Lemma append_holds B n (k : locals -> locals) l w :
  (forall l0 w0, holds B l0 w0 -> holds B (k l0) w0) ->
  owns B l w ->
  wp (let* l1 := grow_dataset relocates n l in ret (k l1)) w (fun l' w' =>
    holds B l' w' /\ bad_frees w' = bad_frees w).
Proof.
  intros Hk Hl. wp_step (grow_dataset_holds B n l w Hl).
  intros l1 w1 (Hl1 & Hbad). apply wp_ret. split; [apply Hk, Hl1 | exact Hbad].
Qed.

Lemma snoc_slot (xs : list block) n x :
  n = length xs -> <[S n - 1 := x]> (resize (S n) 0 xs) = xs ++ [x].
Proof.
  intros ->. replace (S (length xs)) with (length xs + 1) by lia.
  rewrite resize_add_eq by reflexivity.
  rewrite insert_app_r_alt by lia.
  replace (length xs + 1 - 1 - length xs) with 0 by lia. reflexivity.
Qed.

Lemma nth_snoc (xs : list block) n x :
  n = length xs -> nth (S n - 1) (xs ++ [x]) 0 = x.
Proof.
  intros ->. replace (S (length xs) - 1) with (length xs) by lia.
  rewrite app_nth2 by lia. by rewrite Nat.sub_diag.
Qed.

Lemma encode_cell_holds B c l w :
  holds B l w ->
  wp (encode_cell relocates c l) w (fun l' w' =>
    holds B l' w' /\ bad_frees w' = bad_frees w).
Proof.
  intros Hl. destruct c as [v | d | bs | bs |]; cbn [encode_cell].
  1: { apply append_holds; [| exact (proj1 Hl)]. intros l0 w0 H0. by do 2 apply holds_put. }
  1: { destruct Hl as [[Hok Hlive Hrest Hd Hf Hb Hnd Hc] Ha].
    apply wp_bind. eapply wp_mono.
    { apply (realloc_live (l_floats l) _ (Doubles []) w Hok).
      rewrite Hlive. clear. set_solver. }
    intros f w1 (Hfresh & Hlive1 & Hok1 & Hbad1).
    wp_step (store_double_live f (S (l_float_count l) - 1)
               (sqlite3_column_double (SQL_FLOAT d)) w1 Hok1).
    intros ? w2 (Hlive2 & Hok2 & Hbad2).
    destruct (float_cell_sets _ _ _ _ _ _ _ f Hlive Hrest Hd Hf Hfresh Hlive1)
      as (G1 & G2 & G3 & G4).
    eapply wp_mono.
    { apply (append_holds B 2
               (fun l0 => put (l_term_count l0 - 1) (PtrDouble f (S (l_float_count l) - 1))
                         (put (l_term_count l0 - 2) (Tag ERL_DRV_FLOAT) l0))).
      - intros l0 w0 H0. by do 2 apply holds_put.
      - split; cbn [l_dataset l_floats l_binaries l_binaries_count set_floats
                    base elems at_most]; try assumption.
        rewrite Hlive2. exact G1. }
    intros l' w' (Hl' & Hbad'). split; [exact Hl' | congruence]. }
  1, 2:
    destruct Hl as [[Hok Hlive Hrest Hd Hf Hb Hnd Hc] Ha]; cbv zeta;
    apply wp_bind; (eapply wp_mono;
      [ apply (realloc_live (base (l_binaries l)) _ Pointers w Hok);
        rewrite Hlive; clear; set_solver |]);
    intros a w1 (Hfresh1 & Hlive1 & Hok1 & Hbad1);
    apply wp_bind; (eapply wp_mono; [ apply (alloc_live _ w1 Hok1) |]);
    intros bin w2 (Hfresh2 & Hlive2 & Hok2 & Hbad2);
    rewrite !(snoc_slot _ _ _ Hc), !(nth_snoc _ _ _ Hc);
    apply wp_bind; (eapply wp_mono; [ apply (fill_binary_live bin _ w2 Hok2) |]);
    intros ? w3 (Hlive3 & Hok3 & Hbad3);
    destruct (binary_cell_sets _ _ _ _ _ _ _ _ _ a bin Hlive Hrest Hd Hf Hb
                Hfresh1 Hlive1 Hfresh2 Hlive2 Hlive3) as (G1 & G2 & G3 & G4 & G5 & G6);
    (eapply wp_mono;
      [ apply (append_holds B 4
                 (fun l0 => put (l_term_count l0 - 1) (Num 0)
                           (put (l_term_count l0 - 2) (word_of (Z.of_nat (length bs)))
                           (put (l_term_count l0 - 3) (PtrBinary bin)
                           (put (l_term_count l0 - 4) (Tag ERL_DRV_BINARY) l0)))));
        [ intros l0 w0 H0; by do 4 apply holds_put
        | split; cbn [l_dataset l_floats l_binaries l_binaries_count set_binaries
                      base elems at_most]; rewrite ?list_to_set_app_L, ?length_app;
          cbn [list_to_set length]; rewrite ?(right_id_L ∅ (∪));
          try assumption;
          [ apply NoDup_app; split; [assumption |]; split;
            [ intros x Hx Hx'; apply list_elem_of_singleton in Hx'; subst x;
              apply G6, elem_of_list_to_set, Hx
            | apply NoDup_singleton ]
          | lia ] ]
      | intros l' w' (Hl' & Hbad'); split; [exact Hl' | congruence] ]).
  apply wp_ret. split; [exact Hl | reflexivity].
Qed.

Lemma for_each_holds {A} B (body : A -> locals -> M locals) (xs : list A) :
  (forall x l w, holds B l w ->
     wp (body x l) w (fun l' w' => holds B l' w' /\ bad_frees w' = bad_frees w)) ->
  forall l w, holds B l w ->
    wp (for_each xs body l) w (fun l' w' => holds B l' w' /\ bad_frees w' = bad_frees w).
Proof.
  intros Hbody. induction xs as [| x xs IH]; intros l w Hl; simpl.
  - apply wp_ret. split; [exact Hl | reflexivity].
  - wp_step (Hbody x l w Hl). intros l1 w1 (Hl1 & Hbad1).
    eapply wp_mono; [apply (IH l1 w1 Hl1) |].
    intros l2 w2 (Hl2 & Hbad2). split; [exact Hl2 | congruence].
Qed.

Lemma encode_row_holds B column_count row l w :
  holds B l w ->
  wp (encode_row relocates column_count row l) w (fun l' w' =>
    holds B l' w' /\ bad_frees w' = bad_frees w).
Proof.
  intros Hl. unfold encode_row.
  wp_step (for_each_holds B (fun i => encode_cell relocates (column row i))
             (seq 0 column_count) (fun i l0 w0 => encode_cell_holds B _ l0 w0) l w Hl).
  intros l1 w1 (Hl1 & Hbad1).
  wp_step (grow_dataset_holds B 2 l1 w1 (proj1 Hl1)). intros l2 w2 (Hl2 & Hbad2).
  apply wp_ret. split; [| congruence].
  apply holds_set_row_count. by do 2 apply holds_put.
Qed.

Lemma holds_put_names B base name (cols : list nat) w : forall l,
  holds B l w ->
  holds B (foldl (fun l i => put (base + 2 + i * 2 + 1) (Atom (name i))
                            (put (base + 2 + i * 2) (Tag ERL_DRV_ATOM) l)) l cols) w.
Proof.
  induction cols as [| i cols IH]; intros l Hl; simpl; [exact Hl |].
  apply IH. by do 2 apply holds_put.
Qed.

Lemma columns_header_holds B s column_count l w :
  holds B l w ->
  wp (columns_header relocates s column_count l) w (fun l' w' =>
    holds B l' w' /\ bad_frees w' = bad_frees w).
Proof.
  intros Hl. unfold columns_header.
  wp_step (grow_dataset_holds B (2 + column_count * 2 + 1 + 2 + 2 + 2) l w (proj1 Hl)).
  intros l1 w1 (Hl1 & Hbad1).
  apply wp_ret. split; [| exact Hbad1].
  do 7 apply holds_put. apply holds_put_names. by do 2 apply holds_put.
Qed.

Lemma close_rows_holds B l w :
  holds B l w ->
  wp (close_rows relocates l) w (fun l' w' =>
    holds B l' w' /\ bad_frees w' = bad_frees w).
Proof.
  intros Hl. unfold close_rows.
  wp_step (grow_dataset_holds B 3 l w (proj1 Hl)). intros l1 w1 (Hl1 & Hbad1).
  match goal with |- wp (bind (grow_dataset _ _ ?x) _) _ _ =>
    assert (Hx1 : holds B x w1) by (do 3 apply holds_put; exact Hl1) end.
  wp_step (grow_dataset_holds B 2 _ w1 (proj1 Hx1)). intros l2 w2 (Hl2 & Hbad2).
  match goal with |- wp (bind (grow_dataset _ _ ?x) _) _ _ =>
    assert (Hx2 : holds B x w2) by (do 2 apply holds_put; exact Hl2) end.
  wp_step (grow_dataset_holds B 3 _ w2 (proj1 Hx2)). intros l3 w3 (Hl3 & Hbad3).
  apply wp_ret. split; [by do 3 apply holds_put | congruence].
Qed.

Lemma insert_id_holds B l w :
  holds B l w ->
  wp (insert_id relocates l) w (fun l' w' =>
    holds B l' w' /\ bad_frees w' = bad_frees w).
Proof.
  intros Hl. unfold insert_id. apply wp_bind, wp_gets.
  wp_step (grow_dataset_holds B 6 l w (proj1 Hl)). intros l1 w1 (Hl1 & Hbad1).
  apply wp_ret. split; [by do 6 apply holds_put | exact Hbad1].
Qed.

Lemma plain_status_holds B next_row l w :
  holds B l w ->
  wp (plain_status relocates next_row l) w (fun l' w' =>
    holds B l' w' /\ bad_frees w' = bad_frees w).
Proof.
  intros Hl. unfold plain_status.
  wp_step (grow_dataset_holds B 6 l w (proj1 Hl)). intros l1 w1 (Hl1 & Hbad1).
  apply wp_ret. split; [by do 6 apply holds_put | exact Hbad1].
Qed.
(** ** The command record after [sql_exec_async] *)

(** The pointers of the command record, seen as locals. *)
Definition locals_of (t : async_sqlite3_command) : locals :=
  Locals (dataset t) (term_count t) (row_count t) (floats t) 0
         (binaries t) (binaries_count t).

Definition last_code (s : option sqlite3_stmt) : Z :=
  from_option stmt_final SQLITE_MISUSE s.

Lemma last_step_code s w : (last_step s w).1 = last_code s.
Proof. destruct s; reflexivity. Qed.

Lemma holds_same_heap B l w w' :
  heap w' = heap w -> brk w' = brk w -> holds B l w -> holds B l w'.
Proof.
  intros Hh Hb [[Hok Hlive Hrest Hd Hf Hbin Hnd Hc] Ha].
  split; [split |]; try assumption.
  - unfold heap_ok, live in *. rewrite Hh, Hb. exact Hok.
  - unfold live in *. rewrite Hh. exact Hlive.
Qed.

Lemma last_step_heap B l s w : holds B l w -> holds B l (last_step s w).2.
Proof. destruct s; apply holds_same_heap; reflexivity. Qed.

Lemma last_step_bad s w : bad_frees (last_step s w).2 = bad_frees w.
Proof. destruct s; reflexivity. Qed.

Lemma return_error_live error w :
  heap_ok w ->
  wp (return_error error) w (fun r w' =>
    exists e, base r.1 = Some e /\ (e ∉ live w) /\ live w' = {[ e ]} ∪ live w /\
              heap_ok w' /\ bad_frees w' = bad_frees w).
Proof.
  intros Hok. unfold return_error, calloc_words.
  apply wp_bind, wp_bind. eapply wp_mono; [apply (alloc_live Words w Hok) |].
  intros e w' (Hfresh & Hlive & Hok' & Hbad).
  apply wp_ret, wp_ret. exists e. repeat split; assumption.
Qed.

(** The float pool and the array of binaries are the same in both. *)
Definition same_pools (l l' : locals) : Prop :=
  l_floats l' = l_floats l /\ l_binaries l' = l_binaries l /\
  l_binaries_count l' = l_binaries_count l.

Lemma same_pools_trans l1 l2 l3 : same_pools l1 l2 -> same_pools l2 l3 -> same_pools l1 l3.
Proof. unfold same_pools. intuition congruence. Qed.

Lemma same_pools_put i x l l' : same_pools l l' -> same_pools l (put i x l').
Proof. exact id. Qed.

Lemma wp_and {A} (m : M A) w (Q1 Q2 : A -> world -> Prop) :
  wp m w Q1 -> wp m w Q2 -> wp m w (fun a w' => Q1 a w' /\ Q2 a w').
Proof. unfold wp. tauto. Qed.

Lemma grow_dataset_pools n l w :
  wp (grow_dataset relocates n l) w (fun l' _ => same_pools l l').
Proof.
  unfold wp, grow_dataset, bind.
  destruct (realloc relocates (base (l_dataset l)) (l_term_count l + n) Words w).
  repeat split.
Qed.

Lemma close_rows_pools l w :
  wp (close_rows relocates l) w (fun l' _ => same_pools l l').
Proof.
  unfold close_rows.
  wp_step grow_dataset_pools. intros l1 w1 H1.
  wp_step grow_dataset_pools. intros l2 w2 H2.
  wp_step grow_dataset_pools. intros l3 w3 H3.
  apply wp_ret. do 3 apply same_pools_put.
  eapply same_pools_trans; [| exact H3]. do 2 apply same_pools_put.
  eapply same_pools_trans; [| exact H2]. do 3 apply same_pools_put. exact H1.
Qed.

Lemma insert_id_pools l w :
  wp (insert_id relocates l) w (fun l' _ => same_pools l l').
Proof.
  unfold insert_id. apply wp_bind, wp_gets.
  wp_step grow_dataset_pools. intros l1 w1 H1.
  apply wp_ret. do 6 apply same_pools_put. exact H1.
Qed.

Lemma plain_status_pools next_row l w :
  wp (plain_status relocates next_row l) w (fun l' _ => same_pools l l').
Proof.
  unfold plain_status.
  wp_step grow_dataset_pools. intros l1 w1 H1.
  apply wp_ret. do 6 apply same_pools_put. exact H1.
Qed.

Lemma holds_locals_of B l w t :
  holds B l w ->
  dataset t = l_dataset l -> floats t = l_floats l ->
  binaries t = l_binaries l -> binaries_count t = l_binaries_count l ->
  holds B (locals_of t) w.
Proof.
  intros [[Hok Hlive Hrest Hd Hf Hb Hnd Hc] Ha] Ed Ef Eb Ec.
  split; [split |]; cbn [locals_of l_dataset l_floats l_binaries l_binaries_count];
    rewrite ?Ed, ?Ef, ?Eb, ?Ec; assumption.
Qed.

(** After [sql_exec_async] the command record reaches every block the run
    allocated, except, when the last step was not SQLITE_DONE, one: the term
    array the run was building. *)
Lemma sql_exec_async_memory t w :
  heap_ok w ->
  wp (sql_exec_async relocates t) w (fun t' w' =>
    bad_frees w' = bad_frees w /\ self t' = self t /\ statement t' = statement t /\
    exists lost : gset block,
      holds (live w ∪ lost) (locals_of t') w' /\
      ((last_code (stmt_of t) = SQLITE_DONE /\ lost = ∅) \/
       (last_code (stmt_of t) <> SQLITE_DONE /\ exists d, (d ∉ live w) /\ lost = {[ d ]}))).
Proof.
  intros Hok. unfold sql_exec_async.
  set (stmt := stmt_of t). set (cc := sqlite3_column_count stmt).
  apply wp_bind, wp_gets.
  set (l0 := Locals null (term_count t) (row_count t) None 0 null 0).
  assert (H0 : owns (live w) l0 w).
  { split; cbn; try set_solver; try exact Hok; try constructor. }
  wp_step (grow_dataset_holds (live w) 2 l0 w H0). intros l1 w1 (Hl1 & Hbad1).
  match goal with |- wp (bind (if _ then _ ?x else _) _) _ _ =>
    assert (Hp : holds (live w) x w1) by (do 2 apply holds_put; exact Hl1);
    set (lp := x) in * end.
  apply wp_bind.
  eapply (wp_mono _ _ (fun lh wh => holds (live w) lh wh /\ bad_frees wh = bad_frees w1)).
  { destruct (decide (0 < cc)).
    - apply columns_header_holds, Hp.
    - apply wp_ret. split; [exact Hp | reflexivity]. }
  intros lh wh (Hh & Hbadh).
  apply wp_bind, wp_modify.
  match goal with |- wp _ ?x _ =>
    assert (Hlog : holds (live w) lh x)
      by (apply (holds_same_heap _ _ wh); [reflexivity | reflexivity | exact Hh]);
    assert (Hbadl : bad_frees x = bad_frees wh) by reflexivity;
    generalize dependent x end.
  intros wl Hlog Hbadl.
  wp_step (for_each_holds (live w) (encode_row relocates cc)
             (from_option stmt_rows [] stmt)
             (fun r l w0 => encode_row_holds (live w) cc r l w0) lh wl Hlog).
  intros lr wr (Hr & Hbadr).
  apply wp_bind. unfold wp at 1. rewrite last_step_code.
  pose proof (last_step_heap _ _ stmt _ Hr) as Hd.
  pose proof (last_step_bad stmt wr) as Hbadd.
  generalize dependent ((last_step stmt wr).2). intros wd Hd Hbadd.
  destruct Hd as [[Hokd Hlived Hrestd Hdd Hfd Hbd Hndd Hcd] [d Had]].
  assert (Hleak : forall (spec : array ErlDrvTermData) n we e,
            base spec = Some e -> e ∉ live wd -> live we = {[ e ]} ∪ live wd ->
            heap_ok we ->
            holds (live w ∪ {[ d ]})
              (locals_of (AsyncCommand (self t) (statement t) spec n (l_row_count lr)
                            (l_floats lr) (l_binaries lr) (l_binaries_count lr))) we /\
            (d ∉ live w)).
  { intros spec n we e Hspec Hfresh Hlivee Hoke. rewrite Had in *. cbn [at_most] in *.
    split; [| set_solver].
    split; [| cbn [locals_of l_dataset dataset]; rewrite Hspec; by eexists].
    split; cbn [locals_of l_dataset l_floats l_binaries l_binaries_count dataset floats
                binaries binaries_count]; rewrite ?Hspec; cbn [at_most];
      try assumption.
    - rewrite Hlivee, Hlived. set_solver.
    - set_solver.
    - set_solver. }
  destruct (decide (last_code stmt = SQLITE_BUSY)) as [Hbusy | Hnbusy].
  { wp_step (return_error_live "SQLite3 database is busy" wd Hokd).
    intros [spec n] we (e & Hspec & Hfresh & Hlivee & Hoke & Hbade).
    apply wp_ret. cbn [fst snd self statement] in *.
    split; [congruence |]. split; [reflexivity |]. split; [reflexivity |].
    destruct (Hleak spec n we e Hspec Hfresh Hlivee Hoke) as (Hhold & Hdfresh).
    exists {[ d ]}. split; [exact Hhold |]. right.
    split; [rewrite Hbusy; discriminate | exists d; split; [exact Hdfresh | reflexivity]]. }
  destruct (decide (last_code stmt ≠ SQLITE_DONE)) as [Herr | Hdone].
  { apply wp_bind, wp_gets.
    wp_step (return_error_live (errmsg (db wd)) wd Hokd).
    intros [spec n] we (e & Hspec & Hfresh & Hlivee & Hoke & Hbade).
    apply wp_ret. cbn [fst snd self statement] in *.
    split; [congruence |]. split; [reflexivity |]. split; [reflexivity |].
    destruct (Hleak spec n we e Hspec Hfresh Hlivee Hoke) as (Hhold & Hdfresh).
    exists {[ d ]}. split; [exact Hhold |]. right.
    split; [exact Herr | exists d; split; [exact Hdfresh | reflexivity]]. }
  apply dec_stable in Hdone. clear Hleak.
  assert (Hr' : holds (live w) lr wd).
  { split; [split; assumption | by eexists]. }
  apply wp_bind.
  eapply (wp_mono _ _ (fun lb wb => (holds (live w) lb wb /\ bad_frees wb = bad_frees wd) /\
                                    same_pools lr lb)).
  { destruct (decide (0 < cc));
      [apply wp_and; [apply close_rows_holds, Hr' | apply close_rows_pools] |].
    destruct (mentions_insert stmt); apply wp_and;
      [ apply insert_id_holds, Hr' | apply insert_id_pools
      | apply plain_status_holds, Hr' | apply plain_status_pools ]. }
  intros lb wb ((Hb & Hbadb) & Hpb).
  apply wp_bind. eapply wp_mono.
  { apply wp_and; [apply (grow_dataset_holds (live w) 2 lb wb (proj1 Hb))
                  | apply grow_dataset_pools]. }
  intros l2 w2 ((Hl2 & Hbad2) & Hp2).
  apply wp_bind, wp_modify, wp_ret.
  cbn [self statement bad_frees set_stderr].
  split; [congruence |]. split; [reflexivity |]. split; [reflexivity |].
  exists ∅. split; [| left; split; [exact Hdone | reflexivity]].
  replace (live w ∪ ∅) with (live w) by set_solver.
  apply (holds_same_heap _ _ w2); [reflexivity | reflexivity |].
  destruct (same_pools_trans _ _ _ Hpb Hp2) as (Ef & Eb & Ec).
  apply (holds_locals_of _ (put (l_term_count l2 - 1) (Num 2)
                             (put (l_term_count l2 - 2) (Tag ERL_DRV_TUPLE) l2)));
    [do 2 apply holds_put; exact Hl2 | reflexivity | symmetry; exact Ef
    | symmetry; exact Eb | symmetry; exact Ec].
Qed.
(** ** Teardown *)

(** Freeing the binaries one by one, as the [for] loop of [sql_free_async]. *)
Lemma free_each (xs : list block) : forall (pre : list block) w,
  heap_ok w -> NoDup xs -> list_to_set xs ⊆ live w ->
  wp (for_each (seq (length pre) (length xs))
        (fun i (_ : unit) => free (Some (nth i (pre ++ xs) 0))) tt) w (fun _ w' =>
    live w' = live w ∖ list_to_set xs /\ heap_ok w' /\ bad_frees w' = bad_frees w).
Proof.
  induction xs as [| x xs IH]; intros pre w Hok Hnd Hsub; simpl.
  - apply wp_ret. split; [| split; [exact Hok | reflexivity]].
    by rewrite difference_empty_L.
  - apply NoDup_cons in Hnd as [Hx Hnd].
    rewrite app_nth2 by lia. rewrite Nat.sub_diag. cbn [nth].
    apply wp_bind. eapply wp_mono.
    { apply (free_live x w Hok). clear -Hsub. set_solver. }
    intros [] w1 (Hlive1 & Hok1 & Hbad1).
    specialize (IH (pre ++ [x]) w1 Hok1 Hnd).
    rewrite length_app, <- app_assoc in IH. cbn [length app] in IH.
    replace (length pre + 1) with (S (length pre)) in IH by lia.
    eapply wp_mono; [apply IH |].
    + rewrite Hlive1. clear -Hsub Hx. set_solver.
    + intros ? w2 (Hlive2 & Hok2 & Hbad2).
      split; [| split; [exact Hok2 | congruence]].
      rewrite Hlive2, Hlive1. clear. set_solver.
Qed.

(** The set bookkeeping of teardown: each part is still live when its turn
    comes, and what is left is what the command did not own. *)
Lemma teardown_sets (B D F A E S Me L : gset block) :
  L = B ∪ D ∪ F ∪ A ∪ E ->
  B ## D ∪ F ∪ A ∪ E -> D ## F ∪ A ∪ E -> F ## A ∪ E -> A ## E ->
  S ∪ Me ⊆ B -> S ## Me ->
  D ⊆ L /\
  F ⊆ L ∖ D /\
  E ⊆ L ∖ D ∖ F /\
  A ⊆ L ∖ D ∖ F ∖ E /\
  S ⊆ L ∖ D ∖ F ∖ E ∖ A /\
  Me ⊆ L ∖ D ∖ F ∖ E ∖ A ∖ S /\
  L ∖ D ∖ F ∖ E ∖ A ∖ S ∖ Me = B ∖ (S ∪ Me).
Proof.
  intros -> Hrest Hd Hf Ha HS HSM.
  repeat split; [set_solver .. |].
  apply set_eq. intros x. set_solver.
Qed.

(** [free] of a pointer that may be NULL, guarded as in [sql_free_async]. *)
Lemma free_guarded (p : option block) w :
  heap_ok w -> at_most p ⊆ live w ->
  wp (if p is Some _ then free p else ret tt) w (fun _ w' =>
    live w' = live w ∖ at_most p /\ heap_ok w' /\ bad_frees w' = bad_frees w).
Proof.
  intros Hok Hsub. destruct p as [b |]; cbn [at_most] in *.
  - apply (free_live b w Hok). clear -Hsub. set_solver.
  - apply wp_ret. split; [| split; [exact Hok | reflexivity]].
    by rewrite difference_empty_L.
Qed.

(** [sql_free_async] frees every block the command record reaches, each
    once. *)
Lemma sql_free_async_memory B t w :
  holds B (locals_of t) w ->
  at_most (fst <$> statement t) ∪ {[ self t ]} ⊆ B ->
  at_most (fst <$> statement t) ## {[ self t ]} ->
  wp (sql_free_async t) w (fun _ w' =>
    live w' = B ∖ (at_most (fst <$> statement t) ∪ {[ self t ]}) /\
    heap_ok w' /\ bad_frees w' = bad_frees w).
Proof.
  intros [[Hok Hlive Hrest Hd Hf Hb Hnd Hc] [d Ha]] HB Hne.
  cbn [locals_of l_dataset l_floats l_binaries l_binaries_count] in *.
  destruct (teardown_sets _ _ _ _ _ _ _ _ Hlive Hrest Hd Hf Hb HB Hne)
    as (G1 & G2 & G3 & G4 & G5 & G6 & G7).
  clear Hlive Hrest Hd Hf Hb HB Hne.
  unfold sql_free_async. rewrite Ha at 1.
  apply wp_bind. eapply wp_mono.
  { apply (free_live d w Hok). rewrite Ha in G1. cbn [at_most] in G1.
    clear -G1. set_solver. }
  intros ? w0 (Hlive0 & Hok0 & Hbad0).
  replace {[ d ]} with (at_most (base (dataset t))) in Hlive0 by (by rewrite Ha).
  apply wp_bind, wp_modify.
  set (w1 := set_async_handle 0 w0).
  assert (Hlive1 : live w1 = live w ∖ at_most (base (dataset t))) by exact Hlive0.
  assert (Hok1 : heap_ok w1) by exact Hok0.
  assert (Hbad1 : bad_frees w1 = bad_frees w) by exact Hbad0.
  clearbody w1. clear Hlive0 Hok0 Hbad0.
  apply wp_bind. eapply wp_mono.
  { apply (free_guarded (floats t) w1 Hok1). rewrite Hlive1. exact G2. }
  intros ? w2 (Hlive2 & Hok2 & Hbad2). rewrite Hlive1 in Hlive2.
  apply wp_bind. eapply wp_mono.
  { rewrite Hc. apply (free_each (elems (binaries t)) [] w2 Hok2 Hnd).
    rewrite Hlive2. exact G3. }
  intros ? w3 (Hlive3 & Hok3 & Hbad3). rewrite Hlive2 in Hlive3.
  apply wp_bind. eapply wp_mono.
  { apply (free_guarded (base (binaries t)) w3 Hok3). rewrite Hlive3. exact G4. }
  intros ? w4 (Hlive4 & Hok4 & Hbad4). rewrite Hlive3 in Hlive4.
  apply wp_bind.
  eapply (wp_mono _ _ (fun _ w5 => live w5 = live w4 ∖ at_most (fst <$> statement t) /\
                                  heap_ok w5 /\ bad_frees w5 = bad_frees w4)).
  { destruct (statement t) as [[h s] |]; cbn [at_most fmap option_fmap option_map fst] in *.
    - apply (free_live h w4 Hok4). rewrite Hlive4. clear -G5. set_solver.
    - apply wp_ret. split; [| split; [exact Hok4 | reflexivity]].
      by rewrite difference_empty_L. }
  intros ? w5 (Hlive5 & Hok5 & Hbad5). rewrite Hlive4 in Hlive5.
  eapply wp_mono.
  { apply (free_live (self t) w5 Hok5). rewrite Hlive5. clear -G6. set_solver. }
  intros ? w6 (Hlive6 & Hok6 & Hbad6).
  split; [| split; [exact Hok6 | congruence]].
  rewrite Hlive6, Hlive5. exact G7.
Qed.

(** ** A whole command *)

Lemma command_sets (L L1 L2 lost : gset block) (h me : block) :
  h ∉ L -> L1 = {[ h ]} ∪ L -> me ∉ L1 -> L2 = {[ me ]} ∪ L1 ->
  lost ## L2 ->
  {[ h ]} ∪ {[ me ]} ⊆ L2 ∪ lost /\ {[ h ]} ## ({[ me ]} : gset block) /\
  (L2 ∪ lost) ∖ ({[ h ]} ∪ {[ me ]}) = L ∪ lost.
Proof.
  intros Hh -> Hme -> Hlost.
  split; [set_solver |]. split; [set_solver |].
  apply set_eq. intros x. set_solver.
Qed.

(** A command whose text compiles leaves memory as it found it when the last
    step was SQLITE_DONE, and with one block more otherwise; it never frees
    a block that is not live. *)
Lemma sql_exec_memory prepare command s d' w :
  heap_ok w ->
  prepare (db w) command = (SQLITE_OK, Some s, d') ->
  wp (sql_exec relocates prepare command) w (fun _ w' =>
    bad_frees w' = bad_frees w /\ heap_ok w' /\
    ((stmt_final s = SQLITE_DONE /\ live w' = live w) \/
     (stmt_final s <> SQLITE_DONE /\ exists d, (d ∉ live w) /\ live w' = live w ∪ {[ d ]}))).
Proof.
  intros Hok Hprep. unfold sql_exec, sqlite3_prepare_v2.
  apply wp_bind, wp_bind, wp_gets. rewrite Hprep.
  apply wp_bind, wp_modify.
  rewrite decide_True by reflexivity.
  set (w0 := set_db d' w).
  assert (Hok0 : heap_ok w0) by exact Hok.
  assert (Hlive0 : live w0 = live w) by reflexivity.
  assert (Hbad0 : bad_frees w0 = bad_frees w) by reflexivity.
  clearbody w0.
  wp_step (alloc_live Statement w0 Hok0). intros h w1 (Hh & Hlive1 & Hok1 & Hbad1).
  apply wp_ret.
  rewrite decide_False by (intros H; apply H; reflexivity).
  wp_step (alloc_live Command w1 Hok1). intros me w2 (Hme & Hlive2 & Hok2 & Hbad2).
  wp_step (sql_exec_async_memory
             (AsyncCommand me (Some (h, s)) null 0 0 None null 0) w2 Hok2).
  intros t w3 (Hbad3 & Hself & Hstmt & lost & Hholds & Hlost).
  cbn [self statement stmt_of last_code fmap option_fmap option_map from_option snd]
    in Hself, Hstmt, Hlost.
  assert (Hdisj : lost ## live w2).
  { destruct Hholds as [[_ _ Hrest _ _ _ _ _] _].
    destruct Hlost as [(_ & ->) | (_ & d & Hd & ->)];
      [clear; set_solver | clear -Hd; set_solver]. }
  destruct (command_sets _ _ _ lost h me Hh Hlive1 Hme Hlive2 Hdisj) as (G1 & G2 & G3).
  apply wp_bind. unfold ready_async.
  apply wp_bind, wp_gets. apply wp_bind.
  unfold wp at 1, driver_output_term. cbn [fst snd].
  match goal with |- wp _ ?x _ =>
    assert (Hholds4 : holds (live w2 ∪ lost) (locals_of t) x)
      by (apply (holds_same_heap _ _ w3); [reflexivity | reflexivity | exact Hholds]);
    assert (Hbad4 : bad_frees x = bad_frees w3) by reflexivity;
    generalize dependent x end.
  intros w4 Hholds4 Hbad4.
  apply wp_bind, wp_modify.
  match goal with |- wp _ ?x _ =>
    assert (Hholds5 : holds (live w2 ∪ lost) (locals_of t) x)
      by (apply (holds_same_heap _ _ w4); [reflexivity | reflexivity | exact Hholds4]);
    assert (Hbad5 : bad_frees x = bad_frees w4) by reflexivity;
    generalize dependent x end.
  intros w5 Hholds5 Hbad5.
  eapply wp_mono.
  { apply (sql_free_async_memory (live w2 ∪ lost) t w5 Hholds5);
      rewrite Hstmt, Hself; cbn [at_most fmap option_fmap option_map fst];
      [exact G1 | exact G2]. }
  intros ? w6 (Hlive6 & Hok6 & Hbad6).
  apply wp_ret. split; [congruence |]. split; [exact Hok6 |].
  rewrite Hstmt, Hself in Hlive6. cbn [at_most fmap option_fmap option_map fst] in Hlive6.
  rewrite G3, Hlive0 in Hlive6.
  destruct Hlost as [(Hdone & ->) | (Herr & d & Hd & ->)].
  - left. split; [exact Hdone |]. rewrite Hlive6. by rewrite union_empty_r_L.
  - right. split; [exact Herr |]. exists d. split; [| exact Hlive6].
    rewrite Hlive2, Hlive1, Hlive0 in Hd. clear -Hd. set_solver.
Qed.

End Memory.
(** * Concrete runs *)

Module Examples.

Definition in_place (b : block) (n : nat) : bool := false.
Definition moving (b : block) (n : nat) : bool := true.

Definition idle : sqlite3 := Sqlite3 "not an error" 0.

(** An engine that compiles every text to [s]. *)
Definition compiles (s : sqlite3_stmt) (d : sqlite3) (command : string)
  : Z * option sqlite3_stmt * sqlite3 :=
  (SQLITE_OK, Some s, d).

(** An engine that rejects every text. *)
Definition rejects (d : sqlite3) (command : string)
  : Z * option sqlite3_stmt * sqlite3 :=
  (1%Z, None, Sqlite3 "near SELEC: syntax error" (last_insert_rowid d)).

(** The driver on port 7, given one command. *)
Definition run (relocates : block -> nat -> bool) (s : sqlite3_stmt) : world :=
  (sql_exec relocates (compiles s) (stmt_sql s) (boot 7 idle)).2.

Definition select_42 : sqlite3_stmt :=
  Sqlite3Stmt "SELECT 42 AS col1" ["col1"%string] [[SQL_INTEGER 42]] SQLITE_DONE idle.

Definition insert_row : sqlite3_stmt :=
  Sqlite3Stmt "insert into t values (1)" [] [] SQLITE_DONE
    (Sqlite3 "not an error" 1099511627776).

Definition create_table : sqlite3_stmt :=
  Sqlite3Stmt "CREATE TABLE t (a)" [] [] SQLITE_DONE idle.

Definition select_big : sqlite3_stmt :=
  Sqlite3Stmt "SELECT 4294967296 AS big" ["big"%string]
    [[SQL_INTEGER 4294967296]] SQLITE_DONE idle.

Definition select_null : sqlite3_stmt :=
  Sqlite3Stmt "SELECT a, b FROM t" ["a"%string; "b"%string]
    [[SQL_NULL; SQL_INTEGER 3]] SQLITE_DONE idle.

Definition select_busy : sqlite3_stmt :=
  Sqlite3Stmt "SELECT a FROM t" ["a"%string] [[SQL_INTEGER 1]] SQLITE_BUSY
    (Sqlite3 "database is locked" 0).

Definition select_failed : sqlite3_stmt :=
  Sqlite3Stmt "SELECT a FROM t" ["a"%string] [] 10
    (Sqlite3 "disk I/O error" 0).

Definition select_floats : sqlite3_stmt :=
  Sqlite3Stmt "SELECT x, y FROM p" ["x"%string; "y"%string]
    [[SQL_FLOAT 4609434218613702656; SQL_FLOAT 4612811918334230528]]
    SQLITE_DONE idle.

Definition replies (w : world) : list (option term) :=
  (fun d => decode (sent d)) <$> port_out w.

End Examples.

(** * The replies of the driver *)

(** C1, as the code has it.  A statement with columns whose steps end with
    SQLITE_DONE, and whose rows hold one non-NULL cell per column, is answered
    with one delivery to the driver's port that reads
    [{Port, [{columns, [Names]}, {rows, [RowTuples]}]}]: a pair of the port
    and a two-element list.  No [ok] atom is part of it. *)
Theorem rows_reply_shape relocates prepare command s d' w :
  prepare (db w) command = (SQLITE_OK, Some s, d') ->
  0 < length (stmt_columns s) ->
  stmt_final s = SQLITE_DONE ->
  Forall (full_row (length (stmt_columns s))) (stmt_rows s) ->
  (Z.of_nat (length (stmt_columns s)) < 2 ^ 31)%Z ->
  (Z.of_nat (length (stmt_rows s)) < 2 ^ 31)%Z ->
  exists dl tss,
    port_out (sql_exec relocates prepare command w).2 = port_out w ++ [dl] /\
    to_port dl = drv_port w /\
    Forall2 (Forall2 cell_term) (stmt_rows s) tss /\
    decode (sent dl) = Some (rows_reply (drv_port w) (stmt_columns s) tss).
Proof.
  intros Hprep Hcc Hdone Hfull Hccb Hrb.
  destruct (sql_exec_compiled relocates prepare command s d' w Hprep)
    as (dl & Hout & Hto & Henc & _).
  unfold encoded in Henc.
  rewrite decide_False in Henc by (rewrite Hdone; discriminate).
  rewrite decide_False in Henc by (intros H; apply H, Hdone).
  destruct Henc as (rws & Hrws & Hsent).
  destruct (decode_rows_reply (drv_port w) s rws Hcc Hccb Hrb Hrws Hfull)
    as (tss & Htss & Hdec).
  exists dl, tss. rewrite Hsent. repeat split; assumption.
Qed.

Lemma rows_reply_shape_witness :
  exists dl tss,
    port_out (Examples.run Examples.in_place Examples.select_42) = [] ++ [dl] /\
    to_port dl = 7 /\
    Forall2 (Forall2 cell_term) [[SQL_INTEGER 42]] tss /\
    decode (sent dl) = Some (rows_reply 7 ["col1"%string] tss).
Proof.
  apply (rows_reply_shape Examples.in_place (Examples.compiles Examples.select_42)
           "SELECT 42 AS col1" Examples.select_42 Examples.idle (boot 7 Examples.idle)).
  - reflexivity.
  - simpl. lia.
  - reflexivity.
  - repeat constructor. discriminate.
  - reflexivity.
  - reflexivity.
Defined.

(** C1 as stated fails: the reply to [SELECT 42] is
    [{Port, [{columns,[col1]}, {rows,[{42}]}]}], not a tuple tagged [ok]; and
    a row with a NULL cell leaves an array that is not a term at all. *)
Lemma select_42_reply_is_not_ok_tagged :
  Examples.replies (Examples.run Examples.in_place Examples.select_42)
    = [Some (TTuple [TPort 7;
         tlist [TTuple [TAtom "columns"; tlist [TAtom "col1"]];
                TTuple [TAtom "rows"; tlist [TTuple [TInt 42]]]]])] /\
  Examples.replies (Examples.run Examples.in_place Examples.select_42)
    <> [Some (TTuple [TPort 7;
          TTuple [TAtom "ok";
                  TTuple [TAtom "columns"; tlist [TAtom "col1"]];
                  TTuple [TAtom "rows"; tlist [TTuple [TInt 42]]]]])] /\
  Examples.replies (Examples.run Examples.in_place Examples.select_null) = [None].
Proof.
  split; [vm_compute; reflexivity |]. split; [| vm_compute; reflexivity].
  vm_compute. discriminate.
Qed.

(** The part of a run shared by the two replies without columns. *)
Lemma no_columns_reply relocates prepare command s d' w :
  prepare (db w) command = (SQLITE_OK, Some s, d') ->
  engine_stmt s -> stmt_columns s = [] -> stmt_final s = SQLITE_DONE ->
  exists dl,
    port_out (sql_exec relocates prepare command w).2 = port_out w ++ [dl] /\
    to_port dl = drv_port w /\
    sent dl = done_words (drv_port w) s [] /\
    db (sql_exec relocates prepare command w).2 = stmt_db_after s.
Proof.
  intros Hprep (Hrows & _ & _) Hcols Hdone.
  destruct (sql_exec_compiled relocates prepare command s d' w Hprep)
    as (dl & Hout & Hto & Henc & Hdb).
  unfold encoded in Henc.
  rewrite decide_False in Henc by (rewrite Hdone; discriminate).
  rewrite decide_False in Henc by (intros H; apply H, Hdone).
  destruct Henc as (rws & Hrws & Hsent).
  rewrite (Hrows Hcols) in Hrws. apply Forall2_nil_inv_l in Hrws. subst rws.
  exists dl. repeat split; assumption.
Qed.

(** C2, as the code has it.  A statement without columns whose text contains
    INSERT in any letter case, and whose step ends with SQLITE_DONE, is
    answered with [{Port, {id, Rowid}}], [Rowid] being the connection's last
    insert rowid after the step, all 64 bits of it.  No [ok] atom wraps the
    pair. *)
Theorem insert_reply_shape relocates prepare command s d' w :
  prepare (db w) command = (SQLITE_OK, Some s, d') ->
  engine_stmt s ->
  stmt_columns s = [] ->
  stmt_final s = SQLITE_DONE ->
  contains_ci (stmt_sql s) "INSERT" ->
  CInt.int64_range (last_insert_rowid (stmt_db_after s)) ->
  let w' := (sql_exec relocates prepare command w).2 in
  exists dl,
    port_out w' = port_out w ++ [dl] /\
    to_port dl = drv_port w /\
    decode (sent dl) =
      Some (TTuple [TPort (drv_port w);
                    TTuple [TAtom "id"; TInt (last_insert_rowid (db w'))]]).
Proof.
  intros Hprep Heng Hcols Hdone Hins Hrange w'.
  destruct (no_columns_reply relocates prepare command s d' w Hprep Heng Hcols Hdone)
    as (dl & Hout & Hto & Hsent & Hdb).
  exists dl. split; [exact Hout |]. split; [exact Hto |].
  rewrite Hsent, (decode_no_columns _ _ Hcols).
  apply mentions_insert_spec in Hins. rewrite Hins.
  unfold w'. rewrite Hdb, CInt.signed_id; [reflexivity | lia | exact Hrange].
Qed.

Lemma insert_reply_shape_witness :
  exists dl,
    port_out (Examples.run Examples.in_place Examples.insert_row) = [] ++ [dl] /\
    to_port dl = 7 /\
    decode (sent dl) =
      Some (TTuple [TPort 7;
        TTuple [TAtom "id";
                TInt (last_insert_rowid
                        (db (Examples.run Examples.in_place Examples.insert_row)))]]).
Proof.
  apply (insert_reply_shape Examples.in_place (Examples.compiles Examples.insert_row)
           "insert into t values (1)" Examples.insert_row Examples.idle
           (boot 7 Examples.idle)).
  - reflexivity.
  - split; [reflexivity |]. split; [constructor | discriminate].
  - reflexivity.
  - reflexivity.
  - exists EmptyString, "insert"%string, " into t values (1)"%string.
    split; reflexivity.
  - unfold CInt.int64_range. simpl. lia.
Defined.

(** C2 as stated fails: the reply to an INSERT is [{Port, {id, Rowid}}], with
    no [ok] around [{id, Rowid}]. *)
Lemma insert_reply_is_not_ok_tagged :
  Examples.replies (Examples.run Examples.in_place Examples.insert_row)
    = [Some (TTuple [TPort 7; TTuple [TAtom "id"; TInt 1099511627776]])] /\
  Examples.replies (Examples.run Examples.in_place Examples.insert_row)
    <> [Some (TTuple [TPort 7;
          TTuple [TAtom "ok"; TTuple [TAtom "id"; TInt 1099511627776]]])].
Proof. split; [vm_compute; reflexivity | vm_compute; discriminate]. Qed.

(** C3, as the code has it.  A statement without columns whose text does not
    contain INSERT, and whose step ends with SQLITE_DONE, is answered with
    [{Port, {ok, Code}}], [Code] being the code of that last step.  No
    [status] atom is part of it. *)
Theorem status_reply_shape relocates prepare command s d' w :
  prepare (db w) command = (SQLITE_OK, Some s, d') ->
  engine_stmt s ->
  stmt_columns s = [] ->
  stmt_final s = SQLITE_DONE ->
  ~ contains_ci (stmt_sql s) "INSERT" ->
  exists dl,
    port_out (sql_exec relocates prepare command w).2 = port_out w ++ [dl] /\
    to_port dl = drv_port w /\
    decode (sent dl) =
      Some (TTuple [TPort (drv_port w); TTuple [TAtom "ok"; TInt (stmt_final s)]]).
Proof.
  intros Hprep Heng Hcols Hdone Hins.
  destruct (no_columns_reply relocates prepare command s d' w Hprep Heng Hcols Hdone)
    as (dl & Hout & Hto & Hsent & Hdb).
  exists dl. split; [exact Hout |]. split; [exact Hto |].
  rewrite Hsent, (decode_no_columns _ _ Hcols).
  destruct (mentions_insert (Some s)) eqn:E.
  - apply mentions_insert_spec in E. contradiction.
  - rewrite Hdone. reflexivity.
Qed.

Lemma status_reply_shape_witness :
  exists dl,
    port_out (Examples.run Examples.in_place Examples.create_table) = [] ++ [dl] /\
    to_port dl = 7 /\
    decode (sent dl) = Some (TTuple [TPort 7; TTuple [TAtom "ok"; TInt 101]]).
Proof.
  apply (status_reply_shape Examples.in_place (Examples.compiles Examples.create_table)
           "CREATE TABLE t (a)" Examples.create_table Examples.idle
           (boot 7 Examples.idle)).
  - reflexivity.
  - split; [reflexivity |]. split; [constructor | discriminate].
  - reflexivity.
  - reflexivity.
  - intros Hc. apply mentions_insert_spec in Hc. vm_compute in Hc. discriminate.
Defined.

(** C3 as stated fails: the reply to CREATE TABLE is [{Port, {ok, 101}}], with
    no [{status, 101}] inside. *)
Lemma status_reply_has_no_status_tag :
  Examples.replies (Examples.run Examples.in_place Examples.create_table)
    = [Some (TTuple [TPort 7; TTuple [TAtom "ok"; TInt 101]])] /\
  Examples.replies (Examples.run Examples.in_place Examples.create_table)
    <> [Some (TTuple [TPort 7;
          TTuple [TAtom "ok"; TTuple [TAtom "status"; TInt 101]]])].
Proof. split; [vm_compute; reflexivity | vm_compute; discriminate]. Qed.

(** C4 fails on the code.  An integer cell is fetched with
    [sqlite3_column_int], which returns an [int]: the cell 4294967296 (2^32)
    reaches the array as 0 and the reply reads [{0}], while the rowid of the
    INSERT reply above, fetched into a [long long], keeps its 64 bits. *)
Theorem integer_cell_is_cut_to_32_bits :
  sqlite3_column_int (SQL_INTEGER 4294967296) = 0%Z /\
  sent <$> port_out (Examples.run Examples.in_place Examples.select_big)
    = [[Tag ERL_DRV_PORT; PortId 7] ++ header_words ["big"%string] ++
       [Tag ERL_DRV_INT; Num 0; Tag ERL_DRV_TUPLE; Num 1] ++
       rows_end 1 ++ [Tag ERL_DRV_TUPLE; Num 2]] /\
  Examples.replies (Examples.run Examples.in_place Examples.select_big)
    = [Some (rows_reply 7 ["big"%string] [[TInt 0]])].
Proof. split; [| split]; vm_compute; reflexivity. Qed.




(** C6.  For a statement with columns whose steps end with SQLITE_DONE, the
    array holds one closed row per step that returned a row, and the list
    word after them counts those rows plus the NIL that ends the list; read
    back, the [rows] list has one tuple per such step. *)
Theorem rows_list_counts_steps relocates prepare command s d' w :
  prepare (db w) command = (SQLITE_OK, Some s, d') ->
  0 < length (stmt_columns s) ->
  stmt_final s = SQLITE_DONE ->
  exists dl rws,
    port_out (sql_exec relocates prepare command w).2 = port_out w ++ [dl] /\
    Forall2 (row_words (length (stmt_columns s))) (stmt_rows s) rws /\
    length rws = length (stmt_rows s) /\
    sent dl =
      [Tag ERL_DRV_PORT; PortId (drv_port w)] ++ header_words (stmt_columns s) ++
      concat rws ++
      [Tag ERL_DRV_NIL; Tag ERL_DRV_LIST; word_of (Z.of_nat (length (stmt_rows s)) + 1)] ++
      [Tag ERL_DRV_TUPLE; Num 2; Tag ERL_DRV_NIL; Tag ERL_DRV_LIST; Num 3;
       Tag ERL_DRV_TUPLE; Num 2] /\
    (Forall (full_row (length (stmt_columns s))) (stmt_rows s) ->
     (Z.of_nat (length (stmt_columns s)) < 2 ^ 31)%Z ->
     (Z.of_nat (length (stmt_rows s)) < 2 ^ 31)%Z ->
     exists tss,
       length tss = length (stmt_rows s) /\
       decode (sent dl) = Some (rows_reply (drv_port w) (stmt_columns s) tss)).
Proof.
  intros Hprep Hcc Hdone.
  destruct (sql_exec_compiled relocates prepare command s d' w Hprep)
    as (dl & Hout & Hto & Henc & _).
  unfold encoded in Henc.
  rewrite decide_False in Henc by (rewrite Hdone; discriminate).
  rewrite decide_False in Henc by (intros H; apply H, Hdone).
  destruct Henc as (rws & Hrws & Hsent).
  exists dl, rws. split; [exact Hout |]. split; [exact Hrws |].
  split; [symmetry; exact (Forall2_length _ _ _ Hrws) |]. split.
  - rewrite Hsent. unfold done_words, ending_words, rows_end.
    rewrite !decide_True by exact Hcc. reflexivity.
  - intros Hfull Hccb Hrb.
    destruct (decode_rows_reply (drv_port w) s rws Hcc Hccb Hrb Hrws Hfull)
      as (tss & Htss & Hdec).
    exists tss. split; [symmetry; exact (Forall2_length _ _ _ Htss) |].
    rewrite Hsent. exact Hdec.
Qed.

Lemma rows_list_counts_steps_witness :
  exists dl rws,
    port_out (Examples.run Examples.moving Examples.select_null) = [] ++ [dl] /\
    Forall2 (row_words 2) [[SQL_NULL; SQL_INTEGER 3]] rws /\
    length rws = 1 /\
    sent dl =
      [Tag ERL_DRV_PORT; PortId 7] ++ header_words ["a"%string; "b"%string] ++
      concat rws ++
      [Tag ERL_DRV_NIL; Tag ERL_DRV_LIST; word_of 2] ++
      [Tag ERL_DRV_TUPLE; Num 2; Tag ERL_DRV_NIL; Tag ERL_DRV_LIST; Num 3;
       Tag ERL_DRV_TUPLE; Num 2] /\
    (Forall (full_row 2) [[SQL_NULL; SQL_INTEGER 3]] ->
     (2 < 2 ^ 31)%Z -> (1 < 2 ^ 31)%Z ->
     exists tss,
       length tss = 1 /\
       decode (sent dl) = Some (rows_reply 7 ["a"%string; "b"%string] tss)).
Proof.
  apply (rows_list_counts_steps Examples.moving (Examples.compiles Examples.select_null)
           "SELECT a, b FROM t" Examples.select_null Examples.idle (boot 7 Examples.idle)).
  - reflexivity.
  - simpl. lia.
  - reflexivity.
Defined.

(** C7.  When the step that ends the rows reports SQLITE_BUSY, the reply is
    [{error, "SQLite3 database is busy"}]; when it reports any other code but
    SQLITE_DONE, the reply is [{error, Msg}] with the connection's error
    message.  In both cases the command runs to its end and exactly one
    reply goes to the port. *)
Theorem step_failure_replies_error relocates prepare command s d' w :
  prepare (db w) command = (SQLITE_OK, Some s, d') ->
  stmt_final s <> SQLITE_ROW ->
  stmt_final s <> SQLITE_DONE ->
  (Z.of_nat (String.length (errmsg (stmt_db_after s))) < 2 ^ 64)%Z ->
  let msg := if decide (stmt_final s = SQLITE_BUSY)
             then "SQLite3 database is busy"%string
             else errmsg (stmt_db_after s) in
  exists dl,
    port_out (sql_exec relocates prepare command w).2 = port_out w ++ [dl] /\
    to_port dl = drv_port w /\
    sent dl = error_words msg /\
    decode (sent dl) = Some (TTuple [TAtom "error"; TString msg]).
Proof.
  intros Hprep _ Hnd Hlen msg.
  destruct (sql_exec_compiled relocates prepare command s d' w Hprep)
    as (dl & Hout & Hto & Henc & _).
  exists dl. split; [exact Hout |]. split; [exact Hto |].
  unfold encoded in Henc. unfold msg.
  destruct (decide (stmt_final s = SQLITE_BUSY)).
  - rewrite Henc. split; [reflexivity |]. apply decode_error_words.
    vm_compute. reflexivity.
  - rewrite decide_True in Henc by exact Hnd.
    rewrite Henc. split; [reflexivity |]. apply decode_error_words, Hlen.
Qed.

Lemma step_failure_replies_error_witness :
  (exists dl,
     port_out (Examples.run Examples.moving Examples.select_busy) = [] ++ [dl] /\
     to_port dl = 7 /\
     sent dl = error_words "SQLite3 database is busy" /\
     decode (sent dl) = Some (TTuple [TAtom "error"; TString "SQLite3 database is busy"])) /\
  (exists dl,
     port_out (Examples.run Examples.moving Examples.select_failed) = [] ++ [dl] /\
     to_port dl = 7 /\
     sent dl = error_words "disk I/O error" /\
     decode (sent dl) = Some (TTuple [TAtom "error"; TString "disk I/O error"])).
Proof.
  split.
  - apply (step_failure_replies_error Examples.moving
             (Examples.compiles Examples.select_busy) "SELECT a FROM t"
             Examples.select_busy Examples.idle (boot 7 Examples.idle)).
    + reflexivity.
    + discriminate.
    + discriminate.
    + reflexivity.
  - apply (step_failure_replies_error Examples.moving
             (Examples.compiles Examples.select_failed) "SELECT a FROM t"
             Examples.select_failed Examples.idle (boot 7 Examples.idle)).
    + reflexivity.
    + discriminate.
    + discriminate.
    + reflexivity.
Defined.

(** C8.  When the command text does not compile, the reply [{error, Msg}]
    with the connection's message goes to the port at once.  Nothing is
    logged, so [sql_exec_async] did not run; no command record and no
    statement handle come into being. *)
Theorem prepare_failure_short_circuits relocates prepare command result o d' w :
  prepare (db w) command = (result, o, d') ->
  result <> SQLITE_OK ->
  errmsg d' <> EmptyString ->
  (Z.of_nat (String.length (errmsg d')) < 2 ^ 64)%Z ->
  let w' := (sql_exec relocates prepare command w).2 in
  port_out w' = port_out w ++ [Delivery (drv_port w) (error_words (errmsg d')) []] /\
  (exists msg, msg <> EmptyString /\
     decode (error_words (errmsg d')) = Some (TTuple [TAtom "error"; TString msg])) /\
  stderr w' = stderr w /\
  (forall b, heap w' !! b = Some Command -> heap w !! b = Some Command) /\
  (forall b, heap w' !! b = Some Statement -> heap w !! b = Some Statement).
Proof.
  intros Hprep Hne Hmsg Hlen w'. unfold w'.
  rewrite (sql_exec_rejected relocates prepare command result o d' w Hprep Hne).
  cbn [snd port_out stderr heap].
  split; [reflexivity |]. split.
  { exists (errmsg d'). split; [exact Hmsg | apply decode_error_words, Hlen]. }
  split; [reflexivity |].
  split; intros b Hb.
  - destruct (decide (b = brk w)) as [-> | Hneq].
    + rewrite lookup_insert_eq in Hb. discriminate.
    + rewrite lookup_insert_ne in Hb by congruence. exact Hb.
  - destruct (decide (b = brk w)) as [-> | Hneq].
    + rewrite lookup_insert_eq in Hb. discriminate.
    + rewrite lookup_insert_ne in Hb by congruence. exact Hb.
Qed.

Lemma prepare_failure_short_circuits_witness :
  let w' := (sql_exec Examples.in_place Examples.rejects "SELEC 1" (boot 7 Examples.idle)).2 in
  port_out w' = [] ++ [Delivery 7 (error_words "near SELEC: syntax error") []] /\
  (exists msg, msg <> EmptyString /\
     decode (error_words "near SELEC: syntax error")
       = Some (TTuple [TAtom "error"; TString msg])) /\
  stderr w' = [] /\
  (forall b, heap w' !! b = Some Command -> (∅ : gmap nat object) !! b = Some Command) /\
  (forall b, heap w' !! b = Some Statement -> (∅ : gmap nat object) !! b = Some Statement).
Proof.
  apply (prepare_failure_short_circuits Examples.in_place Examples.rejects "SELEC 1"
           1%Z None (Sqlite3 "near SELEC: syntax error" 0) (boot 7 Examples.idle)).
  - reflexivity.
  - discriminate.
  - discriminate.
  - reflexivity.
Defined.

(** C9 fails on the code.  When the step reports SQLITE_BUSY, [return_error]
    overwrites the command's array pointer with a fresh array and
    [sql_exec_async] returns; the array built so far is reachable from
    nothing.  After teardown one block of term words is still live.  No
    block is freed twice, and a run that ends with SQLITE_DONE frees
    everything. *)
Theorem busy_exit_leaks_term_buffer :
  let w' := Examples.run Examples.in_place Examples.select_busy in
  map_to_list (heap w') = [(2, Words)] /\ bad_frees w' = 0 /\
  heap (Examples.run Examples.in_place Examples.select_floats) = ∅.
Proof. split; [| split]; vm_compute; reflexivity. Qed.

(** C10 fails on the code.  The float word holds the address of the pool
    entry at the time it is written; the pool is grown with [realloc] for
    the next float cell.  When [realloc] moves the pool, the first word
    points into the block that was freed: at handoff it reaches no double,
    while the second word reaches its own. *)
Theorem float_slot_dangles_after_pool_growth :
  let w' := Examples.run Examples.moving Examples.select_floats in
  exists b0 b1,
    b0 <> b1 /\
    (sent <$> port_out w') =
      [[Tag ERL_DRV_PORT; PortId 7] ++ header_words ["x"%string; "y"%string] ++
       [Tag ERL_DRV_FLOAT; PtrDouble b0 0; Tag ERL_DRV_FLOAT; PtrDouble b1 1;
        Tag ERL_DRV_TUPLE; Num 2] ++
       rows_end 1 ++ [Tag ERL_DRV_TUPLE; Num 2]] /\
    (doubles_read <$> port_out w') = [[None; Some 4612811918334230528%Z]] /\
    (doubles_read <$> port_out (Examples.run Examples.in_place Examples.select_floats))
      = [[Some 4609434218613702656%Z; Some 4612811918334230528%Z]].
Proof.
  exists 4, 6. split; [discriminate |].
  split; [| split]; vm_compute; reflexivity.
Qed.

(** * Further properties of the driver *)

(** ** Memory across a whole command *)

Lemma boot_heap_ok port d : heap_ok (boot port d).
Proof. intros b Hb. unfold live, boot in Hb. cbn in Hb. set_solver. Qed.

(** A command whose statement runs to SQLITE_DONE leaves exactly the blocks
    live that were live before it: the term array, the float pool, every
    binary, the array of binaries, the statement handle and the command
    record are each freed, and no [free] meets a block that is not live. *)
Theorem done_command_frees_everything relocates prepare command s d' w :
  heap_ok w ->
  prepare (db w) command = (SQLITE_OK, Some s, d') ->
  stmt_final s = SQLITE_DONE ->
  let w' := (sql_exec relocates prepare command w).2 in
  live w' = live w /\ bad_frees w' = bad_frees w /\ heap_ok w'.
Proof.
  intros Hok Hprep Hdone w'.
  destruct (sql_exec_memory relocates prepare command s d' w Hok Hprep)
    as (Hbad & Hok' & [(_ & Hlive) | (Hne & _)]).
  - repeat split; assumption.
  - contradiction.
Qed.

Lemma done_command_frees_everything_witness :
  let w' := Examples.run Examples.moving Examples.select_floats in
  live w' = live (boot 7 Examples.idle) /\
  bad_frees w' = bad_frees (boot 7 Examples.idle) /\ heap_ok w'.
Proof.
  apply (done_command_frees_everything Examples.moving
           (Examples.compiles Examples.select_floats) "SELECT x, y FROM p"
           Examples.select_floats Examples.idle (boot 7 Examples.idle)).
  - apply boot_heap_ok.
  - reflexivity.
  - reflexivity.
Defined.

(** A command whose last step reports anything but SQLITE_DONE ends with one
    block live that was not live before, whatever the rows before that step
    held; still no [free] meets a block that is not live. *)
Theorem failed_step_leaves_one_block relocates prepare command s d' w :
  heap_ok w ->
  prepare (db w) command = (SQLITE_OK, Some s, d') ->
  stmt_final s <> SQLITE_ROW ->
  stmt_final s <> SQLITE_DONE ->
  let w' := (sql_exec relocates prepare command w).2 in
  (exists d, (d ∉ live w) /\ live w' = live w ∪ {[ d ]}) /\
  bad_frees w' = bad_frees w /\ heap_ok w'.
Proof.
  intros Hok Hprep _ Hne w'.
  destruct (sql_exec_memory relocates prepare command s d' w Hok Hprep)
    as (Hbad & Hok' & [(Hdone & _) | (_ & Hleak)]).
  - contradiction.
  - repeat split; assumption.
Qed.

Lemma failed_step_leaves_one_block_witness :
  let w' := Examples.run Examples.moving Examples.select_busy in
  (exists d, (d ∉ live (boot 7 Examples.idle)) /\
             live w' = live (boot 7 Examples.idle) ∪ {[ d ]}) /\
  bad_frees w' = bad_frees (boot 7 Examples.idle) /\ heap_ok w'.
Proof.
  apply (failed_step_leaves_one_block Examples.moving
           (Examples.compiles Examples.select_busy) "SELECT a FROM t"
           Examples.select_busy Examples.idle (boot 7 Examples.idle)).
  - apply boot_heap_ok.
  - reflexivity.
  - discriminate.
  - discriminate.
Defined.

(** The live blocks after a command whose text does not compile. *)
Lemma sql_exec_rejected_live relocates prepare command result o d' w :
  heap_ok w ->
  prepare (db w) command = (result, o, d') ->
  result <> SQLITE_OK ->
  let w' := (sql_exec relocates prepare command w).2 in
  live w' = live w ∪ {[ brk w ]} /\ bad_frees w' = bad_frees w /\ heap_ok w'.
Proof.
  intros Hok Hprep Hne w'. unfold w'.
  rewrite (sql_exec_rejected relocates prepare command result o d' w Hprep Hne).
  unfold live, heap_ok in *. cbn [snd heap brk bad_frees].
  rewrite dom_insert_L.
  split; [apply union_comm_L |]. split; [reflexivity |].
  intros b Hb. unfold live in Hb. cbn [heap] in Hb.
  rewrite dom_insert_L in Hb. apply elem_of_union in Hb as [Hb | Hb].
  - apply elem_of_singleton in Hb. lia.
  - apply Hok in Hb. lia.
Qed.

(** A command whose text does not compile allocates one block, the
    seven-word array of its error reply, and returns without freeing it. *)
Theorem rejected_command_keeps_its_array relocates prepare command result o d' w :
  heap_ok w ->
  prepare (db w) command = (result, o, d') ->
  result <> SQLITE_OK ->
  let w' := (sql_exec relocates prepare command w).2 in
  (brk w ∉ live w) /\ live w' = live w ∪ {[ brk w ]} /\
  heap w' !! brk w = Some Words /\
  bad_frees w' = bad_frees w /\ heap_ok w'.
Proof.
  intros Hok Hprep Hne w'.
  destruct (sql_exec_rejected_live relocates prepare command result o d' w Hok Hprep Hne)
    as (Hlive & Hbad & Hok').
  split; [intros Hin; apply Hok in Hin; lia |].
  split; [exact Hlive |]. split; [| split; [exact Hbad | exact Hok']].
  unfold w'.
  rewrite (sql_exec_rejected relocates prepare command result o d' w Hprep Hne).
  apply lookup_insert_eq.
Qed.

Lemma rejected_command_keeps_its_array_witness :
  let w' := (sql_exec Examples.in_place Examples.rejects "SELEC 1" (boot 7 Examples.idle)).2 in
  (0 ∉ live (boot 7 Examples.idle)) /\
  live w' = live (boot 7 Examples.idle) ∪ {[ 0 ]} /\
  heap w' !! 0 = Some Words /\
  bad_frees w' = 0 /\ heap_ok w'.
Proof.
  apply (rejected_command_keeps_its_array Examples.in_place Examples.rejects "SELEC 1"
           1%Z None (Sqlite3 "near SELEC: syntax error" 0) (boot 7 Examples.idle)).
  - apply boot_heap_ok.
  - reflexivity.
  - discriminate.
Defined.

(** ** The count handed to the emulator *)


(** [return_error] builds, for every message, a seven-word array that reads
    back as [{error, Msg}] with the whole message. *)
Theorem return_error_round_trip msg w :
  (Z.of_nat (String.length msg) < 2 ^ 64)%Z ->
  let r := (return_error msg w).1 in
  r.2 = 7 /\ length (elems r.1) = 7 /\
  decode (elems r.1) = Some (TTuple [TAtom "error"; TString msg]).
Proof.
  intros Hlen r.
  destruct (return_error_words msg w) as (_ & Hws & Hn).
  fold r in Hws, Hn. rewrite Hws. split; [exact Hn |]. split; [reflexivity |].
  apply decode_error_words, Hlen.
Qed.

Lemma return_error_round_trip_witness :
  let r := (return_error "database is locked" (boot 7 Examples.idle)).1 in
  r.2 = 7 /\ length (elems r.1) = 7 /\
  decode (elems r.1) = Some (TTuple [TAtom "error"; TString "database is locked"]).
Proof.
  apply (return_error_round_trip "database is locked" (boot 7 Examples.idle)).
  reflexivity.
Defined.

(** ** Dispatch: [control] and [unknown] *)

Section Control.

Variable relocates : block -> nat -> bool.
Variable prepare : sqlite3 -> string -> Z * option sqlite3_stmt * sqlite3.

(** The command code of "execute SQL", from [sqlite3_drv.h]. *)
Variable CMD_SQL_EXEC : Z.

(** The array of [unknown]; it lives on the stack. *)
Definition unknown_spec : list ErlDrvTermData :=
  [Tag ERL_DRV_ATOM; Atom "error"; Tag ERL_DRV_ATOM; Atom "uknown_command";
   Tag ERL_DRV_TUPLE; Num 2].

Definition unknown (command : string) : M Z :=
  let* port := gets drv_port in
  driver_output_term port unknown_spec (length unknown_spec).

Definition control (command : Z) (buf : string) : M Z :=
  let* _ := (if decide (command = CMD_SQL_EXEC)
             then sql_exec relocates prepare buf
             else unknown buf) in
  ret 0%Z.

(** The emulator's calls of [control], one command after the other. *)
Definition serve (commands : list (Z * string)) : M unit :=
  for_each commands (fun c _ => let* _ := control c.1 c.2 in ret tt) tt.

(** What [control] hands to the port for command [c] when the connection
    is in state [d], and the state it leaves the connection in. *)
Definition answers (port : ErlDrvPort) (d : sqlite3) (c : Z * string)
    (dl : delivery) (d_next : sqlite3) : Prop :=
  to_port dl = port /\
  if decide (c.1 = CMD_SQL_EXEC) then
    let '(result, o, d1) := prepare d c.2 in
    if decide (result = SQLITE_OK) then
      match o with
      | Some s => encoded port s (sent dl) /\ d_next = stmt_db_after s
      | None => sent dl = error_words (errmsg d1) /\ d_next = d1
      end
    else sent dl = error_words (errmsg d1) /\ d_next = d1
  else sent dl = unknown_spec /\ d_next = d.

(** The same for a run of commands: the i-th array answers the i-th command
    in the state the commands before it left. *)
Fixpoint answered (port : ErlDrvPort) (d : sqlite3) (cs : list (Z * string))
    (dls : list delivery) (d_end : sqlite3) : Prop :=
  match cs, dls with
  | [], [] => d_end = d
  | c :: cs, dl :: dls =>
      exists d1, answers port d c dl d1 /\ answered port d1 cs dls d_end
  | _, _ => False
  end.

(** *** A text without a statement *)

Lemma sql_exec_async_null_words me w :
  wp (sql_exec_async relocates (fresh_command me None)) w (fun t w' =>
    port_out w' = port_out w /\ drv_port w' = drv_port w /\ db w' = db w /\
    elems (dataset t) = error_words (errmsg (db w)) /\ term_count t = 7 /\
    statement t = None).
Proof.
  unfold sql_exec_async, fresh_command, stmt_of. cbn [statement fmap option_fmap option_map
    sqlite3_column_count from_option term_count row_count self].
  apply wp_bind, wp_gets.
  wp_step grow_dataset_words. intros l1 w1 (Hf1 & _).
  rewrite decide_False by lia.
  apply wp_bind, wp_ret, wp_bind, wp_modify.
  apply wp_bind, wp_ret. apply wp_bind, wp_ret.
  rewrite decide_False by discriminate.
  rewrite decide_True by discriminate.
  apply wp_bind, wp_gets.
  wp_step return_error_words. intros [spec n] we (Hfe & Hspec & Hn).
  apply wp_ret. cbn [fst snd dataset term_count statement] in *.
  destruct Hf1 as (? & ? & ? & ? & ?), Hfe as (? & ? & ? & ? & ?).
  cbn [port_out drv_port db stderr drv_async_handle set_stderr] in *.
  split; [congruence |]. split; [congruence |]. split; [congruence |].
  split; [| split; [exact Hn | reflexivity]].
  rewrite Hspec. f_equal. f_equal. congruence.
Qed.

Lemma sql_exec_null command d' w :
  prepare (db w) command = (SQLITE_OK, None, d') ->
  wp (sql_exec relocates prepare command) w (fun r w' =>
    r = 0%Z /\
    port_out w' = port_out w ++ [Delivery (drv_port w) (error_words (errmsg d')) []] /\
    drv_port w' = drv_port w /\ db w' = d').
Proof.
  intros Hprep. unfold sql_exec, sqlite3_prepare_v2.
  apply wp_bind, wp_bind, wp_gets. rewrite Hprep.
  apply wp_bind, wp_modify.
  rewrite decide_True by reflexivity.
  apply wp_ret.
  rewrite decide_False by (intros H; apply H; reflexivity).
  apply wp_bind. unfold wp at 1. cbn [fst snd].
  apply wp_bind.
  eapply wp_mono; [exact (sql_exec_async_null_words _ _) |].
  intros t w2 (Hpo & Hdp & Hdb & Hws & Htc & _).
  assert (Htc' : term_count t = length (elems (dataset t))) by (rewrite Htc, Hws; reflexivity).
  wp_step (ready_async_io t w2 Htc'). intros ? w3 (Hpo3 & Hdb3 & Hdp3).
  apply wp_ret.
  change (port_out (alloc Command (set_db d' w)).2) with (port_out w) in Hpo.
  change (drv_port (alloc Command (set_db d' w)).2) with (drv_port w) in Hdp.
  change (db (alloc Command (set_db d' w)).2) with d' in Hdb, Hws.
  split; [reflexivity |].
  split; [| split; congruence].
  rewrite Hpo3, Hpo, Hws, Hdp. reflexivity.
Qed.

Lemma sql_exec_null_memory command d' w :
  heap_ok w ->
  prepare (db w) command = (SQLITE_OK, None, d') ->
  wp (sql_exec relocates prepare command) w (fun _ w' =>
    bad_frees w' = bad_frees w /\ heap_ok w' /\
    exists d, (d ∉ live w) /\ live w' = live w ∪ {[ d ]}).
Proof.
  intros Hok Hprep. unfold sql_exec, sqlite3_prepare_v2.
  apply wp_bind, wp_bind, wp_gets. rewrite Hprep.
  apply wp_bind, wp_modify.
  rewrite decide_True by reflexivity.
  set (w0 := set_db d' w).
  assert (Hok0 : heap_ok w0) by exact Hok.
  assert (Hlive0 : live w0 = live w) by reflexivity.
  assert (Hbad0 : bad_frees w0 = bad_frees w) by reflexivity.
  clearbody w0.
  apply wp_ret.
  rewrite decide_False by (intros H; apply H; reflexivity).
  wp_step (alloc_live Command w0 Hok0). intros me w2 (Hme & Hlive2 & Hok2 & Hbad2).
  wp_step (sql_exec_async_memory relocates
             (AsyncCommand me None null 0 0 None null 0) w2 Hok2).
  intros t w3 (Hbad3 & Hself & Hstmt & lost & Hholds & Hlost).
  cbn [self statement stmt_of last_code fmap option_fmap option_map from_option]
    in Hself, Hstmt, Hlost.
  destruct Hlost as [(Hdone & _) | (_ & d & Hd & ->)]; [discriminate |].
  apply wp_bind. unfold ready_async.
  apply wp_bind, wp_gets. apply wp_bind.
  unfold wp at 1, driver_output_term. cbn [fst snd].
  match goal with |- wp _ ?x _ =>
    assert (Hholds4 : holds (live w2 ∪ {[ d ]}) (locals_of t) x)
      by (apply (holds_same_heap _ _ w3); [reflexivity | reflexivity | exact Hholds]);
    assert (Hbad4 : bad_frees x = bad_frees w3) by reflexivity;
    generalize dependent x end.
  intros w4 Hholds4 Hbad4.
  apply wp_bind, wp_modify.
  match goal with |- wp _ ?x _ =>
    assert (Hholds5 : holds (live w2 ∪ {[ d ]}) (locals_of t) x)
      by (apply (holds_same_heap _ _ w4); [reflexivity | reflexivity | exact Hholds4]);
    assert (Hbad5 : bad_frees x = bad_frees w4) by reflexivity;
    generalize dependent x end.
  intros w5 Hholds5 Hbad5.
  eapply wp_mono.
  { apply (sql_free_async_memory relocates (live w2 ∪ {[ d ]}) t w5 Hholds5);
      rewrite Hstmt, Hself; cbn [at_most fmap option_fmap option_map];
      [rewrite Hlive2; clear; set_solver | clear; set_solver]. }
  intros ? w6 (Hlive6 & Hok6 & Hbad6).
  apply wp_ret. split; [congruence |]. split; [exact Hok6 |].
  rewrite Hstmt, Hself in Hlive6. cbn [at_most fmap option_fmap option_map] in Hlive6.
  exists d. rewrite Hlive2, Hlive0 in Hd.
  split; [clear -Hd; set_solver |].
  rewrite Hlive6, Hlive2, Hlive0. rewrite Hlive0 in Hme.
  clear -Hd Hme. apply set_eq. intros x. set_solver.
Qed.

(** *** Every command *)

Lemma unknown_run command w :
  unknown command w =
  (1%Z, set_port_out (port_out w ++ [Delivery (drv_port w) unknown_spec []]) w).
Proof. reflexivity. Qed.

Lemma sql_exec_compiled_port command s d' w :
  prepare (db w) command = (SQLITE_OK, Some s, d') ->
  wp (sql_exec relocates prepare command) w (fun _ w' => drv_port w' = drv_port w).
Proof.
  intros Hprep. unfold sql_exec, sqlite3_prepare_v2.
  apply wp_bind, wp_bind, wp_gets. rewrite Hprep.
  apply wp_bind, wp_modify.
  rewrite decide_True by reflexivity.
  apply wp_bind, wp_ret.
  rewrite decide_False by (intros H; apply H; reflexivity).
  apply wp_bind. unfold wp at 1. cbn [fst snd].
  apply wp_bind.
  eapply wp_mono; [exact (sql_exec_async_words relocates _ _ s _) |].
  intros t w2 (_ & Hdp & _ & _ & Htc & _).
  wp_step (ready_async_io t w2 Htc). intros ? w3 (_ & _ & Hdp3).
  apply wp_ret. rewrite Hdp3, Hdp. reflexivity.
Qed.

(** What a command hands to the port, whatever it is. *)
Lemma control_answers command buf w :
  wp (control command buf) w (fun r w' =>
    r = 0%Z /\ drv_port w' = drv_port w /\
    exists dl, port_out w' = port_out w ++ [dl] /\
               answers (drv_port w) (db w) (command, buf) dl (db w')).
Proof.
  unfold control, answers. cbn [fst snd]. apply wp_bind.
  destruct (decide (command = CMD_SQL_EXEC)) as [_ | _].
  - destruct (prepare (db w) buf) as [[result o] d'] eqn:Hprep.
    destruct (decide (result = SQLITE_OK)) as [-> | Hne].
    + destruct o as [s |].
      * eapply wp_mono.
        { apply wp_and;
            [ apply (sql_exec_compiled relocates prepare buf s d' w Hprep)
            | apply (sql_exec_compiled_port buf s d' w Hprep) ]. }
        intros r w' ((dl & Hout & Hto & Henc & Hdb) & Hport).
        apply wp_ret. split; [reflexivity |]. split; [exact Hport |].
        exists dl. repeat split; assumption.
      * eapply wp_mono; [apply (sql_exec_null buf d' w Hprep) |].
        intros r w' (_ & Hout & Hport & Hdb).
        apply wp_ret. split; [reflexivity |]. split; [exact Hport |].
        eexists. split; [exact Hout |]. repeat split. exact Hdb.
    + unfold wp.
      rewrite (sql_exec_rejected relocates prepare buf result o d' w Hprep Hne).
      cbn [fst snd]. apply wp_ret.
      split; [reflexivity |]. split; [reflexivity |].
      eexists. split; [reflexivity |]. repeat split.
  - unfold wp. rewrite unknown_run. cbn [fst snd]. apply wp_ret.
    split; [reflexivity |]. split; [reflexivity |].
    eexists. split; [reflexivity |]. repeat split.
Qed.

(** What a command does to the port and to memory, whatever it is. *)
Lemma control_run command buf w :
  heap_ok w ->
  wp (control command buf) w (fun r w' =>
    r = 0%Z /\
    (exists dl, port_out w' = port_out w ++ [dl] /\ to_port dl = drv_port w) /\
    drv_port w' = drv_port w /\
    bad_frees w' = bad_frees w /\ heap_ok w' /\ live w ⊆ live w').
Proof.
  intros Hok. unfold control. apply wp_bind.
  destruct (decide (command = CMD_SQL_EXEC)) as [_ | _].
  - destruct (prepare (db w) buf) as [[result o] d'] eqn:Hprep.
    destruct (decide (result = SQLITE_OK)) as [-> | Hne].
    + destruct o as [s |].
      * eapply wp_mono.
        { apply wp_and; [apply wp_and |];
            [ apply (sql_exec_compiled relocates prepare buf s d' w Hprep)
            | apply (sql_exec_memory relocates prepare buf s d' w Hok Hprep)
            | apply (sql_exec_compiled_port buf s d' w Hprep) ]. }
        intros r w' (((dl & Hout & Hto & _ & _) & Hbad & Hok' & Hlive) & Hport).
        apply wp_ret. split; [reflexivity |].
        split; [exists dl; split; assumption |].
        split; [exact Hport | split; [exact Hbad | split; [exact Hok' |]]].
        destruct Hlive as [(_ & ->) | (_ & d & _ & ->)]; clear; set_solver.
      * eapply wp_mono.
        { apply wp_and;
            [ apply (sql_exec_null buf d' w Hprep)
            | apply (sql_exec_null_memory buf d' w Hok Hprep) ]. }
        intros r w' ((_ & Hout & Hport & _) & Hbad & Hok' & d & _ & Hlive).
        apply wp_ret. split; [reflexivity |].
        split; [eexists; split; [exact Hout | reflexivity] |].
        split; [exact Hport | split; [exact Hbad | split; [exact Hok' |]]].
        rewrite Hlive. clear. set_solver.
    + unfold wp.
      destruct (sql_exec_rejected_live relocates prepare buf result o d' w
                  Hok Hprep Hne) as (Hlive & Hbad & Hok').
      rewrite (sql_exec_rejected relocates prepare buf result o d' w Hprep Hne) in *.
      cbn [fst snd] in *. apply wp_ret.
      split; [reflexivity |]. split; [eexists; split; reflexivity |].
      split; [reflexivity |]. split; [exact Hbad | split; [exact Hok' |]].
      rewrite Hlive. clear. set_solver.
  - unfold wp. rewrite unknown_run. cbn [fst snd]. apply wp_ret.
    split; [reflexivity |]. split; [eexists; split; reflexivity |].
    split; [reflexivity |]. split; [reflexivity |]. split; [exact Hok | reflexivity].
Qed.

(** The same for a run of commands: the arrays pile up in command order,
    each built in the connection state its predecessors left, and memory
    stays sound. *)
Lemma serve_run commands : forall w,
  heap_ok w ->
  wp (serve commands) w (fun _ w' =>
    (exists dls, port_out w' = port_out w ++ dls /\
                 answered (drv_port w) (db w) commands dls (db w')) /\
    drv_port w' = drv_port w /\
    bad_frees w' = bad_frees w /\ heap_ok w' /\ live w ⊆ live w').
Proof.
  unfold serve. induction commands as [| [c buf] commands IH]; intros w Hok; cbn [for_each].
  - apply wp_ret. split; [exists []; split; [by rewrite app_nil_r | reflexivity] |].
    split; [reflexivity |]. split; [reflexivity |]. split; [exact Hok | reflexivity].
  - apply wp_bind, wp_bind. eapply wp_mono.
    { apply wp_and; [apply (control_answers c buf w) | apply (control_run c buf w Hok)]. }
    intros r w1 ((_ & _ & dl & Hout1 & Hans) & _ & _ & Hport1 & Hbad1 & Hok1 & Hlive1).
    apply wp_ret. eapply wp_mono; [apply (IH w1 Hok1) |].
    intros ? w2 ((dls & Hout2 & Hrest) & Hport2 & Hbad2 & Hok2 & Hlive2).
    split; [exists (dl :: dls); split |].
    + rewrite Hout2, Hout1, <- app_assoc. reflexivity.
    + exists (db w1). split; [exact Hans |]. rewrite <- Hport1. exact Hrest.
    + split; [congruence |]. split; [congruence |]. split; [exact Hok2 |].
      clear -Hlive1 Hlive2. set_solver.
Qed.

Lemma answered_length port d cs : forall dls d_end,
  answered port d cs dls d_end -> length dls = length cs.
Proof.
  revert d. induction cs as [| c cs IH]; intros d [| dl dls] d_end H;
    cbn in H; try contradiction; [reflexivity |].
  destruct H as (d1 & _ & H). cbn. f_equal. exact (IH _ _ _ H).
Qed.

End Control.

(** A command code other than "execute SQL" is answered with the fixed reply
    [{error, uknown_command}], spelled so, sent to the driver's port; nothing
    else changes: no block is allocated, nothing is logged, the engine is not
    called. *)
Theorem unknown_command_reply relocates prepare CMD_SQL_EXEC command buf w :
  command <> CMD_SQL_EXEC ->
  control relocates prepare CMD_SQL_EXEC command buf w =
    (0%Z, set_port_out (port_out w ++ [Delivery (drv_port w) unknown_spec []]) w) /\
  decode unknown_spec = Some (TTuple [TAtom "error"; TAtom "uknown_command"]).
Proof.
  intros Hne. split; [| reflexivity].
  unfold control, bind. rewrite decide_False by exact Hne.
  rewrite unknown_run. reflexivity.
Qed.

Lemma unknown_command_reply_witness :
  control Examples.moving Examples.rejects 2 7 "ping" (boot 7 Examples.idle) =
    (0%Z, set_port_out ([] ++ [Delivery 7 unknown_spec []]) (boot 7 Examples.idle)) /\
  decode unknown_spec = Some (TTuple [TAtom "error"; TAtom "uknown_command"]).
Proof.
  apply (unknown_command_reply Examples.moving Examples.rejects 2 7 "ping"
           (boot 7 Examples.idle)).
  discriminate.
Defined.

(** A text that compiles to no statement (empty, or a comment) takes the
    whole path with a NULL statement: the step is a misuse, the reply is
    [{error, Msg}] with the connection's message, [sqlite3_finalize] is not
    called, and the two-word array written before the step stays
    allocated. *)
Theorem empty_text_is_answered_with_error relocates prepare command d' w :
  heap_ok w ->
  prepare (db w) command = (SQLITE_OK, None, d') ->
  (Z.of_nat (String.length (errmsg d')) < 2 ^ 64)%Z ->
  let w' := (sql_exec relocates prepare command w).2 in
  port_out w' = port_out w ++ [Delivery (drv_port w) (error_words (errmsg d')) []] /\
  decode (error_words (errmsg d')) = Some (TTuple [TAtom "error"; TString (errmsg d')]) /\
  (exists d, (d ∉ live w) /\ live w' = live w ∪ {[ d ]}) /\
  bad_frees w' = bad_frees w.
Proof.
  intros Hok Hprep Hlen w'.
  destruct (sql_exec_null relocates prepare command d' w Hprep) as (_ & Hout & _ & _).
  destruct (sql_exec_null_memory relocates prepare command d' w Hok Hprep)
    as (Hbad & _ & Hleak).
  split; [exact Hout |]. split; [apply decode_error_words, Hlen |].
  split; assumption.
Qed.

Lemma empty_text_is_answered_with_error_witness :
  let w' := (sql_exec Examples.moving (fun d _ => (SQLITE_OK, None, d)) ""
               (boot 7 Examples.idle)).2 in
  port_out w' = [] ++ [Delivery 7 (error_words "not an error") []] /\
  decode (error_words "not an error") = Some (TTuple [TAtom "error"; TString "not an error"]) /\
  (exists d, (d ∉ live (boot 7 Examples.idle)) /\
             live w' = live (boot 7 Examples.idle) ∪ {[ d ]}) /\
  bad_frees w' = 0.
Proof.
  apply (empty_text_is_answered_with_error Examples.moving
           (fun d _ => (SQLITE_OK, None, d)) "" Examples.idle (boot 7 Examples.idle)).
  - apply boot_heap_ok.
  - reflexivity.
  - reflexivity.
Defined.

(** ** Integer cells that fit an [int] *)

Definition int_cells (vals : list Z) : list cell := SQL_INTEGER <$> vals.
Definition int_terms (vals : list Z) : list term := TInt <$> vals.

Lemma int_cells_terms (vals : list Z) ts :
  Forall CInt.int_range vals ->
  Forall2 cell_term (int_cells vals) ts -> ts = int_terms vals.
Proof.
  revert ts. induction vals as [| v vals IH]; intros ts Hr Hts.
  - apply Forall2_nil_inv_l in Hts. by subst.
  - apply Forall_cons in Hr as [Hv Hr].
    apply Forall2_cons_inv_l in Hts as (t & ts' & Ht & Hts' & ->).
    cbn in Ht. subst t. rewrite (CInt.to_int_id v Hv).
    cbn. f_equal. apply IH; assumption.
Qed.

Lemma int_rows_terms (vals : list (list Z)) tss :
  Forall (Forall CInt.int_range) vals ->
  Forall2 (Forall2 cell_term) (int_cells <$> vals) tss ->
  tss = int_terms <$> vals.
Proof.
  revert tss. induction vals as [| r vals IH]; intros tss Hr Htss.
  - apply Forall2_nil_inv_l in Htss. by subst.
  - apply Forall_cons in Hr as [Hv Hr].
    apply Forall2_cons_inv_l in Htss as (ts & tss' & Hts & Htss' & ->).
    cbn. f_equal; [apply int_cells_terms; assumption | apply IH; assumption].
Qed.

(** A result set of integers that all fit a 32-bit [int] comes back exactly:
    the reply reads [{Port, [{columns, Names}, {rows, Rows}]}] where [Rows]
    holds, row by row and column by column, the very numbers of the cells. *)
Theorem int_rows_round_trip relocates prepare command s d' w (vals : list (list Z)) :
  prepare (db w) command = (SQLITE_OK, Some s, d') ->
  0 < length (stmt_columns s) ->
  stmt_final s = SQLITE_DONE ->
  stmt_rows s = int_cells <$> vals ->
  Forall (fun r => length r = length (stmt_columns s)) vals ->
  Forall (Forall CInt.int_range) vals ->
  (Z.of_nat (length (stmt_columns s)) < 2 ^ 31)%Z ->
  (Z.of_nat (length (stmt_rows s)) < 2 ^ 31)%Z ->
  exists dl,
    port_out (sql_exec relocates prepare command w).2 = port_out w ++ [dl] /\
    decode (sent dl) =
      Some (rows_reply (drv_port w) (stmt_columns s) (int_terms <$> vals)).
Proof.
  intros Hprep Hcc Hdone Hrows Hlen Hrange Hccb Hrb.
  assert (Hfull : Forall (full_row (length (stmt_columns s))) (stmt_rows s)).
  { rewrite Hrows. apply Forall_fmap. eapply Forall_impl; [exact Hlen |].
    intros r Hr. split; [unfold int_cells; by rewrite length_fmap |].
    apply Forall_fmap, Forall_true. intros v. discriminate. }
  destruct (sql_exec_compiled relocates prepare command s d' w Hprep)
    as (dl & Hout & _ & Henc & _).
  unfold encoded in Henc.
  rewrite decide_False in Henc by (rewrite Hdone; discriminate).
  rewrite decide_False in Henc by (intros H; apply H, Hdone).
  destruct Henc as (rws & Hrws & Hsent).
  destruct (decode_rows_reply (drv_port w) s rws Hcc Hccb Hrb Hrws Hfull)
    as (tss & Htss & Hdec).
  exists dl. split; [exact Hout |]. rewrite Hsent.
  rewrite Hrows in Htss. rewrite (int_rows_terms vals tss Hrange Htss) in Hdec.
  exact Hdec.
Qed.

Lemma int_rows_round_trip_witness :
  exists dl,
    port_out (Examples.run Examples.moving Examples.select_42) = [] ++ [dl] /\
    decode (sent dl) = Some (rows_reply 7 ["col1"%string] (int_terms <$> [[42%Z]])).
Proof.
  apply (int_rows_round_trip Examples.moving (Examples.compiles Examples.select_42)
           "SELECT 42 AS col1" Examples.select_42 Examples.idle (boot 7 Examples.idle)
           [[42%Z]]).
  - reflexivity.
  - cbn. lia.
  - reflexivity.
  - reflexivity.
  - repeat constructor.
  - repeat constructor; cbn; lia.
  - reflexivity.
  - reflexivity.
Defined.

(** ** NULL cells and the shape of the array *)

(** The height of the emulator's stack after reading an array, counted
    without looking at the terms: a value word adds one, a tuple or list
    word of [k] takes [k] and adds one. *)
Fixpoint stack_height (ws : list ErlDrvTermData) (n : Z) : option Z :=
  match ws with
  | [] => Some n
  | Tag ERL_DRV_NIL :: r => stack_height r (n + 1)
  | Tag ERL_DRV_ATOM :: Atom _ :: r => stack_height r (n + 1)
  | Tag ERL_DRV_INT :: Num _ :: r => stack_height r (n + 1)
  | Tag ERL_DRV_PORT :: PortId _ :: r => stack_height r (n + 1)
  | Tag ERL_DRV_FLOAT :: PtrDouble _ _ :: r => stack_height r (n + 1)
  | Tag ERL_DRV_BINARY :: PtrBinary _ :: Num _ :: Num _ :: r => stack_height r (n + 1)
  | Tag ERL_DRV_STRING :: PtrChars _ :: Num _ :: r => stack_height r (n + 1)
  | Tag ERL_DRV_TUPLE :: Num k :: r => stack_height r (n - Z.of_nat (Z.to_nat k) + 1)
  | Tag ERL_DRV_LIST :: Num k :: r => stack_height r (n - Z.of_nat (Z.to_nat k) + 1)
  | _ => None
  end.

Lemma pop_length n st elems rest :
  pop n st = Some (elems, rest) -> length st = n + length rest.
Proof.
  unfold pop. destruct (decide (n <= length st)) as [Hn |]; [| discriminate].
  intros [= _ <-]. rewrite length_drop. lia.
Qed.

Lemma reduce_tuple_height k st st1 :
  reduce_tuple k st = Some st1 ->
  Z.of_nat (length st1) = (Z.of_nat (length st) - Z.of_nat (Z.to_nat k) + 1)%Z.
Proof.
  unfold reduce_tuple. destruct (pop (Z.to_nat k) st) as [[elems rest] |] eqn:E;
    [| discriminate].
  cbn. intros [= <-]. apply pop_length in E. cbn [length]. lia.
Qed.

Lemma reduce_list_height k st st1 :
  reduce_list k st = Some st1 ->
  Z.of_nat (length st1) = (Z.of_nat (length st) - Z.of_nat (Z.to_nat k) + 1)%Z.
Proof.
  unfold reduce_list. destruct st as [| tl st']; [discriminate |].
  destruct (pop (Z.to_nat k - 1) st') as [[elems rest] |] eqn:E; [| discriminate].
  cbn. destruct (decide (1 <= k)%Z) as [Hk |]; [| discriminate].
  intros [= <-]. apply pop_length in E. cbn [length]. lia.
Qed.

Lemma read_terms_height : forall n ws, length ws <= n -> forall st st',
  read_terms ws st = Some st' ->
  stack_height ws (Z.of_nat (length st)) = Some (Z.of_nat (length st')).
Proof.
  assert (Hpush : forall (t : term) st,
            (Z.of_nat (length st) + 1)%Z = Z.of_nat (length (t :: st))).
  { intros t st. cbn [length]. lia. }
  induction n as [| n IH]; intros ws Hn st st' H.
  - destruct ws; [| cbn in Hn; lia]. cbn in *. by injection H as <-.
  - destruct ws as [| w1 r]; [cbn in *; by injection H as <- |].
    destruct w1 as [t | | | | | | |]; try discriminate H.
    destruct t.
    + cbn in H |- *. rewrite (Hpush TNil). apply IH; [cbn in Hn; lia | exact H].
    + destruct r as [| [] r]; try discriminate H.
      cbn in H |- *. rewrite (Hpush (TAtom name)). apply IH; [cbn in Hn; lia | exact H].
    + destruct r as [| [] r]; try discriminate H.
      cbn [read_terms stack_height] in H |- *.
      rewrite (Hpush (TInt (CInt.signed 64 n0))). apply IH; [cbn in Hn; lia | exact H].
    + destruct r as [| [] r]; try discriminate H.
      cbn in H |- *. rewrite (Hpush (TPort p)). apply IH; [cbn in Hn; lia | exact H].
    + destruct r as [| [] [| [] [| [] r]]]; try discriminate H.
      cbn in H |- *. rewrite (Hpush (TBinaryAt b n0 n1)).
      apply IH; [cbn in Hn; lia | exact H].
    + destruct r as [| [] [| [] r]]; try discriminate H.
      cbn [read_terms stack_height] in H |- *.
      rewrite (Hpush (TString (substring_chars (Z.to_nat n0) s))).
      apply IH; [cbn in Hn; lia | exact H].
    + destruct r as [| [] r]; try discriminate H.
      cbn [read_terms stack_height] in H |- *.
      destruct (reduce_tuple n0 st) as [st1 |] eqn:E; [| discriminate H].
      cbn in H. rewrite <- (reduce_tuple_height _ _ _ E).
      apply IH; [cbn in Hn; lia | exact H].
    + destruct r as [| [] r]; try discriminate H.
      cbn [read_terms stack_height] in H |- *.
      destruct (reduce_list n0 st) as [st1 |] eqn:E; [| discriminate H].
      cbn in H. rewrite <- (reduce_list_height _ _ _ E).
      apply IH; [cbn in Hn; lia | exact H].
    + destruct r as [| [] r]; try discriminate H.
      cbn in H |- *. rewrite (Hpush (TFloatAt b i)). apply IH; [cbn in Hn; lia | exact H].
Qed.

(** An array that is a term leaves a stack of height one. *)
Lemma decode_height ws t : decode ws = Some t -> stack_height ws 0 = Some 1%Z.
Proof.
  unfold decode. destruct (read_terms ws []) as [[| t0 [| ? ?]] |] eqn:E; try discriminate.
  intros _. apply (read_terms_height (length ws) ws (le_n _)) in E. exact E.
Qed.

Definition is_null (c : cell) : bool :=
  match c with
  | SQL_NULL => true
  | _ => false
  end.

(** The NULL cells of a row, and of a result set. *)
Definition nulls (row : list cell) : nat := length (List.filter is_null row).
Definition all_nulls (rows : list (list cell)) : nat := list_sum (nulls <$> rows).

Lemma all_nulls_cons r rows : all_nulls (r :: rows) = nulls r + all_nulls rows.
Proof. reflexivity. Qed.

Lemma height_atom_words names rest n :
  stack_height (atom_words names ++ rest) n
  = stack_height rest (n + Z.of_nat (length names)).
Proof.
  revert n. induction names as [| a names IH]; intros n.
  - cbn. f_equal. lia.
  - cbn [atom_words flat_map app stack_height length]. fold (atom_words names).
    rewrite IH. f_equal. lia.
Qed.

Lemma height_cell_words c ws rest n :
  cell_words c ws ->
  stack_height (ws ++ rest) n
  = stack_height rest (n + (if is_null c then 0 else 1)).
Proof.
  destruct c; cbn [cell_words is_null].
  - intros ->. reflexivity.
  - intros (b & i & ->). reflexivity.
  - intros (b & ->). reflexivity.
  - intros (b & ->). reflexivity.
  - intros ->. cbn. f_equal. lia.
Qed.

Lemma height_cells_words cells wss rest :
  Forall2 cell_words cells wss -> forall n,
  stack_height (concat wss ++ rest) n
  = stack_height rest (n + Z.of_nat (length cells) - Z.of_nat (nulls cells)).
Proof.
  induction 1 as [| c ws cells wss Hc _ IH]; intros n.
  - cbn. f_equal. lia.
  - cbn [concat]. rewrite <- app_assoc, (height_cell_words c ws _ n Hc), IH.
    f_equal. unfold nulls. cbn [List.filter length].
    destruct (is_null c); cbn [length]; lia.
Qed.

Lemma height_row_words column_count row ws rest n :
  (Z.of_nat column_count < 2 ^ 64)%Z ->
  length row = column_count ->
  row_words column_count row ws ->
  stack_height (ws ++ rest) n = stack_height rest (n + 1 - Z.of_nat (nulls row)).
Proof.
  intros Hcc Hlen (wss & Hcells & ->).
  assert (Hrow : column row <$> seq 0 column_count = row).
  { rewrite <- Hlen. apply nth_seq_all. }
  rewrite Hrow in Hcells.
  rewrite <- app_assoc, (height_cells_words _ _ _ Hcells).
  unfold word_of. rewrite unsigned_small by lia.
  cbn [app stack_height]. f_equal. lia.
Qed.

Lemma height_rows_words column_count rows rws rest :
  (Z.of_nat column_count < 2 ^ 64)%Z ->
  Forall (fun r => length r = column_count) rows ->
  Forall2 (row_words column_count) rows rws -> forall n,
  stack_height (concat rws ++ rest) n
  = stack_height rest (n + Z.of_nat (length rows) - Z.of_nat (all_nulls rows)).
Proof.
  intros Hcc Hlen Hrws. induction Hrws as [| r ws rows rws Hr _ IH]; intros n.
  - cbn. f_equal. lia.
  - apply Forall_cons in Hlen as [Hr0 Hlen].
    cbn [concat]. rewrite <- app_assoc, (height_row_words _ r ws _ n Hcc Hr0 Hr).
    rewrite (IH Hlen). f_equal. rewrite all_nulls_cons. cbn [length]. lia.
Qed.

(** The array of a reply with columns leaves a stack one high less the
    number of NULL cells. *)
Lemma height_done_words port s rws :
  0 < length (stmt_columns s) ->
  (Z.of_nat (length (stmt_columns s)) < 2 ^ 31)%Z ->
  (Z.of_nat (length (stmt_rows s)) < 2 ^ 31)%Z ->
  Forall (fun r => length r = length (stmt_columns s)) (stmt_rows s) ->
  Forall2 (row_words (length (stmt_columns s))) (stmt_rows s) rws ->
  stack_height (done_words port s rws) 0
  = Some (1 - Z.of_nat (all_nulls (stmt_rows s)))%Z.
Proof.
  intros Hcc Hccb Hrb Hlen Hrws.
  unfold done_words, ending_words, header_words, rows_end, word_of.
  rewrite !decide_True by exact Hcc.
  cbn [app stack_height].
  rewrite <- !app_assoc, height_atom_words.
  rewrite !unsigned_small by lia.
  cbn [app stack_height].
  assert (Hcc64 : (Z.of_nat (length (stmt_columns s)) < 2 ^ 64)%Z) by lia.
  rewrite (height_rows_words _ _ _ _ Hcc64 Hlen Hrws).
  cbn [stack_height]. f_equal. lia.
Qed.

Lemma nulls_none row : nulls row = 0 -> Forall (fun c => c <> SQL_NULL) row.
Proof.
  unfold nulls. induction row as [| c row IH]; intros H; [constructor |].
  cbn [List.filter] in H. destruct c; cbn [is_null length] in H; try discriminate H;
    (constructor; [discriminate | exact (IH H)]).
Qed.

Lemma all_nulls_none column_count rows :
  Forall (fun r => length r = column_count) rows ->
  all_nulls rows = 0 -> Forall (full_row column_count) rows.
Proof.
  induction 1 as [| r rows Hr _ IH]; intros H; [constructor |].
  rewrite all_nulls_cons in H.
  constructor; [split; [exact Hr | apply nulls_none; lia] | apply IH; lia].
Qed.

(** The array of a reply with columns is a term exactly when no cell of the
    result set is NULL.  With any NULL cell the tuple headers take more from
    the stack than the cells put there, and [driver_output_term] is handed
    an array it cannot read. *)
Theorem reply_is_a_term_iff_no_null relocates prepare command s d' w :
  prepare (db w) command = (SQLITE_OK, Some s, d') ->
  0 < length (stmt_columns s) ->
  stmt_final s = SQLITE_DONE ->
  Forall (fun r => length r = length (stmt_columns s)) (stmt_rows s) ->
  (Z.of_nat (length (stmt_columns s)) < 2 ^ 31)%Z ->
  (Z.of_nat (length (stmt_rows s)) < 2 ^ 31)%Z ->
  exists dl,
    port_out (sql_exec relocates prepare command w).2 = port_out w ++ [dl] /\
    (is_Some (decode (sent dl)) <-> all_nulls (stmt_rows s) = 0).
Proof.
  intros Hprep Hcc Hdone Hlen Hccb Hrb.
  destruct (sql_exec_compiled relocates prepare command s d' w Hprep)
    as (dl & Hout & _ & Henc & _).
  unfold encoded in Henc.
  rewrite decide_False in Henc by (rewrite Hdone; discriminate).
  rewrite decide_False in Henc by (intros H; apply H, Hdone).
  destruct Henc as (rws & Hrws & Hsent).
  exists dl. split; [exact Hout |]. rewrite Hsent. split.
  - intros [t Ht]. apply decode_height in Ht.
    rewrite (height_done_words _ s rws Hcc Hccb Hrb Hlen Hrws) in Ht.
    injection Ht as Ht. lia.
  - intros Hnone.
    destruct (decode_rows_reply (drv_port w) s rws Hcc Hccb Hrb Hrws
                (all_nulls_none _ _ Hlen Hnone)) as (tss & _ & Hdec).
    rewrite Hdec. by eexists.
Qed.

Lemma reply_is_a_term_iff_no_null_witness :
  exists dl,
    port_out (Examples.run Examples.in_place Examples.select_null) = [] ++ [dl] /\
    (is_Some (decode (sent dl)) <-> all_nulls [[SQL_NULL; SQL_INTEGER 3]] = 0).
Proof.
  apply (reply_is_a_term_iff_no_null Examples.in_place
           (Examples.compiles Examples.select_null) "SELECT a, b FROM t"
           Examples.select_null Examples.idle (boot 7 Examples.idle)).
  - reflexivity.
  - cbn. lia.
  - reflexivity.
  - repeat constructor.
  - reflexivity.
  - reflexivity.
Defined.

(** ** What the pointers in the array reach at handoff *)

Section Contents.

Variable relocates : block -> nat -> bool.

(** The allocator never moves a block it is asked to grow. *)
Definition stays : Prop := forall b n, relocates b n = false.

(** From [w] to [w']: every binary keeps its bytes, and, when blocks are
    never moved, every double that could be loaded still can. *)
Definition keeps (w w' : world) : Prop :=
  (forall b bs, heap w !! b = Some (Binary bs) -> heap w' !! b = Some (Binary bs)) /\
  (stays -> forall b i d,
     load_double (heap w) b i = Some d -> load_double (heap w') b i = Some d).

Lemma keeps_refl w : keeps w w.
Proof. split; [| intros _]; auto. Qed.

Lemma keeps_trans w1 w2 w3 : keeps w1 w2 -> keeps w2 w3 -> keeps w1 w3.
Proof.
  intros [Hb1 Hd1] [Hb2 Hd2]. split.
  - intros b bs H. apply Hb2, Hb1, H.
  - intros Hs b i d H. apply (Hd2 Hs), (Hd1 Hs), H.
Qed.

(** Two worlds with the same heap. *)
Lemma keeps_same_heap w w' : heap w' = heap w -> keeps w w'.
Proof. intros E. unfold keeps. rewrite E. split; [| intros _]; auto. Qed.

Lemma heap_ok_fresh w : heap_ok w -> heap w !! brk w = None.
Proof.
  intros Hok. apply not_elem_of_dom. intros Hin. apply Hok in Hin. lia.
Qed.

Lemma heap_ok_overwrite w w' b o :
  heap_ok w -> heap w' = <[b := o]> (heap w) -> is_Some (heap w !! b) ->
  brk w' = brk w -> heap_ok w'.
Proof.
  intros Hok Hh Hb Hbrk x Hx. unfold live in Hx. rewrite Hbrk, Hh in *.
  rewrite dom_insert_L in Hx. apply Hok. unfold live.
  apply elem_of_union in Hx as [Hx | Hx]; [| exact Hx].
  apply elem_of_singleton in Hx. subst x. apply elem_of_dom. exact Hb.
Qed.

(** [realloc]: what the new block holds and what happens to the others. *)
Lemma realloc_content p n fresh w :
  heap_ok w ->
  (forall b, p = Some b -> is_Some (heap w !! b)) ->
  wp (realloc relocates p n fresh) w (fun b' w' =>
    heap w' !! b' = Some (resize_object n (default fresh (p ≫= fun b => heap w !! b))) /\
    (forall x, Some x <> p -> x <> b' -> heap w' !! x = heap w !! x) /\
    (Some b' = p \/ heap w !! b' = None) /\
    (stays -> forall b, p = Some b -> b' = b) /\
    heap_ok w').
Proof.
  intros Hok Hp. pose proof (heap_ok_fresh w Hok) as Hfresh.
  assert (Hok_alloc : forall o h, dom h ⊆ dom (heap w) ->
            heap_ok (set_brk (S (brk w)) (set_heap (fun _ => <[brk w := o]> h) w))).
  { intros o h Hsub x Hx. unfold live in Hx. cbn in Hx |- *.
    rewrite dom_insert_L in Hx. apply elem_of_union in Hx as [Hx | Hx].
    - apply elem_of_singleton in Hx. lia.
    - apply Hsub, Hok in Hx. lia. }
  destruct p as [b |]; cbn [realloc mbind option_bind default].
  - destruct (Hp b eq_refl) as [o Ho]. unfold wp. rewrite Ho. cbn [default].
    destruct (relocates b n) eqn:Hmove.
    + unfold bind, free, alloc. rewrite Ho. cbn.
      assert (Hne : brk w <> b) by (intros E; rewrite E in Hfresh; congruence).
      split; [apply lookup_insert_eq |]. split; [| split; [| split]].
      * intros x Hx Hx'. rewrite lookup_insert_ne by congruence.
        apply lookup_delete_ne. congruence.
      * right. exact Hfresh.
      * intros Hs. rewrite Hs in Hmove. discriminate.
      * apply (Hok_alloc _ (delete b (heap w))). rewrite dom_delete_L.
        apply subseteq_difference_l. reflexivity.
    + cbn. split; [apply lookup_insert_eq |]. split; [| split; [| split]].
      * intros x Hx Hx'. apply lookup_insert_ne. congruence.
      * left. reflexivity.
      * intros _ b0 [= <-]. reflexivity.
      * intros x Hx. unfold live in Hx. cbn in Hx |- *. rewrite dom_insert_L in Hx.
        apply Hok. unfold live. apply elem_of_union in Hx as [Hx | Hx]; [| exact Hx].
        apply elem_of_singleton in Hx. subst x. apply elem_of_dom. by eexists.
  - unfold wp, alloc. cbn.
    split; [apply lookup_insert_eq |]. split; [| split; [| split]].
    + intros x _ Hx. apply lookup_insert_ne. congruence.
    + right. exact Hfresh.
    + intros _ b0 H. discriminate.
    + apply (Hok_alloc _ (heap w)). reflexivity.
Qed.

(** Blocks whose contents a term word can point at. *)
Definition payload (o : object) : Prop :=
  match o with
  | Binary _ | Doubles _ => True
  | _ => False
  end.

Lemma keeps_payload w w' :
  (forall x o, heap w !! x = Some o -> payload o -> heap w' !! x = Some o) ->
  keeps w w'.
Proof.
  intros H. split.
  - intros b bs Hb. exact (H b _ Hb I).
  - intros _ b i d Hd. unfold load_double in *.
    destruct (heap w !! b) as [[| ds | | | |] |] eqn:Hb; try discriminate Hd.
    rewrite (H b _ Hb I). exact Hd.
Qed.

(** What [realloc] says of any block but the one it was given. *)
Lemma others_kept (p : option block) (b' : block) w w' x o :
  (forall x, Some x <> p -> x <> b' -> heap w' !! x = heap w !! x) ->
  (Some b' = p \/ heap w !! b' = None) ->
  Some x <> p -> heap w !! x = Some o -> heap w' !! x = Some o.
Proof.
  intros Hothers Hwhere Hx Ho. rewrite Hothers; [exact Ho | exact Hx |].
  intros ->. destruct Hwhere as [E | E]; congruence.
Qed.

(** The term array is where [l] says, and the heap is in order. *)
Definition dataset_ok (l : locals) (w : world) : Prop :=
  heap_ok w /\ forall b, base (l_dataset l) = Some b -> heap w !! b = Some Words.

Lemma grow_dataset_keeps n l w :
  dataset_ok l w ->
  wp (grow_dataset relocates n l) w (fun l' w' =>
    dataset_ok l' w' /\ keeps w w' /\
    l_floats l' = l_floats l /\ l_float_count l' = l_float_count l /\
    l_binaries l' = l_binaries l /\
    forall x o, heap w !! x = Some o -> Some x <> base (l_dataset l) ->
                heap w' !! x = Some o).
Proof.
  intros [Hok Hd]. unfold grow_dataset.
  apply wp_bind. eapply wp_mono.
  { apply (realloc_content (base (l_dataset l)) (l_term_count l + n) Words w Hok).
    intros b Hb. rewrite (Hd b Hb). by eexists. }
  intros b' w' (Hnew & Hothers & Hwhere & _ & Hok'). apply wp_ret.
  assert (Hkept : forall x o, heap w !! x = Some o -> Some x <> base (l_dataset l) ->
                              heap w' !! x = Some o).
  { intros x o Ho Hx. exact (others_kept _ _ _ _ _ _ Hothers Hwhere Hx Ho). }
  split; [| split; [| repeat split; exact Hkept]].
  - split; [exact Hok' |]. cbn. intros b [= <-]. rewrite Hnew.
    destruct (base (l_dataset l)) as [d |]; cbn; [| reflexivity].
    rewrite (Hd d eq_refl). reflexivity.
  - apply keeps_payload. intros x o Ho Hp. apply (Hkept x o Ho).
    intros E. rewrite (Hd x (eq_sym E)) in Ho. injection Ho as <-. exact Hp.
Qed.

Lemma dataset_ok_put i x l w : dataset_ok l w -> dataset_ok (put i x l) w.
Proof. exact id. Qed.

(** The three arrays of the encoder are where its locals say, each of its
    kind, and the float pool has one slot per float written. *)
Definition typed (l : locals) (w : world) : Prop :=
  dataset_ok l w /\
  (forall f, l_floats l = Some f ->
     exists ds, heap w !! f = Some (Doubles ds) /\ length ds = l_float_count l) /\
  (forall a, base (l_binaries l) = Some a -> heap w !! a = Some Pointers).

Lemma typed_put i x l w : typed l w -> typed (put i x l) w.
Proof. exact id. Qed.

Lemma typed_set_row_count n l w : typed l w -> typed (set_row_count n l) w.
Proof. exact id. Qed.

Lemma grow_dataset_typed n l w :
  typed l w ->
  wp (grow_dataset relocates n l) w (fun l' w' => typed l' w' /\ keeps w w').
Proof.
  intros (Hd & Hf & Hb).
  eapply wp_mono; [apply (grow_dataset_keeps n l w Hd) |].
  intros l' w' (Hd' & Hk & Ef & Ec & Eb & Hkept).
  split; [| exact Hk]. split; [exact Hd' |]. split.
  - rewrite Ef, Ec. intros f Hfl. destruct (Hf f Hfl) as (ds & Hds & Hlen).
    exists ds. split; [| exact Hlen]. apply (Hkept f _ Hds).
    intros E. rewrite (proj2 Hd f (eq_sym E)) in Hds. discriminate.
  - rewrite Eb. intros a Ha. pose proof (Hb a Ha) as Hp. apply (Hkept a _ Hp).
    intros E. rewrite (proj2 Hd a (eq_sym E)) in Hp. discriminate.
Qed.

(** A new slot of the float pool, filled: the pool is in order again, the
    slot holds the value; what was there before is still there unless the
    pool moved. *)
Lemma float_slot l w d :
  typed l w ->
  wp (let* f := realloc relocates (l_floats l) (S (l_float_count l)) (Doubles []) in
      let* _ := store_double f (S (l_float_count l) - 1) d in
      ret f) w (fun f w' =>
    typed (set_floats (Some f) (S (l_float_count l)) l) w' /\ keeps w w' /\
    load_double (heap w') f (l_float_count l) = Some d).
Proof.
  intros ((Hok & Hd) & Hf & Hb).
  replace (S (l_float_count l) - 1) with (l_float_count l) by lia.
  apply wp_bind. eapply wp_mono.
  { apply (realloc_content (l_floats l) (S (l_float_count l)) (Doubles []) w Hok).
    intros f Hfl. destruct (Hf f Hfl) as (ds & -> & _). by eexists. }
  intros f w1 (Hnew & Hothers & Hwhere & Hstay & Hok1).
  apply wp_bind, wp_modify, wp_ret.
  (* what the pool held before, and holds now *)
  set (old := default [] (l_floats l ≫= fun b =>
                match heap w !! b with Some (Doubles ds) => Some ds | _ => None end)).
  assert (Hold : heap w1 !! f = Some (Doubles (resize (S (l_float_count l)) None old))).
  { rewrite Hnew. unfold old. destruct (l_floats l) as [b |]; cbn; [| reflexivity].
    destruct (Hf b eq_refl) as (ds & -> & _). reflexivity. }
  assert (Hlen : length old <= l_float_count l).
  { unfold old. destruct (l_floats l) as [b |]; cbn; [| lia].
    destruct (Hf b eq_refl) as (ds & -> & <-). cbn. lia. }
  assert (Hkept : forall x o, heap w !! x = Some o -> Some x <> l_floats l ->
                              heap w1 !! x = Some o).
  { intros x o Ho Hx. exact (others_kept _ _ _ _ _ _ Hothers Hwhere Hx Ho). }
  assert (Hne : forall x o, heap w !! x = Some o -> Some x <> l_floats l -> x <> f).
  { intros x o Ho Hx ->. destruct Hwhere as [E | E]; congruence. }
  set (now := <[l_float_count l := Some d]> (resize (S (l_float_count l)) None old)).
  match goal with |- _ /\ _ ?x /\ _ => set (w2 := x) end.
  assert (Hw2 : heap w2 = <[f := Doubles now]> (heap w1)).
  { unfold w2. cbn [heap set_heap]. rewrite Hold. reflexivity. }
  assert (Hbrk : brk w2 = brk w1) by reflexivity.
  clearbody w2.
  assert (Hfar : forall x o, heap w !! x = Some o -> Some x <> l_floats l ->
                             heap w2 !! x = Some o).
  { intros x o Ho Hx. rewrite Hw2, lookup_insert_ne by (intros E; exact (Hne x o Ho Hx (eq_sym E))).
    exact (Hkept x o Ho Hx). }
  assert (Hnf : forall x o, heap w !! x = Some o ->
                  (forall ds, o <> Doubles ds) -> Some x <> l_floats l).
  { intros x o Ho Hkind E. destruct (Hf x (eq_sym E)) as (ds & Hds & _).
    rewrite Hds in Ho. injection Ho as <-. exact (Hkind ds eq_refl). }
  split; [| split].
  - split; [split |]; [| | split].
    + apply (heap_ok_overwrite w1 w2 f (Doubles now)); [exact Hok1 | exact Hw2 | | exact Hbrk].
      rewrite Hold. by eexists.
    + cbn. intros b Hbase. pose proof (Hd b Hbase) as Hw.
      apply (Hfar b _ Hw), (Hnf b _ Hw). discriminate.
    + cbn. intros ? [= <-]. exists now. split; [rewrite Hw2; apply lookup_insert_eq |].
      unfold now. rewrite length_insert, length_resize. reflexivity.
    + cbn. intros a Ha. pose proof (Hb a Ha) as Hw.
      apply (Hfar a _ Hw), (Hnf a _ Hw). discriminate.
  - split.
    + intros b bs Hbin. apply (Hfar b _ Hbin), (Hnf b _ Hbin). discriminate.
    + intros Hs b i d0 Hload. unfold load_double in *.
      destruct (heap w !! b) as [[| ds | | | |] |] eqn:Hwb; try discriminate Hload.
      destruct (decide (Some b = l_floats l)) as [E | E].
      * rewrite Hw2, (Hstay Hs b (eq_sym E)), lookup_insert_eq.
        destruct (Hf b (eq_sym E)) as (ds' & Hds' & Hlen').
        assert (ds' = ds) by congruence. subst ds'.
        assert (old = ds) as ->.
        { unfold old. rewrite <- E. cbn. rewrite Hwb. reflexivity. }
        destruct (ds !! i) as [o |] eqn:Hi; [| discriminate Hload].
        pose proof (lookup_lt_Some _ _ _ Hi) as Hlt.
        unfold now. rewrite list_lookup_insert_ne by lia.
        rewrite lookup_resize by lia. rewrite Hi. exact Hload.
      * rewrite (Hfar b _ Hwb E). exact Hload.
  - unfold load_double. rewrite Hw2, lookup_insert_eq. unfold now.
    rewrite list_lookup_insert_eq by (rewrite length_resize; lia). reflexivity.
Qed.


(** A new slot of the array of binaries, with a new binary filled from
    [src]: the binary holds exactly [src], and nothing a term word points at
    has changed. *)
Lemma binary_slot l w src :
  typed l w ->
  wp (let* a := realloc relocates (base (l_binaries l)) (S (l_binaries_count l)) Pointers in
      let* bin := driver_alloc_binary (length src) in
      let* _ := fill_binary
                  (nth (S (l_binaries_count l) - 1)
                       (<[S (l_binaries_count l) - 1 := bin]>
                          (resize (S (l_binaries_count l)) 0 (elems (l_binaries l)))) 0)
                  src in
      ret (a, bin)) w (fun r w' =>
    let arr := <[S (l_binaries_count l) - 1 := r.2]>
                 (resize (S (l_binaries_count l)) 0 (elems (l_binaries l))) in
    typed (set_binaries (Array (Some r.1) arr) (S (l_binaries_count l)) l) w' /\
    keeps w w' /\
    nth (S (l_binaries_count l) - 1) arr 0 = r.2 /\
    heap w' !! r.2 = Some (Binary src)).
Proof.
  intros ((Hok & Hd) & Hf & Hb).
  apply wp_bind. eapply wp_mono.
  { apply (realloc_content (base (l_binaries l)) (S (l_binaries_count l)) Pointers w Hok).
    intros a Ha. rewrite (Hb a Ha). by eexists. }
  intros a w1 (Hnew & Hothers & Hwhere & _ & Hok1).
  assert (Hnew' : heap w1 !! a = Some Pointers).
  { rewrite Hnew. destruct (base (l_binaries l)) as [b |]; cbn; [| reflexivity].
    rewrite (Hb b eq_refl). reflexivity. }
  assert (Hkept : forall x o, heap w !! x = Some o -> Some x <> base (l_binaries l) ->
                              heap w1 !! x = Some o).
  { intros x o Ho Hx. exact (others_kept _ _ _ _ _ _ Hothers Hwhere Hx Ho). }
  pose proof (heap_ok_fresh w1 Hok1) as Hfresh.
  unfold driver_alloc_binary.
  apply wp_bind. unfold wp at 1, alloc. cbn [fst snd].
  set (bin := brk w1).
  assert (Hnth : nth (S (l_binaries_count l) - 1)
                   (<[S (l_binaries_count l) - 1 := bin]>
                      (resize (S (l_binaries_count l)) 0 (elems (l_binaries l)))) 0 = bin).
  { apply nth_lookup_Some with (d := 0).
    apply list_lookup_insert_eq. rewrite length_resize. lia. }
  rewrite Hnth.
  apply wp_bind, wp_modify, wp_ret. cbn [fst snd].
  match goal with |- _ /\ _ ?x /\ _ => set (w3 := x) end.
  assert (Hw3 : heap w3 = <[bin := Binary src]> (heap w1)).
  { unfold w3. cbn [heap set_heap set_brk]. rewrite lookup_insert_eq.
    apply insert_insert_eq. }
  assert (Hbrk : brk w3 = S (brk w1)) by reflexivity.
  clearbody w3.
  assert (Hfar1 : forall x o, heap w1 !! x = Some o -> heap w3 !! x = Some o).
  { intros x o Ho. rewrite Hw3, lookup_insert_ne; [exact Ho |].
    intros E. unfold bin in E. rewrite E in Hfresh. congruence. }
  assert (Hfar : forall x o, heap w !! x = Some o -> Some x <> base (l_binaries l) ->
                             heap w3 !! x = Some o).
  { intros x o Ho Hx. exact (Hfar1 x o (Hkept x o Ho Hx)). }
  assert (Hnp : forall x o, heap w !! x = Some o -> o <> Pointers ->
                            Some x <> base (l_binaries l)).
  { intros x o Ho Hkind E. rewrite (Hb x (eq_sym E)) in Ho. congruence. }
  split; [| split; [| split]].
  - split; [split |]; [| | split].
    + intros x Hx. unfold live in Hx. rewrite Hbrk. rewrite Hw3, dom_insert_L in Hx.
      apply elem_of_union in Hx as [Hx | Hx].
      * apply elem_of_singleton in Hx. subst x. unfold bin. lia.
      * apply Hok1 in Hx. lia.
    + intros b Hbase. pose proof (Hd b Hbase) as Hw.
      apply (Hfar b _ Hw), (Hnp b _ Hw). discriminate.
    + intros f Hfl. destruct (Hf f Hfl) as (ds & Hds & Hlen).
      exists ds. split; [| exact Hlen].
      apply (Hfar f _ Hds), (Hnp f _ Hds). discriminate.
    + intros ? [= <-]. exact (Hfar1 a _ Hnew').
  - apply keeps_payload. intros x o Ho Hp.
    apply (Hfar x o Ho), (Hnp x o Ho). intros ->. exact Hp.
  - exact Hnth.
  - rewrite Hw3. apply lookup_insert_eq.
Qed.

(** The two pool steps, seen as one step of the encoder. *)
Lemma wp_float_slot {B} (m : M block) (s : block -> M unit) (k : block -> M B) w Q :
  wp (let* f := (let* f := m in let* _ := s f in ret f) in k f) w Q ->
  wp (let* f := m in let* _ := s f in k f) w Q.
Proof.
  unfold wp, bind, ret. destruct (m w) as [f w1]. destruct (s f w1). exact id.
Qed.

Lemma wp_binary_slot {B} (m a : M block) (s : block -> M unit)
    (k : block -> block -> M B) w Q :
  wp (let* r := (let* p := m in let* bin := a in let* _ := s bin in ret (p, bin)) in
      k r.1 r.2) w Q ->
  wp (let* p := m in let* bin := a in let* _ := s bin in k p bin) w Q.
Proof.
  unfold wp, bind, ret. destruct (m w) as [p w1]. destruct (a w1) as [bin w2].
  destruct (s bin w2). exact id.
Qed.

(** What one cell adds to the array, and what its pointers reach in heap
    [h]: a binary holds the bytes of the cell; a float slot holds the value
    of the cell when blocks are never moved. *)
Definition cell_stored (h : gmap block object) (c : cell) (ws : list ErlDrvTermData) : Prop :=
  match c with
  | SQL_INTEGER v => ws = [Tag ERL_DRV_INT; word_of (CInt.to_int v)]
  | SQL_FLOAT d =>
      exists b i, ws = [Tag ERL_DRV_FLOAT; PtrDouble b i] /\
                  (stays -> load_double h b i = Some d)
  | SQL_TEXT bs | SQL_BLOB bs =>
      exists b, ws = [Tag ERL_DRV_BINARY; PtrBinary b;
                      word_of (Z.of_nat (length bs)); Num 0] /\
                h !! b = Some (Binary bs)
  | SQL_NULL => ws = []
  end.

Lemma cell_stored_keeps w w' c ws :
  keeps w w' -> cell_stored (heap w) c ws -> cell_stored (heap w') c ws.
Proof.
  intros [Hb Hd]. destruct c as [v | d | bs | bs |]; cbn; try exact id.
  - intros (b & i & E & H). exists b, i. split; [exact E |].
    intros Hs. apply (Hd Hs), H, Hs.
  - intros (b & E & H). exists b. split; [exact E | apply Hb, H].
  - intros (b & E & H). exists b. split; [exact E | apply Hb, H].
Qed.

Lemma cell_stored_words h c ws : cell_stored h c ws -> cell_words c ws.
Proof.
  destruct c as [v | d | bs | bs |]; cbn; try exact id.
  - intros (b & i & E & _). by exists b, i.
  - intros (b & E & _). by exists b.
  - intros (b & E & _). by exists b.
Qed.

Ltac written Ht Hw Hc Hr :=
  split; [| split];
  [ rewrite !words_put, Hw, (resize_tail _ _ _ Ht), Hc, Ht;
    repeat (rewrite insert_app_r_alt by lia);
    repeat match goal with
    | |- context [ <[?e - length ?xs := _]> _ ] =>
        first [ replace (e - length xs) with 0 by lia
              | replace (e - length xs) with 1 by lia
              | replace (e - length xs) with 2 by lia
              | replace (e - length xs) with 3 by lia ]
    end; reflexivity
  | repeat apply tight_put; unfold tight; rewrite Hw, Hc, length_resize; reflexivity
  | rewrite !row_count_put, Hr; simpl; lia ].

Lemma grow_dataset_stored n l w :
  typed l w ->
  wp (grow_dataset relocates n l) w (fun l' w' =>
    (typed l' w' /\ keeps w w') /\
    (frame w w' /\
     words l' = resize (l_term_count l + n) Garbage (words l) /\
     l_term_count l' = l_term_count l + n /\
     l_row_count l' = l_row_count l)).
Proof.
  intros Ht. apply wp_and; [apply grow_dataset_typed, Ht | apply grow_dataset_words].
Qed.

Lemma encode_cell_stored c l w :
  tight l -> typed l w ->
  wp (encode_cell relocates c l) w (fun l' w' =>
    typed l' w' /\ keeps w w' /\
    exists ws, cell_stored (heap w') c ws /\ extends l ws 0 l').
Proof.
  intros Ht Hty. destruct c as [v | d | bs | bs |]; cbn [encode_cell].
  - wp_step (grow_dataset_stored 2 l w Hty).
    intros l' w' ((Hty' & Hk) & _ & Hw & Hc & Hr).
    apply wp_ret. split; [do 2 apply typed_put; exact Hty' |]. split; [exact Hk |].
    eexists; split; [reflexivity |].
    written Ht Hw Hc Hr.
  - apply wp_float_slot. wp_step (float_slot l w d Hty).
    intros f w1 (Hty1 & Hk1 & Hload).
    wp_step (grow_dataset_stored 2 _ w1 Hty1).
    intros l' w' ((Hty' & Hk) & _ & Hw & Hc & Hr).
    apply wp_ret. split; [do 2 apply typed_put; exact Hty' |].
    split; [exact (keeps_trans _ _ _ Hk1 Hk) |].
    exists [Tag ERL_DRV_FLOAT; PtrDouble f (S (l_float_count l) - 1)]. split.
    + eexists _, _. split; [reflexivity |]. intros Hs.
      replace (S (l_float_count l) - 1) with (l_float_count l) by lia.
      apply (proj2 Hk Hs), Hload.
    + change (tight (set_floats (Some f) (S (l_float_count l)) l)) in Ht.
      written Ht Hw Hc Hr.
  - apply wp_binary_slot. wp_step (binary_slot l w bs Hty).
    intros [a bin] w1 (Hty1 & Hk1 & Hnth & Hbin). cbn [fst snd] in *.
    wp_step (grow_dataset_stored 4 _ w1 Hty1).
    intros l' w' ((Hty' & Hk) & _ & Hw & Hc & Hr).
    apply wp_ret. split; [do 4 apply typed_put; exact Hty' |].
    split; [exact (keeps_trans _ _ _ Hk1 Hk) |].
    eexists; split; cycle 1.
    + match type of Hw with context [words ?l0] => change (tight l0) in Ht end.
      written Ht Hw Hc Hr.
    + eexists. split; [reflexivity |]. rewrite Hnth. apply (proj1 Hk), Hbin.
  - apply wp_binary_slot. wp_step (binary_slot l w bs Hty).
    intros [a bin] w1 (Hty1 & Hk1 & Hnth & Hbin). cbn [fst snd] in *.
    wp_step (grow_dataset_stored 4 _ w1 Hty1).
    intros l' w' ((Hty' & Hk) & _ & Hw & Hc & Hr).
    apply wp_ret. split; [do 4 apply typed_put; exact Hty' |].
    split; [exact (keeps_trans _ _ _ Hk1 Hk) |].
    eexists; split; cycle 1.
    + match type of Hw with context [words ?l0] => change (tight l0) in Ht end.
      written Ht Hw Hc Hr.
    + eexists. split; [reflexivity |]. rewrite Hnth. apply (proj1 Hk), Hbin.
  - apply wp_ret. split; [exact Hty |]. split; [apply keeps_refl |].
    exists []. split; [reflexivity |].
    split; [| split]; [by rewrite app_nil_r | exact Ht | lia].
Qed.


(** A loop whose every turn appends and keeps what the earlier turns stored. *)
Lemma for_each_stored {A} (R : gmap block object -> A -> list ErlDrvTermData -> Prop)
    (d : nat) (body : A -> locals -> M locals) (xs : list A) :
  (forall w w' x ws, keeps w w' -> R (heap w) x ws -> R (heap w') x ws) ->
  (forall x l w, tight l -> typed l w ->
     wp (body x l) w (fun l' w' =>
       typed l' w' /\ keeps w w' /\ exists ws, R (heap w') x ws /\ extends l ws d l')) ->
  forall l w, tight l -> typed l w ->
    wp (for_each xs body l) w (fun l' w' =>
      typed l' w' /\ keeps w w' /\
      exists wss, Forall2 (R (heap w')) xs wss /\
                  extends l (concat wss) (d * length xs) l').
Proof.
  intros Hmono Hbody. induction xs as [| x xs IH]; intros l w Ht Hty; simpl.
  - apply wp_ret. split; [exact Hty |]. split; [apply keeps_refl |].
    exists []. split; [constructor |].
    split; [| split]; [by rewrite app_nil_r | exact Ht | lia].
  - wp_step (Hbody x l w Ht Hty). intros l1 w1 (Hty1 & Hk1 & ws & HR & Hw1 & Ht1 & Hr1).
    eapply wp_mono; [apply (IH l1 w1 Ht1 Hty1) |].
    intros l2 w2 (Hty2 & Hk2 & wss & HRs & Hw2 & Ht2 & Hr2).
    split; [exact Hty2 |]. split; [exact (keeps_trans _ _ _ Hk1 Hk2) |].
    exists (ws :: wss). split; [constructor; [exact (Hmono _ _ _ _ Hk2 HR) | exact HRs] |].
    split; [| split]; [| exact Ht2 | lia].
    simpl. rewrite Hw2, Hw1, app_assoc. reflexivity.
Qed.

(** What one row adds, and what its pointers reach. *)
Definition row_stored (h : gmap block object) (column_count : nat) (row : list cell)
    (ws : list ErlDrvTermData) : Prop :=
  exists wss,
    Forall2 (cell_stored h) (column row <$> seq 0 column_count) wss /\
    ws = concat wss ++ [Tag ERL_DRV_TUPLE; word_of (Z.of_nat column_count)].

Lemma row_stored_keeps column_count w w' row ws :
  keeps w w' -> row_stored (heap w) column_count row ws ->
  row_stored (heap w') column_count row ws.
Proof.
  intros Hk (wss & HR & E). exists wss. split; [| exact E].
  eapply Forall2_impl; [exact HR |]. intros c ws0. apply cell_stored_keeps, Hk.
Qed.

Lemma row_stored_words h column_count row ws :
  row_stored h column_count row ws -> row_words column_count row ws.
Proof.
  intros (wss & HR & E). exists wss. split; [| exact E].
  eapply Forall2_impl; [exact HR |]. intros c ws0. apply cell_stored_words.
Qed.

Lemma encode_row_stored column_count row l w :
  tight l -> typed l w ->
  wp (encode_row relocates column_count row l) w (fun l' w' =>
    typed l' w' /\ keeps w w' /\
    exists ws, row_stored (heap w') column_count row ws /\ extends l ws 1 l').
Proof.
  intros Ht Hty. unfold encode_row.
  apply wp_bind. eapply wp_mono.
  { apply (for_each_stored (fun h i => cell_stored h (column row i)) 0
             (fun i => encode_cell relocates (column row i)) (seq 0 column_count)).
    - intros w0 w0' i ws. apply cell_stored_keeps.
    - intros i l0 w0 Ht0 Hty0. apply encode_cell_stored; assumption.
    - exact Ht.
    - exact Hty. }
  intros l1 w1 (Hty1 & Hk1 & wss & HR & Hw1 & Ht1 & Hr1).
  wp_step (grow_dataset_stored 2 l1 w1 Hty1).
  intros l2 w2 ((Hty2 & Hk2) & _ & Hw & Hc & Hr).
  apply wp_ret. split; [apply typed_set_row_count; do 2 apply typed_put; exact Hty2 |].
  split; [exact (keeps_trans _ _ _ Hk1 Hk2) |].
  eexists. split.
  { exists wss. split; [| reflexivity]. apply Forall2_fmap_l.
    eapply Forall2_impl; [exact HR |]. intros i ws0. apply cell_stored_keeps, Hk2. }
  assert (Hex : extends l1 [Tag ERL_DRV_TUPLE; word_of (Z.of_nat column_count)] 0
            (put (l_term_count l2 - 1) (word_of (Z.of_nat column_count))
              (put (l_term_count l2 - 2) (Tag ERL_DRV_TUPLE) l2))).
  { written Ht1 Hw Hc Hr. }
  destruct Hex as (Hw3 & Ht3 & Hr3).
  split; [| split].
  - change (words (set_row_count ?n ?x)) with (words x).
    rewrite Hw3, Hw1, app_assoc. reflexivity.
  - exact Ht3.
  - simpl. rewrite !row_count_put in Hr3. rewrite Hr3, Hr1. lia.
Qed.

Lemma rows_stored column_count rows l w :
  tight l -> typed l w ->
  wp (for_each rows (encode_row relocates column_count) l) w (fun l' w' =>
    typed l' w' /\ keeps w w' /\
    exists rws, Forall2 (row_stored (heap w') column_count) rows rws /\
                extends l (concat rws) (length rows) l').
Proof.
  intros Ht Hty. eapply wp_mono.
  - apply (for_each_stored (fun h => row_stored h column_count) 1
             (encode_row relocates column_count) rows).
    + intros w0 w0' r ws. apply row_stored_keeps.
    + intros r l0 w0 Ht0 Hty0. apply encode_row_stored; assumption.
    + exact Ht.
    + exact Hty.
  - intros l' w' (Hty' & Hk & rws & HR & Hw & Ht' & Hr).
    split; [exact Hty' |]. split; [exact Hk |].
    exists rws. split; [exact HR |]. split; [exact Hw |]. split; [exact Ht' | lia].
Qed.

(** The header and the endings only grow the term array. *)
Lemma typed_put_names base name (cols : list nat) w : forall l,
  typed l w ->
  typed (foldl (fun l i => put (base + 2 + i * 2 + 1) (Atom (name i))
                            (put (base + 2 + i * 2) (Tag ERL_DRV_ATOM) l)) l cols) w.
Proof.
  induction cols as [| i cols IH]; intros l Hl; simpl; [exact Hl |].
  apply IH. by do 2 apply typed_put.
Qed.

Lemma columns_header_typed s column_count l w :
  typed l w ->
  wp (columns_header relocates s column_count l) w (fun l' w' =>
    typed l' w' /\ keeps w w').
Proof.
  intros Hty. unfold columns_header.
  wp_step (grow_dataset_typed (2 + column_count * 2 + 1 + 2 + 2 + 2) l w Hty).
  intros l1 w1 (Hty1 & Hk1). apply wp_ret. split; [| exact Hk1].
  do 7 apply typed_put. apply typed_put_names. by do 2 apply typed_put.
Qed.

Lemma close_rows_typed l w :
  typed l w ->
  wp (close_rows relocates l) w (fun l' w' => typed l' w' /\ keeps w w').
Proof.
  intros Hty. unfold close_rows.
  wp_step (grow_dataset_typed 3 l w Hty). intros l1 w1 (Hty1 & Hk1).
  match goal with |- wp (bind (grow_dataset _ _ ?x) _) _ _ =>
    assert (Hx1 : typed x w1) by (do 3 apply typed_put; exact Hty1) end.
  wp_step (grow_dataset_typed 2 _ w1 Hx1). intros l2 w2 (Hty2 & Hk2).
  match goal with |- wp (bind (grow_dataset _ _ ?x) _) _ _ =>
    assert (Hx2 : typed x w2) by (do 2 apply typed_put; exact Hty2) end.
  wp_step (grow_dataset_typed 3 _ w2 Hx2). intros l3 w3 (Hty3 & Hk3).
  apply wp_ret. split; [by do 3 apply typed_put |].
  exact (keeps_trans _ _ _ (keeps_trans _ _ _ Hk1 Hk2) Hk3).
Qed.

Lemma insert_id_typed l w :
  typed l w ->
  wp (insert_id relocates l) w (fun l' w' => typed l' w' /\ keeps w w').
Proof.
  intros Hty. unfold insert_id. apply wp_bind, wp_gets.
  wp_step (grow_dataset_typed 6 l w Hty). intros l1 w1 (Hty1 & Hk1).
  apply wp_ret. split; [by do 6 apply typed_put | exact Hk1].
Qed.

Lemma plain_status_typed next_row l w :
  typed l w ->
  wp (plain_status relocates next_row l) w (fun l' w' => typed l' w' /\ keeps w w').
Proof.
  intros Hty. unfold plain_status.
  wp_step (grow_dataset_typed 6 l w Hty). intros l1 w1 (Hty1 & Hk1).
  apply wp_ret. split; [by do 6 apply typed_put | exact Hk1].
Qed.

Lemma typed_same_heap l w w' :
  heap w' = heap w -> brk w' = brk w -> typed l w -> typed l w'.
Proof.
  intros Eh Eb ((Hok & Hd) & Hf & Hb). unfold typed, dataset_ok, heap_ok, live in *.
  rewrite Eh, Eb. auto.
Qed.


(** ** The array and the heap when [sql_exec_async] returns *)

Lemma sql_exec_async_stored me h s w :
  heap_ok w ->
  stmt_final s = SQLITE_DONE ->
  wp (sql_exec_async relocates (fresh_command me (Some (h, s)))) w (fun t w' =>
    drv_port w' = drv_port w /\ port_out w' = port_out w /\
    term_count t = length (elems (dataset t)) /\
    exists rws,
      Forall2 (row_stored (heap w') (length (stmt_columns s))) (stmt_rows s) rws /\
      elems (dataset t) = done_words (drv_port w) s rws).
Proof.
  intros Hok Hdone.
  unfold sql_exec_async, fresh_command, stmt_of; simpl.
  set (cc := length (stmt_columns s)).
  apply wp_bind, wp_gets.
  set (l0 := Locals null 0 0 None 0 null 0).
  assert (Ht0 : tight l0) by reflexivity.
  assert (Hty0 : typed l0 w).
  { split; [split; [exact Hok | intros b Hb; discriminate Hb] |].
    split; [intros f Hf | intros a Ha]; discriminate. }
  wp_step (grow_dataset_stored 2 l0 w Hty0).
  intros l1 w1 ((Hty1 & Hk1) & Hf1 & Hw1 & Hc1 & Hr1).
  match goal with |- wp (bind (if _ then _ ?x else _) _) _ _ => set (lp := x) end.
  assert (Ep : extends l0 [Tag ERL_DRV_PORT; PortId (drv_port w)] 0 lp).
  { unfold lp. written Ht0 Hw1 Hc1 Hr1. }
  assert (Htyp : typed lp w1) by (unfold lp; do 2 apply typed_put; exact Hty1).
  apply wp_bind.
  eapply (wp_mono _ _ (fun lh wh => (typed lh wh /\ keeps w1 wh) /\ (frame w1 wh /\
            extends lp (if decide (0 < cc) then header_words (stmt_columns s) else []) 0 lh))).
  { destruct (decide (0 < cc)).
    - apply wp_and; [apply columns_header_typed, Htyp |].
      apply columns_header_words. exact (extends_tight _ _ _ _ Ep).
    - apply wp_ret. split; [split; [exact Htyp | apply keeps_refl] |].
      split; [apply frame_refl |].
      split; [by rewrite app_nil_r |]. split; [exact (extends_tight _ _ _ _ Ep) | lia]. }
  intros lh wh ((Htyh & Hkh) & Hfh & Eh).
  apply wp_bind, wp_modify.
  match goal with |- wp _ ?x _ => set (wl := x) end.
  assert (Htyl : typed lh wl) by (apply (typed_same_heap lh wh); [reflexivity .. | exact Htyh]).
  apply wp_bind. eapply wp_mono.
  { apply wp_and.
    - exact (rows_stored cc (stmt_rows s) lh wl (extends_tight _ _ _ _ Eh) Htyl).
    - eapply wp_mono;
        [exact (rows_words relocates cc (stmt_rows s) lh wl (extends_tight _ _ _ _ Eh)) |].
      intros l' w' H. exact (proj1 H). }
  intros lr wr ((Htyr & Hkr & rws & HR & Er) & Hfr).
  apply wp_bind, wp_bind, wp_modify, wp_ret.
  match goal with |- wp _ ?x _ => set (wd := x) end.
  assert (Htyd : typed lr wd) by (apply (typed_same_heap lr wr); [reflexivity .. | exact Htyr]).
  pose proof (extends_trans _ _ _ _ _ _ _ (extends_trans _ _ _ _ _ _ _ Ep Eh) Er) as E.
  assert (Hport : port_out wd = port_out w /\ drv_port wd = drv_port w).
  { destruct Hf1 as (? & ? & ? & ? & ?), Hfh as (? & ? & ? & ? & ?), Hfr as (? & ? & ? & ? & ?).
    unfold wd, wl in *.
    cbn [port_out drv_port db stderr drv_async_handle
         set_stderr set_db set_port_out set_async_handle] in *.
    split; congruence. }
  destruct Hport as (Hpo & Hdp).
  assert (Hrows : l_row_count lr = length (stmt_rows s)).
  { destruct E as (_ & _ & ->). reflexivity. }
  rewrite decide_False by (rewrite Hdone; discriminate).
  rewrite decide_False by (intros H; exact (H Hdone)).
  apply wp_bind.
  eapply (wp_mono _ _ (fun lb wb => (typed lb wb /\ keeps wd wb) /\
            (frame wd wb /\ extends lr (ending_words s) 0 lb))).
  { unfold ending_words. fold cc. destruct (decide (0 < cc)).
    - rewrite <- Hrows.
      apply wp_and; [apply close_rows_typed, Htyd |].
      apply close_rows_words, (extends_tight _ _ _ _ Er).
    - destruct (mentions_insert (Some s)).
      + apply wp_and; [apply insert_id_typed, Htyd |].
        apply (insert_id_words relocates lr wd), (extends_tight _ _ _ _ Er).
      + apply wp_and; [apply plain_status_typed, Htyd |].
        apply plain_status_words, (extends_tight _ _ _ _ Er). }
  intros lb wb ((Htyb & Hkb) & Hfb & Eb).
  wp_step (grow_dataset_stored 2 lb wb Htyb).
  intros l2 w2 ((Hty2 & Hk2) & Hf2 & Hw2 & Hc2 & Hr2).
  set (lf := put (l_term_count l2 - 1) (Num 2)
              (put (l_term_count l2 - 2) (Tag ERL_DRV_TUPLE) l2)).
  assert (Ef : extends lb [Tag ERL_DRV_TUPLE; Num 2] 0 lf).
  { pose proof (extends_tight _ _ _ _ Eb) as Htb. unfold lf. written Htb Hw2 Hc2 Hr2. }
  pose proof (extends_trans _ _ _ _ _ _ _ (extends_trans _ _ _ _ _ _ _ E Eb) Ef)
    as (Hwf & Htf & _).
  assert (Hdone_words : words lf = done_words (drv_port w) s rws).
  { rewrite Hwf. unfold done_words. fold cc. rewrite <- !app_assoc. reflexivity. }
  apply wp_bind, wp_modify, wp_ret.
  destruct Hfb as (? & ? & ? & ? & ?), Hf2 as (? & ? & ? & ? & ?).
  unfold wd in *.
  cbn [port_out drv_port db stderr drv_async_handle heap
       set_stderr set_db set_port_out set_async_handle] in *.
  split; [congruence |]. split; [congruence |]. split; [exact Htf |].
  exists rws. split; [| exact Hdone_words].
  eapply Forall2_impl; [exact HR |]. intros r ws.
  apply row_stored_keeps. apply (keeps_trans _ wb); [| exact Hk2].
  apply (keeps_trans _ (set_db (stmt_db_after s) wr)); [| exact Hkb].
  apply keeps_same_heap. reflexivity.
Qed.

End Contents.

(** ** What a reader of the array finds behind its pointers *)

(** The bytes behind the binary words of an array, in order; [None] for a
    word that names no binary. *)
Definition pointed_binaries (h : gmap block object) (ws : list ErlDrvTermData)
  : list (option (list Byte.byte)) :=
  flat_map (fun w => match w with
                     | PtrBinary b =>
                         [match h !! b with Some (Binary bs) => Some bs | _ => None end]
                     | _ => []
                     end) ws.

(** The cells of a result set in the order the loops of [sql_exec_async]
    visit them. *)
Definition cells_of (column_count : nat) (rows : list (list cell)) : list cell :=
  flat_map (fun row => column row <$> seq 0 column_count) rows.

Definition blobs (cs : list cell) : list (list Byte.byte) :=
  flat_map (fun c => match c with SQL_TEXT bs | SQL_BLOB bs => [bs] | _ => [] end) cs.

Definition doubles (cs : list cell) : list c_double :=
  flat_map (fun c => match c with SQL_FLOAT d => [d] | _ => [] end) cs.

(** A word that points nowhere. *)
Definition plain (w : ErlDrvTermData) : Prop :=
  match w with
  | PtrDouble _ _ | PtrBinary _ => False
  | _ => True
  end.

Section Reads.

Context {X : Type} (f : ErlDrvTermData -> list X) (g : cell -> list X).
Hypothesis f_plain : forall w, plain w -> f w = [].

Lemma reads_atom_words names : flat_map f (atom_words names) = [].
Proof.
  induction names as [| n names IH]; [reflexivity |].
  cbn. rewrite !f_plain by exact I. exact IH.
Qed.

Lemma reads_plain ws : Forall plain ws -> flat_map f ws = [].
Proof.
  induction 1 as [| w ws Hw _ IH]; [reflexivity |].
  cbn. rewrite (f_plain w Hw), IH. reflexivity.
Qed.

Lemma reads_header names : flat_map f (header_words names) = [].
Proof.
  unfold header_words. rewrite !flat_map_app, reads_atom_words.
  rewrite !reads_plain by (repeat constructor). reflexivity.
Qed.

Lemma reads_ending s : flat_map f (ending_words s) = [].
Proof.
  unfold ending_words, rows_end.
  destruct (decide (0 < length (stmt_columns s))); [| destruct (mentions_insert (Some s))];
    apply reads_plain; repeat constructor.
Qed.

Lemma reads_done_words port s rws :
  flat_map f (done_words port s rws) = flat_map f (concat rws).
Proof.
  unfold done_words. rewrite !flat_map_app, reads_ending.
  rewrite (reads_plain [Tag ERL_DRV_PORT; PortId port]) by (repeat constructor).
  rewrite (reads_plain [Tag ERL_DRV_TUPLE; Num 2]) by (repeat constructor).
  destruct (decide (0 < length (stmt_columns s)));
    [rewrite reads_header |]; cbn; by rewrite !app_nil_r.
Qed.

Variable relocates : block -> nat -> bool.
Variable h : gmap block object.
Hypothesis f_cell : forall c ws, cell_stored relocates h c ws -> flat_map f ws = g c.

Lemma reads_cells cs wss :
  Forall2 (cell_stored relocates h) cs wss ->
  flat_map f (concat wss) = flat_map g cs.
Proof.
  induction 1 as [| c ws cs wss Hc _ IH]; [reflexivity |].
  cbn. rewrite flat_map_app, (f_cell c ws Hc), IH. reflexivity.
Qed.

Lemma reads_rows column_count rows rws :
  Forall2 (row_stored relocates h column_count) rows rws ->
  flat_map f (concat rws) = flat_map g (cells_of column_count rows).
Proof.
  induction 1 as [| row ws rows rws (wss & Hcs & ->) _ IH]; [reflexivity |].
  cbn. rewrite !flat_map_app, (reads_cells _ _ Hcs), IH.
  rewrite (reads_plain [Tag ERL_DRV_TUPLE; word_of (Z.of_nat column_count)])
    by (repeat constructor).
  by rewrite app_nil_r.
Qed.

End Reads.

Lemma fmap_flat_map {A B C} (f : A -> list B) (g : B -> C) (xs : list A) :
  flat_map (fun x => g <$> f x) xs = g <$> flat_map f xs.
Proof.
  induction xs as [| x xs IH]; [reflexivity |].
  cbn. rewrite fmap_app, IH. reflexivity.
Qed.

Lemma alloc_heap_ok o w : heap_ok w -> heap_ok (alloc o w).2.
Proof.
  intros Hok x Hx. unfold live, alloc in *. cbn in *.
  rewrite dom_insert_L in Hx. apply elem_of_union in Hx as [Hx | Hx].
  - apply elem_of_singleton in Hx. lia.
  - apply Hok in Hx. lia.
Qed.

(** A command whose statement runs to SQLITE_DONE: the one delivery is the
    array [sql_exec_async] left, read in the heap it left. *)
Lemma sql_exec_handoff relocates prepare command s d' w :
  heap_ok w ->
  prepare (db w) command = (SQLITE_OK, Some s, d') ->
  stmt_final s = SQLITE_DONE ->
  exists dl h rws,
    port_out (sql_exec relocates prepare command w).2 = port_out w ++ [dl] /\
    sent dl = done_words (drv_port w) s rws /\
    doubles_read dl = pointed_doubles h (sent dl) /\
    Forall2 (row_stored relocates h (length (stmt_columns s))) (stmt_rows s) rws.
Proof.
  intros Hok Hprep Hdone.
  change (wp (sql_exec relocates prepare command) w (fun _ w' =>
    exists dl h rws,
      port_out w' = port_out w ++ [dl] /\
      sent dl = done_words (drv_port w) s rws /\
      doubles_read dl = pointed_doubles h (sent dl) /\
      Forall2 (row_stored relocates h (length (stmt_columns s))) (stmt_rows s) rws)).
  unfold sql_exec, sqlite3_prepare_v2.
  apply wp_bind, wp_bind, wp_gets. rewrite Hprep.
  apply wp_bind, wp_modify.
  rewrite decide_True by reflexivity.
  apply wp_bind, wp_ret.
  rewrite decide_False by (intros H; apply H; reflexivity).
  apply wp_bind.
  match goal with |- wp _ ?x _ => set (w1 := x) end.
  assert (Hok1 : heap_ok w1).
  { unfold w1. apply (alloc_heap_ok Statement (set_db d' w)). exact Hok. }
  unfold wp at 1. cbn [fst snd].
  apply wp_bind.
  eapply wp_mono.
  { apply (sql_exec_async_stored relocates _ _ s _ (alloc_heap_ok Command w1 Hok1) Hdone). }
  intros t w2 (Hdp & Hpo & Htc & rws & HR & Hwords).
  wp_step (ready_async_io t w2 Htc). intros ? w3 (Hpo3 & _ & _).
  apply wp_ret. eexists _, (heap w2), rws.
  split; [rewrite Hpo3, Hpo; reflexivity |].
  cbn [sent doubles_read]. split; [rewrite Hwords; reflexivity |].
  split; [reflexivity | exact HR].
Qed.

(** A result set with text, blob, float, integer and NULL cells. *)
Definition select_notes : sqlite3_stmt :=
  Sqlite3Stmt "SELECT name, photo, score FROM notes"
    ["name"%string; "photo"%string; "score"%string]
    [[SQL_TEXT [Byte.x61; Byte.x62]; SQL_BLOB [Byte.x00; Byte.xff];
      SQL_FLOAT 4609434218613702656];
     [SQL_TEXT []; SQL_NULL; SQL_INTEGER 1]]
    SQLITE_DONE (Sqlite3 "not an error" 0).

(** When [sql_exec_async] returns after SQLITE_DONE, the binary words of its
    array name, in the order of the cells, one live binary per text or blob
    cell, and each binary holds exactly the bytes of its cell.  This holds
    whether or not [realloc] moves the blocks it grows. *)
Theorem binary_cells_reach_their_bytes relocates me h s w :
  heap_ok w ->
  stmt_final s = SQLITE_DONE ->
  let r := sql_exec_async relocates (fresh_command me (Some (h, s))) w in
  pointed_binaries (heap r.2) (elems (dataset r.1)) =
  Some <$> blobs (cells_of (length (stmt_columns s)) (stmt_rows s)).
Proof.
  intros Hok Hdone r.
  pose proof (sql_exec_async_stored relocates me h s w Hok Hdone) as H.
  unfold wp in H. fold r in H. destruct H as (_ & _ & _ & rws & HR & Hwords).
  rewrite Hwords. unfold pointed_binaries, blobs. rewrite <- fmap_flat_map.
  match goal with |- flat_map ?f0 _ = flat_map ?g0 _ => set (f := f0); set (g := g0) end.
  assert (Hplain : forall x, plain x -> f x = []).
  { intros [] Hp; try reflexivity; destruct Hp. }
  assert (Hcell : forall c ws, cell_stored relocates (heap r.2) c ws -> flat_map f ws = g c).
  { intros [v | d | bs | bs |] ws; cbn.
    - intros ->. reflexivity.
    - intros (b & i & -> & _). reflexivity.
    - intros (b & -> & Hb). cbn. rewrite Hb. reflexivity.
    - intros (b & -> & Hb). cbn. rewrite Hb. reflexivity.
    - intros ->. reflexivity. }
  rewrite (reads_done_words f Hplain).
  exact (reads_rows f g Hplain relocates (heap r.2) Hcell _ _ _ HR).
Qed.

Lemma binary_cells_reach_their_bytes_witness :
  let r := sql_exec_async Examples.moving (fresh_command 1 (Some (0, select_notes)))
             (boot 7 Examples.idle) in
  pointed_binaries (heap r.2) (elems (dataset r.1)) =
  [Some [Byte.x61; Byte.x62]; Some [Byte.x00; Byte.xff]; Some []].
Proof.
  apply (binary_cells_reach_their_bytes Examples.moving 1 0 select_notes
           (boot 7 Examples.idle)).
  - apply boot_heap_ok.
  - reflexivity.
Defined.

(** With a [realloc] that never moves a block, every float of the result
    set arrives: the doubles the emulator reads behind the ERL_DRV_FLOAT
    words of the one delivery are the float cells, in order. *)
Theorem floats_arrive_when_blocks_stay relocates prepare command s d' w :
  (forall b n, relocates b n = false) ->
  heap_ok w ->
  prepare (db w) command = (SQLITE_OK, Some s, d') ->
  stmt_final s = SQLITE_DONE ->
  exists dl,
    port_out (sql_exec relocates prepare command w).2 = port_out w ++ [dl] /\
    doubles_read dl =
    Some <$> doubles (cells_of (length (stmt_columns s)) (stmt_rows s)).
Proof.
  intros Hstay Hok Hprep Hdone.
  destruct (sql_exec_handoff relocates prepare command s d' w Hok Hprep Hdone)
    as (dl & hp & rws & Hout & Hsent & Hread & HR).
  exists dl. split; [exact Hout |].
  rewrite Hread, Hsent. unfold pointed_doubles, doubles. rewrite <- fmap_flat_map.
  match goal with |- flat_map ?f0 _ = flat_map ?g0 _ => set (f := f0); set (g := g0) end.
  assert (Hplain : forall x, plain x -> f x = []).
  { intros [] Hp; try reflexivity; destruct Hp. }
  assert (Hcell : forall c ws, cell_stored relocates hp c ws -> flat_map f ws = g c).
  { intros [v | d | bs | bs |] ws; cbn.
    - intros ->. reflexivity.
    - intros (b & i & -> & Hd). cbn. rewrite (Hd Hstay). reflexivity.
    - intros (b & -> & _). reflexivity.
    - intros (b & -> & _). reflexivity.
    - intros ->. reflexivity. }
  rewrite (reads_done_words f Hplain).
  exact (reads_rows f g Hplain relocates hp Hcell _ _ _ HR).
Qed.

Lemma floats_arrive_when_blocks_stay_witness :
  exists dl,
    port_out (Examples.run Examples.in_place Examples.select_floats) = [] ++ [dl] /\
    doubles_read dl = [Some 4609434218613702656%Z; Some 4612811918334230528%Z].
Proof.
  apply (floats_arrive_when_blocks_stay Examples.in_place
           (Examples.compiles Examples.select_floats) "SELECT x, y FROM p"
           Examples.select_floats Examples.idle (boot 7 Examples.idle)).
  - reflexivity.
  - apply boot_heap_ok.
  - reflexivity.
  - reflexivity.
Defined.

(** ** One array per command, and when it is a reply *)

(** The command ran a statement to SQLITE_DONE and some cell of its result
    set is NULL. *)
Definition null_result (result : Z) (o : option sqlite3_stmt) : Prop :=
  result = SQLITE_OK /\
  exists s, o = Some s /\ stmt_final s = SQLITE_DONE /\ 0 < all_nulls (stmt_rows s).

Lemma done_words_term_iff port s rws :
  engine_stmt s ->
  (Z.of_nat (length (stmt_columns s)) < 2 ^ 31)%Z ->
  (Z.of_nat (length (stmt_rows s)) < 2 ^ 31)%Z ->
  Forall2 (row_words (length (stmt_columns s))) (stmt_rows s) rws ->
  is_Some (decode (done_words port s rws)) <-> all_nulls (stmt_rows s) = 0.
Proof.
  intros (Hnone & Hlen & _) Hccb Hrb Hrws.
  destruct (decide (0 < length (stmt_columns s))) as [Hcc | Hcc].
  - split.
    + intros [t Ht]. apply decode_height in Ht.
      rewrite (height_done_words _ s rws Hcc Hccb Hrb Hlen Hrws) in Ht.
      injection Ht as Ht. lia.
    + intros Hn.
      destruct (decode_rows_reply port s rws Hcc Hccb Hrb Hrws
                  (all_nulls_none _ _ Hlen Hn)) as (tss & _ & Hdec).
      rewrite Hdec. by eexists.
  - assert (Hcols : stmt_columns s = []).
    { destruct (stmt_columns s); [reflexivity | cbn in Hcc; lia]. }
    rewrite (Hnone Hcols) in Hrws |- *. apply Forall2_nil_inv_l in Hrws. subst rws.
    rewrite (decode_no_columns port s Hcols). split; [reflexivity | by eexists].
Qed.

Lemma encoded_term_iff port s ws :
  engine_stmt s ->
  (Z.of_nat (length (stmt_columns s)) < 2 ^ 31)%Z ->
  (Z.of_nat (length (stmt_rows s)) < 2 ^ 31)%Z ->
  (Z.of_nat (String.length (errmsg (stmt_db_after s))) < 2 ^ 31)%Z ->
  encoded port s ws ->
  is_Some (decode ws) <->
  ~ (stmt_final s = SQLITE_DONE /\ 0 < all_nulls (stmt_rows s)).
Proof.
  intros Heng Hccb Hrb Hmsg Henc. unfold encoded in Henc.
  destruct (decide (stmt_final s = SQLITE_BUSY)) as [Hbusy | _].
  { subst ws. rewrite decode_error_words by (cbn; lia).
    split; [| by eexists]. intros _ [Hd _]. rewrite Hd in Hbusy. discriminate. }
  destruct (decide (stmt_final s ≠ SQLITE_DONE)) as [Hne | Hdone].
  { subst ws. rewrite decode_error_words by lia.
    split; [| by eexists]. intros _ [Hd _]. exact (Hne Hd). }
  apply dec_stable in Hdone. destruct Henc as (rws & Hrws & ->).
  rewrite (done_words_term_iff port s rws Heng Hccb Hrb Hrws).
  split; [intros Hn [_ Hpos]; lia |].
  intros Hn. destruct (all_nulls (stmt_rows s)) eqn:E; [reflexivity |].
  exfalso. apply Hn. split; [exact Hdone | lia].
Qed.

(** Every call of [control] returns 0 and calls [driver_output_term] exactly
    once, for the driver's port.  The array it hands over is a term, so
    that a reply is sent, in every case but one: a statement that ran to
    SQLITE_DONE with a NULL cell in its result set.  In that case the call
    fails and the caller gets no reply at all. *)
Theorem command_is_answered_unless_null relocates prepare CMD_SQL_EXEC
    command buf result o d' w :
  prepare (db w) buf = (result, o, d') ->
  (Z.of_nat (String.length (errmsg d')) < 2 ^ 31)%Z ->
  (forall s, o = Some s ->
     engine_stmt s /\
     (Z.of_nat (length (stmt_columns s)) < 2 ^ 31)%Z /\
     (Z.of_nat (length (stmt_rows s)) < 2 ^ 31)%Z /\
     (Z.of_nat (String.length (errmsg (stmt_db_after s))) < 2 ^ 31)%Z) ->
  let r := control relocates prepare CMD_SQL_EXEC command buf w in
  r.1 = 0%Z /\ drv_port r.2 = drv_port w /\
  exists dl,
    port_out r.2 = port_out w ++ [dl] /\ to_port dl = drv_port w /\
    (is_Some (decode (sent dl)) <->
     ~ (command = CMD_SQL_EXEC /\ null_result result o)).
Proof.
  intros Hprep Hmsg Hsane r.
  destruct (control_answers relocates prepare CMD_SQL_EXEC command buf w)
    as (Hr & Hport & dl & Hout & Hto & Hans).
  fold r in Hr, Hport, Hout, Hans.
  split; [exact Hr |]. split; [exact Hport |].
  exists dl. split; [exact Hout |]. split; [exact Hto |].
  cbn [fst snd] in Hans. unfold null_result.
  destruct (decide (command = CMD_SQL_EXEC)) as [Hcmd | Hcmd].
  - rewrite Hprep in Hans.
    destruct (decide (result = SQLITE_OK)) as [Hres | Hres].
    + destruct o as [s |].
      * destruct Hans as (Henc & _).
        destruct (Hsane s eq_refl) as (Heng & Hccb & Hrb & Hmsg').
        rewrite (encoded_term_iff _ s _ Heng Hccb Hrb Hmsg' Henc). split.
        -- intros Hn (_ & _ & s0 & [= <-] & Hd & Hpos). exact (Hn (conj Hd Hpos)).
        -- intros Hn [Hd Hpos]. apply Hn. split; [exact Hcmd |].
           split; [exact Hres |]. exists s. repeat split; assumption.
      * destruct Hans as (-> & _). rewrite decode_error_words by lia.
        split; [| by eexists]. intros _ (_ & _ & s & Hs & _). discriminate.
    + destruct Hans as (-> & _). rewrite decode_error_words by lia.
      split; [| by eexists]. intros _ (_ & Hok & _). exact (Hres Hok).
  - destruct Hans as (-> & _).
    split; [intros _ [Hc _]; exact (Hcmd Hc) | intros _; by eexists].
Qed.

Lemma command_is_answered_unless_null_witness :
  let r := control Examples.moving (Examples.compiles Examples.select_null) 2 2
             "SELECT a, b FROM t" (boot 7 Examples.idle) in
  r.1 = 0%Z /\ drv_port r.2 = 7 /\
  exists dl,
    port_out r.2 = [] ++ [dl] /\ to_port dl = 7 /\
    (is_Some (decode (sent dl)) <->
     ~ (2%Z = 2%Z /\ null_result SQLITE_OK (Some Examples.select_null))).
Proof.
  apply (command_is_answered_unless_null Examples.moving
           (Examples.compiles Examples.select_null) 2 2 "SELECT a, b FROM t"
           SQLITE_OK (Some Examples.select_null) Examples.idle (boot 7 Examples.idle)).
  - reflexivity.
  - reflexivity.
  - intros s [= <-]. split; [| split; [| split]]; try reflexivity.
    split; [discriminate |]. split; [repeat constructor | discriminate].
Defined.

(** Commands compose.  After any run of commands the port holds, behind
    what it held, one array per command in command order: the i-th array is
    the one [control] builds for the i-th command with the connection in the
    state the commands before it left.  No [free] met a block that was not
    live, and every block live before the run is still live: a command
    frees only what it allocated itself. *)
Theorem commands_compose relocates prepare CMD_SQL_EXEC commands w :
  heap_ok w ->
  let w' := (serve relocates prepare CMD_SQL_EXEC commands w).2 in
  (exists dls, port_out w' = port_out w ++ dls /\ length dls = length commands /\
               answered prepare CMD_SQL_EXEC (drv_port w) (db w) commands dls (db w')) /\
  drv_port w' = drv_port w /\
  bad_frees w' = bad_frees w /\ heap_ok w' /\ live w ⊆ live w'.
Proof.
  intros Hok w'.
  destruct (serve_run relocates prepare CMD_SQL_EXEC commands w Hok)
    as ((dls & Hout & Hans) & Hport & Hbad & Hok' & Hlive).
  fold w' in Hout, Hans, Hport, Hbad, Hok', Hlive.
  split; [| repeat split; assumption].
  exists dls. split; [exact Hout |]. split; [| exact Hans].
  exact (answered_length _ _ _ _ _ _ _ Hans).
Qed.

Lemma commands_compose_witness :
  let w' := (serve Examples.in_place (Examples.compiles Examples.select_busy) 2
               [(2%Z, "SELECT a FROM t"%string); (9%Z, "ping"%string)]
               (boot 7 Examples.idle)).2 in
  (exists dls, port_out w' = [] ++ dls /\ length dls = 2 /\
               answered (Examples.compiles Examples.select_busy) 2 7 Examples.idle
                 [(2%Z, "SELECT a FROM t"%string); (9%Z, "ping"%string)] dls (db w')) /\
  drv_port w' = 7 /\
  bad_frees w' = 0 /\ heap_ok w' /\ live (boot 7 Examples.idle) ⊆ live w'.
Proof.
  apply (commands_compose Examples.in_place (Examples.compiles Examples.select_busy) 2
           [(2%Z, "SELECT a FROM t"%string); (9%Z, "ping"%string)]
           (boot 7 Examples.idle)).
  apply boot_heap_ok.
Defined.
